(** * Monte-Carlo brain scattering: normalisation, interpolation and
      goodness-of-fit, embedded from the Python sources

    The development follows the Python units it verifies:

    - [Merge]   : [StatisticalAnalyzer._merge_intervals]
    - [Stack]   : [SimulationMonteCarlo.initialize_input]
    - [Norm]    : [SimulationMonteCarlo.process_output]
    - [Interp]  : [SimulationMonteCarlo.get_analysis_data], over [Pchip],
                  the interpolator of scipy that it calls
    - [Stat]    : [StatisticalAnalyzer] ([__init__], [calculate],
                  [_run_pearson_tests])
    - [Layers]  : [LayersManager] ([make_one_layer], [make_two_layers],
                  [make_three_layers])
    - [Sim]     : [SimulationMonteCarlo.mc]
    - [Chart]   : [create_layer_diagram]

    The model comes first, then the vocabulary of the statements, then
    the properties with their proofs.

    Numbers.  A Python/numpy float is modelled by [float64]: a real number
    or one of the three IEEE special values.  Rounding inside the range
    of a double and the sign of zero are not modelled; every other case
    split of the arithmetic (division by zero, [inf - inf], comparisons
    with [nan]) is written out.  The range of a double is modelled where
    the control flow of the program depends on it: in the squares
    [n0**2], [n1**2] and [dr**2], which raise [OverflowError] on Python
    floats and give [inf] on numpy scalars, and in the bin width and the
    bin edges of the analyzer, whose [np.arange] refuses a length that
    is not a number.  Elsewhere sums, products and quotients are exact.
    Integers are [Z], sizes are [nat]; a photon count is an integer that
    converts to a double. *)

From Stdlib Require Import Reals Lra Lia List ZArith Bool.
From Stdlib Require String DecimalString.
Import ListNotations.
Import String.StringSyntax.
Delimit Scope string_scope with string.

Set Implicit Arguments.

(* ------------------------------------------------------------------ *)
(** ** Floating-point values *)

Module NP.

Inductive float64 : Type :=
| Fin (r : R)
| PInf
| NInf
| NaN.

Definition Rltb (x y : R) : bool := if Rlt_dec x y then true else false.
Definition Rleb (x y : R) : bool := if Rle_dec x y then true else false.
Definition Reqb (x y : R) : bool := if Req_dec_T x y then true else false.

Definition inf_of (positive : bool) : float64 :=
  if positive then PInf else NInf.

(** Sign of a value: [Some true] positive, [Some false] negative,
    [None] for zero and for [nan]. *)
Definition fsign (x : float64) : option bool :=
  match x with
  | Fin r => if Rlt_dec 0 r then Some true
             else if Rlt_dec r 0 then Some false else None
  | PInf => Some true
  | NInf => Some false
  | NaN => None
  end.

Definition is_finite (x : float64) : bool :=
  match x with Fin _ => true | _ => false end.

Definition fopp (x : float64) : float64 :=
  match x with
  | Fin r => Fin (- r)
  | PInf => NInf
  | NInf => PInf
  | NaN => NaN
  end.

Definition fadd (x y : float64) : float64 :=
  match x, y with
  | NaN, _ | _, NaN => NaN
  | Fin a, Fin b => Fin (a + b)
  | PInf, NInf | NInf, PInf => NaN
  | PInf, _ | _, PInf => PInf
  | NInf, _ | _, NInf => NInf
  end.

Definition fsub (x y : float64) : float64 := fadd x (fopp y).

Definition fmul (x y : float64) : float64 :=
  match x, y with
  | Fin a, Fin b => Fin (a * b)
  | _, _ =>
      match fsign x, fsign y with
      | Some s, Some t => inf_of (eqb s t)
      | _, _ => NaN
      end
  end.

(** numpy's true division: a zero divisor gives a signed infinity, or
    [nan] for [0/0]; it never raises. *)
Definition fdiv (x y : float64) : float64 :=
  match x, y with
  | NaN, _ | _, NaN => NaN
  | Fin a, Fin b =>
      if Req_dec_T b 0
      then match fsign x with Some s => inf_of s | None => NaN end
      else Fin (a / b)
  | Fin _, _ => Fin 0
  | _, Fin b =>
      match fsign x with
      | Some s => inf_of (if Rlt_dec b 0 then negb s else s)
      | None => NaN
      end
  | _, _ => NaN
  end.

Definition fsqrt (x : float64) : float64 :=
  match x with
  | Fin r => if Rlt_dec r 0 then NaN else Fin (sqrt r)
  | PInf => PInf
  | _ => NaN
  end.

Definition fsin (x : float64) : float64 :=
  match x with
  | Fin r => Fin (sin r)
  | _ => NaN
  end.

(** The range of a double.  Rounded to nearest, a real of magnitude
    [(2 - 2^-53) * 2^1023] or more becomes an infinity, and one of
    magnitude [2^-1075] or less becomes zero. *)
Definition overflow_threshold : R := ((2 - / 2 ^ 53) * 2 ^ 1023)%R.
Definition underflow_threshold : R := (/ 2 ^ 1075)%R.

Definition overflows (r : R) : bool := Rleb overflow_threshold (Rabs r).
Definition vanishes (r : R) : bool := Rleb (Rabs r) underflow_threshold.

(** A sum or a difference brought into the range: it can overflow, but
    it cannot underflow, since a sum of two doubles is a multiple of
    the smallest positive double. *)
Definition clip (x : float64) : float64 :=
  match x with
  | Fin r => if overflows r then inf_of (Rltb 0 r) else Fin r
  | _ => x
  end.

(** A product or a quotient brought into the range. *)
Definition rnd (x : float64) : float64 :=
  match clip x with
  | Fin r => if vanishes r then Fin 0 else Fin r
  | y => y
  end.

(** The arithmetic of numpy scalars, in range: no operation raises. *)
Definition npadd (x y : float64) : float64 := clip (fadd x y).
Definition npsub (x y : float64) : float64 := clip (fsub x y).
Definition npmul (x y : float64) : float64 := rnd (fmul x y).
Definition npdiv (x y : float64) : float64 := rnd (fdiv x y).

(** [x ** 2] as a double. *)
Definition squared (x : float64) : float64 := rnd (fmul x x).

(** The square of a finite number is out of range. *)
Definition square_overflows (x : float64) : bool :=
  match x with
  | Fin r => overflows (r * r)
  | _ => false
  end.

(** Comparisons: anything compared with [nan] is [False]. *)
Definition flt (x y : float64) : bool :=
  match x, y with
  | NaN, _ | _, NaN => false
  | Fin a, Fin b => Rltb a b
  | _, NInf | PInf, _ => false
  | _, _ => true
  end.

Definition fle (x y : float64) : bool :=
  match x, y with
  | NaN, _ | _, NaN => false
  | Fin a, Fin b => Rleb a b
  | NInf, _ | _, PInf => true
  | _, _ => false
  end.

Definition fgt (x y : float64) : bool := flt y x.
Definition fge (x y : float64) : bool := fle y x.

Definition feq (x y : float64) : bool :=
  match x, y with
  | Fin a, Fin b => Reqb a b
  | PInf, PInf | NInf, NInf => true
  | _, _ => false
  end.

(** [np.sum] of a one-dimensional array, and the running sum of a Python
    loop [c += e] started at [0]. *)
Definition fsum (l : list float64) : float64 := fold_left fadd l (Fin 0).

Definition of_Z (z : Z) : float64 := Fin (IZR z).
Definition of_nat (n : nat) : float64 := Fin (INR n).

End NP.
Export NP.

(* ------------------------------------------------------------------ *)
(** ** Python outcomes *)

Inductive exn : Type :=
| IndexError
| ValueError
| ZeroDivisionError
| OverflowError.

Inductive result (A : Type) : Type :=
| Return (a : A)
| Raise (e : exn).
Arguments Raise {A} e.

Definition bind {A B} (m : result A) (k : A -> result B) : result B :=
  match m with
  | Return a => k a
  | Raise e => Raise e
  end.

Notation "x <- m ;; k" := (bind m (fun x => k))
  (at level 61, m at next level, right associativity).

Definition raises {A} (m : result A) : Prop := exists e, m = Raise e.

(** [l[i]] for a non-negative index. *)
Definition index {A} (l : list A) (i : nat) : result A :=
  match nth_error l i with
  | Some a => Return a
  | None => Raise IndexError
  end.

(** Python's float division [x / y]: a zero divisor raises. *)
Definition pydiv (x y : float64) : result float64 :=
  if feq y (Fin 0) then Raise ZeroDivisionError else Return (fdiv x y).

(** Python's [x ** 2] on a float: a square out of range raises, where
    numpy's [**] returns [inf]. *)
Definition pypow2 (x : float64) : result float64 :=
  if square_overflows x then Raise OverflowError else Return (squared x).

(** The two kinds of float the program computes with: Python's own, and
    the scalars of numpy. *)
Inductive float_type : Type :=
| PyFloat
| NpFloat64.

(* ------------------------------------------------------------------ *)
(** ** statistic.py : [_merge_intervals] *)

Module Merge.

(** The body of [for o, e in zip(ni_obs, ni_exp)], with the four loop
    variables threaded through. *)
Fixpoint merge_loop (pairs : list (Z * float64))
         (obs_m : list Z) (exp_m : list float64)
         (c_obs : Z) (c_exp : float64)
  : list Z * list float64 * Z * float64 :=
  match pairs with
  | [] => (obs_m, exp_m, c_obs, c_exp)
  | (o, e) :: rest =>
      let c_obs := (c_obs + o)%Z in
      let c_exp := fadd c_exp e in
      if fge c_exp (Fin 5)
      then merge_loop rest (obs_m ++ [c_obs]) (exp_m ++ [c_exp]) 0%Z (Fin 0)
      else merge_loop rest obs_m exp_m c_obs c_exp
  end.

(** [l[-1] += x] on a list known to be non-empty; the empty list is
    left alone (the caller tests it first). *)
Definition add_last {A} (add : A -> A -> A) (l : list A) (x : A) : list A :=
  match rev l with
  | [] => []
  | y :: r => rev r ++ [add y x]
  end.

Definition nonempty {A} (l : list A) : bool :=
  match l with [] => false | _ => true end.

Definition _merge_intervals (ni_obs : list Z) (ni_exp : list float64)
  : list Z * list float64 :=
  let '(obs_m, exp_m, c_obs, c_exp) :=
    merge_loop (combine ni_obs ni_exp) [] [] 0%Z (Fin 0) in
  if fgt c_exp (Fin 0) && nonempty exp_m
  then (add_last Z.add obs_m c_obs, add_last fadd exp_m c_exp)
  else (obs_m, exp_m).

End Merge.

(* ------------------------------------------------------------------ *)
(** ** monte_carlo_simulation.py : [initialize_input] *)

(** The configuration dictionary: Python ints, the Python floats [dz]
    and [dr], and five lists of numbers.  [floats] is the type of the
    numbers in the lists: Python floats in [config.py], numpy scalars in
    the dictionaries that [LayersManager] returns. *)
Module Data.
Record t : Type := mk {
  np : Z;
  dz : float64;
  dr : float64;
  nz : nat;
  nr : nat;
  na : nat;
  nl : nat;
  n : list float64;
  mua : list float64;
  mus : list float64;
  g : list float64;
  d : list float64;
  floats : float_type
}.
End Data.

Module Layer.
Record t : Type := mk {
  n : float64;
  mua : float64;
  mus : float64;
  g : float64;
  z0 : float64;
  z1 : float64;
  cos_crit0 : float64
}.
End Layer.

(** The [SimpleNamespace] returned by [initialize_input]. *)
Module Input.
Record t : Type := mk {
  np : Z;
  dz : float64;
  dr : float64;
  da : float64;
  nz : nat;
  nr : nat;
  na : nat;
  nl : nat;
  n_above : float64;
  n_below : float64;
  layers : list Layer.t
}.
End Input.

Module Stack.

(** [np.sqrt(1 - (n0**2) / (n1**2)) if n1 > n0 else 0.0]: on Python
    floats [**] raises when a square overflows and [/] raises when the
    square of [n1] is zero; on numpy scalars neither does. *)
Definition cos_crit (floats : float_type) (n0 n1 : float64)
  : result float64 :=
  if fgt n1 n0
  then match floats with
       | PyFloat =>
           n0_2 <- pypow2 n0 ;;
           n1_2 <- pypow2 n1 ;;
           q <- pydiv n0_2 n1_2 ;;
           Return (fsqrt (fsub (Fin 1) q))
       | NpFloat64 =>
           Return (fsqrt (fsub (Fin 1) (fdiv (squared n0) (squared n1))))
       end
  else Return (Fin 0).

(** One iteration of [for ilayer in range(nl)]. *)
Definition make_layer (data : Data.t) (ilayer : nat) : result Layer.t :=
  let z1 := fsum (firstn (ilayer + 1) (Data.d data)) in
  d_i <- index (Data.d data) ilayer ;;
  let z0 := fsub z1 d_i in
  n0 <- index (Data.n data) ilayer ;;
  n1 <- index (Data.n data) (ilayer + 1) ;;
  cos_crit0 <- cos_crit (Data.floats data) n0 n1 ;;
  mua_i <- index (Data.mua data) ilayer ;;
  mus_i <- index (Data.mus data) ilayer ;;
  g_i <- index (Data.g data) ilayer ;;
  Return (Layer.mk n1 mua_i mus_i g_i z0 z1 cos_crit0).

Fixpoint build_layers (data : Data.t) (ilayers : list nat)
         (layers : list Layer.t) : result (list Layer.t) :=
  match ilayers with
  | [] => Return layers
  | ilayer :: rest =>
      layer <- make_layer data ilayer ;;
      build_layers data rest (layers ++ [layer])
  end.

(** [l[-1]] *)
Definition index_last {A} (l : list A) : result A :=
  match rev l with
  | [] => Raise IndexError
  | a :: _ => Return a
  end.

Definition initialize_input (data : Data.t) : result Input.t :=
  layers <- build_layers data (seq 0 (Data.nl data)) [] ;;
  da <- pydiv (Fin (0.5 * PI)) (of_nat (Data.na data)) ;;
  n_above <- index (Data.n data) 0 ;;
  n_below <- index_last (Data.n data) ;;
  Return (Input.mk (Data.np data) (Data.dz data) (Data.dr data) da
                   (Data.nz data) (Data.nr data) (Data.na data) (Data.nl data)
                   n_above n_below layers).

End Stack.

(* ------------------------------------------------------------------ *)
(** ** monte_carlo_simulation.py : [process_output] *)

Module Norm.

(** A two-dimensional ndarray: its rows, and its number of columns
    (kept apart so that an array without rows still has a shape). *)
Record array2 : Type := mkarray2 {
  ncols : nat;
  rows : list (list float64)
}.

Definition nrows (a : array2) : nat := length (rows a).

(** Arrays live in a store and are named by reference: the namespace
    [output] holds references, and [/=] and [*=] update the referenced
    array where it is. *)
Definition ref := nat.
Definition heap := ref -> array2.

Definition update (h : heap) (l : ref) (a : array2) : heap :=
  fun l' => if Nat.eqb l' l then a else h l'.

(** The three attributes [output] carries on entry. *)
Module Raw.
Record t : Type := mk {
  rd_ra : ref;
  ab_rz : ref;
  tt_ra : ref
}.
End Raw.

(** [output] on return: the same three references, the freshly
    allocated one-dimensional profiles, and the scalar totals. *)
Module Output.
Record t : Type := mk {
  rd_ra : ref;
  ab_rz : ref;
  tt_ra : ref;
  rd_r : list float64;
  rd_a : list float64;
  ab_r : list float64;
  ab_z : list float64;
  tt_r : list float64;
  tt_a : list float64;
  rd : float64;
  ab : float64;
  tt : float64
}.
End Output.

(** State and error monad over the store. *)
Definition M (A : Type) : Type := heap -> heap * result A.

Definition mret {A} (a : A) : M A := fun h => (h, Return a).

Definition mbind {A B} (m : M A) (k : A -> M B) : M B :=
  fun h => match m h with
           | (h', Return a) => k a h'
           | (h', Raise e) => (h', Raise e)
           end.

Definition lift {A} (r : result A) : M A := fun h => (h, r).
Definition read (l : ref) : M array2 := fun h => (h, Return (h l)).
Definition write (l : ref) (a : array2) : M unit :=
  fun h => (update h l a, Return tt).

Notation "x <~ m ;; k" := (mbind m (fun x => k))
  (at level 61, m at next level, right associativity).
Notation "m ;;; k" := (mbind m (fun _ => k))
  (at level 61, right associativity).

Definition mapi {A B} (f : nat -> A -> B) (l : list A) : list B :=
  map (fun p => f (fst p) (snd p)) (combine (seq 0 (length l)) l).

(** Broadcasting of an operand dimension [sdim] against the dimension
    [tdim] of the array updated in place. *)
Definition bcast (sdim tdim : nat) : bool :=
  Nat.eqb sdim tdim || Nat.eqb sdim 1.
Definition bidx (sdim i : nat) : nat := if Nat.eqb sdim 1 then 0 else i.

(** The values [t *= s] leaves in [t], one- and two-dimensional. *)
Definition amul1 (t s : list float64) : list float64 :=
  mapi (fun i v => fmul v (nth (bidx (length s) i) s NaN)) t.

Definition amul2 (t s : array2) : array2 :=
  mkarray2 (ncols t)
    (mapi (fun i row =>
       mapi (fun j v =>
         fmul v (nth (bidx (ncols s) j)
                     (nth (bidx (nrows s) i) (rows s) []) NaN)) row)
       (rows t)).

(** The values [a /= x] leaves in [a], for a scalar [x]. *)
Definition adiv (a : array2) (x : float64) : array2 :=
  mkarray2 (ncols a) (map (map (fun v => fdiv v x)) (rows a)).

(** [t *= s]: refused when [s] does not broadcast to the shape of [t]. *)
Definition imul1 (t s : list float64) : result (list float64) :=
  if bcast (length s) (length t)
  then Return (amul1 t s)
  else Raise ValueError.

Definition imul2 (t s : array2) : result array2 :=
  if bcast (nrows s) (nrows t) && bcast (ncols s) (ncols t)
  then Return (amul2 t s)
  else Raise ValueError.

(** [a /= x] on the array referenced by [l]. *)
Definition idiv_scalar (l : ref) (x : float64) : M unit :=
  a <~ read l ;;
  write l (adiv a x).

(** [a *= s] on the array referenced by [l]. *)
Definition imul (l : ref) (s : array2) : M unit :=
  a <~ read l ;;
  a' <~ lift (imul2 a s) ;;
  write l a'.

Definition sum_axis1 (a : array2) : list float64 := map fsum (rows a).
Definition sum_axis0 (a : array2) : list float64 :=
  map (fun j => fsum (map (fun row => nth j row (Fin 0)) (rows a)))
      (seq 0 (ncols a)).
Definition sum_all (a : array2) : float64 := fsum (concat (rows a)).

(** [np.arange(1, n + 1)] *)
Definition arange1 (n : nat) : list float64 := map of_nat (seq 1 n).

Definition scale1 (dr da : float64) : float64 :=
  fmul (fmul (fmul (Fin (4.0 * (PI * PI))) dr) (fsin (fdiv da (Fin 2)))) dr.

Definition scale2_ra (nr na : nat) (dr da : float64) : array2 :=
  mkarray2 na
    (map (fun ir =>
       map (fun ia =>
         fdiv (Fin 1.0)
              (fmul (fmul (fsub ir (Fin 0.5))
                          (fsin (fmul (fmul (Fin 2.0) (fsub ia (Fin 0.5))) da)))
                    (scale1 dr da)))
         (arange1 na))
       (arange1 nr)).

(** [2.0 * np.pi * dr**2], on the Python float [dr]. *)
Definition scale1_r (dr : float64) : result float64 :=
  dr_2 <- pypow2 dr ;;
  Return (fmul (Fin (2.0 * PI)) dr_2).

(** [1.0 / ((r_indices - 0.5) * scale1_r)] *)
Definition scale_r (nr : nat) (scale1_r : float64) : list float64 :=
  map (fun r => fdiv (Fin 1.0) (fmul (fsub r (Fin 0.5)) scale1_r))
      (arange1 nr).

Definition scale1_a (da : float64) : float64 :=
  fmul (Fin (4.0 * PI)) (fsin (fdiv da (Fin 2))).

Definition scale_a (na : nat) (da : float64) : list float64 :=
  map (fun a => fdiv (Fin 1.0) (fmul (fsin (fmul a da)) (scale1_a da)))
      (arange1 na).

Definition scale_rz (nr : nat) (da dz : float64) : array2 :=
  mkarray2 1
    (map (fun r => [fdiv (Fin 1.0) (fmul (fmul r (scale1_a da)) dz)])
         (arange1 nr)).

Definition process_output (input_data : Input.t) (output : Raw.t)
  : M Output.t :=
  let np := of_Z (Input.np input_data) in
  (* Basic normalisation by photon count *)
  idiv_scalar (Raw.rd_ra output) np ;;;
  idiv_scalar (Raw.ab_rz output) np ;;;
  idiv_scalar (Raw.tt_ra output) np ;;;
  (* Summing across dimensions *)
  rd_ra <~ read (Raw.rd_ra output) ;;
  ab_rz <~ read (Raw.ab_rz output) ;;
  tt_ra <~ read (Raw.tt_ra output) ;;
  let rd_r := sum_axis1 rd_ra in
  let rd_a := sum_axis0 rd_ra in
  let ab_r := sum_axis1 ab_rz in
  let ab_z := sum_axis0 ab_rz in
  let tt_r := sum_axis1 tt_ra in
  let tt_a := sum_axis0 tt_ra in
  let rd := sum_all rd_ra in
  let ab := sum_all ab_rz in
  let tt := sum_all tt_ra in
  (* Geometric rescaling *)
  let dr := Input.dr input_data in
  let da := Input.da input_data in
  let dz := Input.dz input_data in
  let nr := Input.nr input_data in
  let na := Input.na input_data in
  imul (Raw.rd_ra output) (scale2_ra nr na dr da) ;;;
  imul (Raw.tt_ra output) (scale2_ra nr na dr da) ;;;
  scale1_r <~ lift (scale1_r dr) ;;
  rd_r <~ lift (imul1 rd_r (scale_r nr scale1_r)) ;;
  tt_r <~ lift (imul1 tt_r (scale_r nr scale1_r)) ;;
  rd_a <~ lift (imul1 rd_a (scale_a na da)) ;;
  tt_a <~ lift (imul1 tt_a (scale_a na da)) ;;
  imul (Raw.ab_rz output) (scale_rz nr da dz) ;;;
  inv_dz <~ lift (pydiv (Fin 1.0) dz) ;;
  let ab_z := map (fun v => fmul v inv_dz) ab_z in
  mret (Output.mk (Raw.rd_ra output) (Raw.ab_rz output) (Raw.tt_ra output)
                  rd_r rd_a ab_r ab_z tt_r tt_a rd ab tt).

End Norm.

(* ------------------------------------------------------------------ *)
(** ** numpy helpers shared by the interpolation and the statistics *)

Module Arr.

(** Ceiling of a real, as an integer. *)
Definition Rceil (x : R) : Z := (1 - up (- x))%Z.

(** [np.arange(start, stop, step)] on finite Python floats: [ceil((stop
    - start) / step)] values [start + i * step]; a zero step makes the
    length computation divide by zero. *)
Definition arange (start stop step : R) : result (list R) :=
  if Req_dec_T step 0 then Raise ZeroDivisionError
  else Return (map (fun i => (start + INR i * step)%R)
                   (seq 0 (Z.to_nat (Rceil ((stop - start) / step))))).

(** Both operands have a sign, and the same one. *)
Definition same_sign (x y : float64) : bool :=
  match fsign x, fsign y with
  | Some s, Some t => eqb s t
  | _, _ => false
  end.

(** [np.arange(start, stop, step)] on numpy scalars.  The length is
    [ceil((stop - start) / step)]; where the quotient is zero and
    [stop - start] is not (underflow, or an infinite step) it is 1 for a
    positive quotient and 0 for a negative one.  A length that is
    [nan], infinite or no index is refused with [ValueError].  The
    values are [start], [start + step], and [start + i * delta] from the
    third on, with [delta = (start + step) - start].  (A length that the
    memory cannot hold is not modelled.) *)
Definition arange_np (start stop step : float64)
  : result (list float64) :=
  let span := npsub stop start in
  match npdiv span step with
  | Fin q =>
      let len :=
        if Reqb q 0 && negb (feq span (Fin 0))
        then (if same_sign span step then 1%Z else 0%Z)
        else Rceil q in
      if Z.leb (2 ^ 63) len || Z.ltb len (- 2 ^ 63) then Raise ValueError
      else
        let next := npadd start step in
        let delta := npsub next start in
        Return (map (fun i =>
                       match i with
                       | 0%nat => start
                       | 1%nat => next
                       | _ => npadd start (npmul (of_nat i) delta)
                       end)
                    (seq 0 (Z.to_nat len)))
  | _ => Raise ValueError
  end.

(** [a[1:] - a[:-1]] *)
Fixpoint diff (a : list R) : list R :=
  match a with
  | x0 :: ((x1 :: _) as tl) => (x1 - x0)%R :: diff tl
  | _ => []
  end.

(** All elements finite, as [np.isfinite]. *)
Fixpoint finite_values (a : list float64) : option (list R) :=
  match a with
  | [] => Some []
  | Fin r :: tl =>
      match finite_values tl with
      | Some l => Some (r :: l)
      | None => None
      end
  | _ :: _ => None
  end.

Fixpoint insert_sorted (x : float64) (l : list float64) : list float64 :=
  match l with
  | [] => [x]
  | y :: tl => if fle x y then x :: l else y :: insert_sorted x tl
  end.

(** [np.sort] on an array without [nan]. *)
Definition sort (l : list float64) : list float64 :=
  fold_right insert_sorted [] l.

End Arr.

(* ------------------------------------------------------------------ *)
(** ** scipy.interpolate.PchipInterpolator, as [get_analysis_data]
       uses it *)

Module Pchip.

Definition Rsgn (r : R) : Z :=
  if Rlt_dec 0 r then 1%Z else if Rlt_dec r 0 then (-1)%Z else 0%Z.

Local Open Scope R_scope.

(** One-sided three-point estimate at an end point, limited so that the
    interpolant keeps the shape of the data. *)
Definition edge_case (h0 h1 m0 m1 : R) : R :=
  let d := ((2 * h0 + h1) * m0 - h0 * m1) / (h0 + h1) in
  if negb (Z.eqb (Rsgn d) (Rsgn m0)) then 0
  else if negb (Z.eqb (Rsgn m0) (Rsgn m1)) && Rltb (3 * Rabs m0) (Rabs d)
       then 3 * m0
       else d.

(** Derivative at an interior knot: the weighted harmonic mean of the
    two adjacent slopes, or zero where they differ in sign or vanish. *)
Definition interior_case (h0 h1 m0 m1 : R) : R :=
  if negb (Z.eqb (Rsgn m1) (Rsgn m0)) || Reqb m1 0 || Reqb m0 0 then 0
  else
    let w1 := 2 * h1 + h0 in
    let w2 := h1 + 2 * h0 in
    1 / ((w1 / m0 + w2 / m1) / (w1 + w2)).

Fixpoint interior (hk mk : list R) : list R :=
  match hk, mk with
  | h0 :: ((h1 :: _) as hk'), m0 :: ((m1 :: _) as mk') =>
      interior_case h0 h1 m0 m1 :: interior hk' mk'
  | _, _ => []
  end.

Definition zip_div (a b : list R) : list R :=
  map (fun p => fst p / snd p) (combine a b).

Definition _find_derivatives (x y : list R) : list R :=
  let hk := Arr.diff x in
  let mk := zip_div (Arr.diff y) hk in
  match mk with
  | [m] => [m; m]
  | _ =>
      match hk, mk, rev hk, rev mk with
      | h0 :: h1 :: _, m0 :: m1 :: _, hl :: hp :: _, ml :: mp :: _ =>
          edge_case h0 h1 m0 m1 :: interior hk mk ++ [edge_case hl hp ml mp]
      | _, _, _, _ => []
      end
  end.

(** Power-basis coefficients of the cubic Hermite piece on each
    interval, highest power first. *)
Fixpoint coefficients (x y dydx : list R) : list (R * R * R * R) :=
  match x, y, dydx with
  | x0 :: ((x1 :: _) as x'), y0 :: ((y1 :: _) as y'), d0 :: ((d1 :: _) as d') =>
      let dx := x1 - x0 in
      let slope := (y1 - y0) / dx in
      let t := (d0 + d1 - 2 * slope) / dx in
      (t / dx, (slope - d0) / dx - t, d0, y0) :: coefficients x' y' d'
  | _, _, _ => []
  end.

(** The interpolator object: break points and coefficients. *)
Record t : Type := mk {
  x : list R;
  c : list (R * R * R * R)
}.

Definition strictly_increasing (x : list R) : bool :=
  forallb (fun dx => Rltb 0 dx) (Arr.diff x).

(** [PchipInterpolator(x, y, extrapolate=False)]: the input checks, then
    the derivative estimates and the coefficients. *)
Definition PchipInterpolator (x y : list float64) : result t :=
  if Nat.ltb (length x) 2 then Raise ValueError
  else if negb (Nat.eqb (length x) (length y)) then Raise ValueError
  else match Arr.finite_values x, Arr.finite_values y with
       | Some xs, Some ys =>
           if strictly_increasing xs
           then Return (mk xs (coefficients xs ys (_find_derivatives xs ys)))
           else Raise ValueError
       | _, _ => Raise ValueError
       end.

(** Index [i] of the interval with [x[i] <= q < x[i+1]], the last
    interval being closed on the right. *)
Fixpoint find_interval (x : list R) (q : R) : nat :=
  match x with
  | _ :: ((x1 :: _ :: _) as tl) =>
      if Rlt_dec q x1 then 0%nat else S (find_interval tl q)
  | _ => 0%nat
  end.

Definition evaluate_poly (co : R * R * R * R) (s : R) : R :=
  let '(c0, c1, c2, c3) := co in
  c3 + c2 * s + c1 * (s * s) + c0 * (s * s * s).

(** [interp_func(q)] with [extrapolate=False]: [nan] outside the
    break points. *)
Definition call (p : t) (q : float64) : float64 :=
  match q, x p with
  | Fin q, a :: _ =>
      let b := last (x p) a in
      if Rleb a q && Rleb q b
      then let i := find_interval (x p) q in
           Fin (evaluate_poly (nth i (c p) (0, 0, 0, 0)) (q - nth i (x p) 0))
      else NaN
  | _, _ => NaN
  end.

End Pchip.

(* ------------------------------------------------------------------ *)
(** ** monte_carlo_simulation.py : [get_analysis_data] *)

Module Interp.

(** Largest finite double. *)
Definition float_max : R := ((2 - / 2 ^ 52) * 2 ^ 1023)%R.

(** [np.nan_to_num(v, nan=0.0)] *)
Definition nan_to_num (v : float64) : float64 :=
  match v with
  | NaN => Fin 0.0
  | PInf => Fin float_max
  | NInf => Fin (- float_max)
  | Fin r => Fin r
  end.

(** [(np.arange(1, nr + 1) * dr) - dr / 2] *)
Definition rindex (nr : nat) (dr : float64) : list float64 :=
  map (fun i => fsub (fmul i dr) (fdiv dr (Fin 2))) (Norm.arange1 nr).

(** [np.nan_to_num(interp_func(i_distances), nan=0.0)] *)
Definition sample (interp_func : Pchip.t) (i_distances : list float64)
  : list float64 :=
  map (fun q => nan_to_num (Pchip.call interp_func q)) i_distances.

Record analysis_data : Type := mk_analysis_data {
  i_value : list float64;        (* index of [df_p_only] *)
  P_reflectance : list float64;  (* its single column *)
  r_axis : list float64;         (* [rindex] *)
  rd_values : list float64;      (* [self.output.rd_r] *)
  saved : list float64           (* column written to P_reflectance.txt *)
}.

Definition get_analysis_data (input : Input.t) (rd_r : list float64)
           (start_dist end_dist step : R) : result analysis_data :=
  let dr := Input.dr input in
  let nr := Input.nr input in
  let rindex := rindex nr dr in
  i_distances <- Arr.arange start_dist (end_dist + step) step ;;
  let i_distances := map Fin i_distances in
  interp_func <- Pchip.PchipInterpolator rindex rd_r ;;
  let p_reflectance := sample interp_func i_distances in
  let p_sorted := Arr.sort p_reflectance in
  Return (mk_analysis_data i_distances p_reflectance rindex rd_r p_sorted).

End Interp.

(* ------------------------------------------------------------------ *)
(** ** statistic.py : [StatisticalAnalyzer] *)

(** The functions of [scipy.stats] that the analyzer calls.  They are
    not part of the program; it is verified for whatever they compute. *)
Record scipy_stats : Type := mk_scipy_stats {
  t_ppf : float64 -> float64 -> float64;            (* q, df *)
  chi2_ppf : float64 -> float64 -> float64;         (* q, df *)
  chi2_cdf : float64 -> float64 -> float64;         (* x, df *)
  norm_cdf : float64 -> float64 -> float64 -> float64;  (* x, loc, scale *)
  expon_cdf : float64 -> float64 -> float64          (* x, scale *)
}.

Module Stat.

Import Merge.

(** The attributes [calculate] assigns. *)
Record Stats : Type := mk_stats {
  ni_values : list Z;
  edges : list float64;
  xi_values : list float64;
  m : float64;
  d : float64;
  o : float64;
  m_ci : float64 * float64;
  d_ci : float64 * float64;
  chi2_n : float64;
  p_n : float64;
  res_n : String.string;
  chi2_e : float64;
  p_e : float64;
  res_e : String.string
}.

(** The analyzer object: the attributes set by the constructor, and
    those of [calculate] once it has assigned them.  The observations
    are finite numbers. *)
Record Analyzer : Type := mk_analyzer {
  graphic_values : list R;
  model_name : String.string;
  N : nat;
  x_min : R;
  x_max : R;
  h : float64;
  computed : option Stats
}.

(** [np.min] and [np.max]; an empty array has no minimum. *)
Definition np_min (a : list R) : result R :=
  match a with
  | [] => Raise ValueError
  | v :: tl => Return (fold_left Rmin tl v)
  end.

Definition np_max (a : list R) : result R :=
  match a with
  | [] => Raise ValueError
  | v :: tl => Return (fold_left Rmax tl v)
  end.

Definition __init__ (data : list R) (model_name : String.string)
  : result Analyzer :=
  let N := length data in
  x_min <- np_min data ;;
  x_max <- np_max data ;;
  (* Sturges' rule for interval step *)
  let h := npdiv (npsub (Fin x_max) (Fin x_min))
                 (Fin (1 + 3.322 * ln (INR N))) in
  Return (mk_analyzer data model_name N x_min x_max h None).

Definition count (f : R -> bool) (a : list R) : Z :=
  Z.of_nat (length (filter f a)).

Fixpoint Zdiff (a : list Z) : list Z :=
  match a with
  | x0 :: ((x1 :: _) as tl) => (x1 - x0)%Z :: Zdiff tl
  | _ => []
  end.

(** [v[-1:]] *)
Definition last_slice {A} (v : list A) : list A :=
  match rev v with
  | [] => []
  | e :: _ => [e]
  end.

(** The order of [np.searchsorted]: an observation [v] lies below the
    edge [e], or at most at it; [nan] is sorted after every number. *)
Definition below (e : float64) (v : R) : bool :=
  match e with NaN => true | _ => flt (Fin v) e end.

Definition upto (e : float64) (v : R) : bool :=
  match e with NaN => true | _ => fle (Fin v) e end.

(** [np.histogram(a, bins=bins)] with an array of edges: refused when
    an edge is greater than the next one; else cumulative counts by
    binary search (left at every edge but the last, right at the last),
    then their differences. *)
Definition histogram (a : list R) (bins : list float64)
  : result (list Z * list float64) :=
  if existsb (fun p => fgt (fst p) (snd p))
             (combine (removelast bins) (tl bins))
  then Raise ValueError
  else
    let cum_n :=
      map (fun e => count (below e) a) (removelast bins)
      ++ map (fun e => count (upto e) a) (last_slice bins) in
    Return (Zdiff cum_n, bins).

Definition map2 {A B C} (f : A -> B -> C) (a : list A) (b : list B)
  : list C :=
  map (fun p => f (fst p) (snd p)) (combine a b).

Definition fsquare (x : float64) : float64 := fmul x x.

(** [np.sum((obs - exp)**2 / exp)] *)
Definition pearson_sum (obs : list Z) (exp : list float64) : float64 :=
  fsum (map2 (fun o e => fdiv (fsquare (fsub (of_Z o) e)) e) obs exp).

Definition decision (p alpha : float64) : String.string :=
  if fge p alpha then "Accepted"%string else "Rejected"%string.

(** [N * (cdf(edges[1:]) - cdf(edges[:-1]))] *)
Definition expected_counts (cdf : float64 -> float64) (N : nat)
           (edges : list float64) : list float64 :=
  map (fun p => fmul (of_nat N) p)
      (map2 fsub (map cdf (tl edges)) (map cdf (removelast edges))).

Record Pearson : Type := mk_pearson {
  r_chi2_n : float64; r_p_n : float64; r_res_n : String.string;
  r_chi2_e : float64; r_p_e : float64; r_res_e : String.string
}.

Section WithScipy.

Variable stats : scipy_stats.

Definition _run_pearson_tests (N : nat) (ni_values : list Z)
           (edges : list float64) (m o : float64) (alpha : float64)
  : Pearson :=
  (* Normal *)
  let '(obs, exp) :=
    _merge_intervals ni_values
      (expected_counts (fun x => norm_cdf stats x m o) N edges) in
  let df_n := Z.max 1 (Z.of_nat (length exp) - 3) in
  let chi2_n := if Nat.leb 3 (length exp) then pearson_sum obs exp else NaN in
  let p_n := fsub (Fin 1) (chi2_cdf stats chi2_n (of_Z df_n)) in
  let res_n := decision p_n alpha in
  (* Exponential *)
  let lambd := fdiv (Fin 1) m in
  let '(obs_e, exp_e) :=
    _merge_intervals ni_values
      (expected_counts (fun x => expon_cdf stats x (fdiv (Fin 1) lambd))
                       N edges) in
  let df_e := Z.max 1 (Z.of_nat (length exp_e) - 2) in
  let chi2_e :=
    if Nat.leb 2 (length exp_e) then pearson_sum obs_e exp_e else NaN in
  let p_e := fsub (Fin 1) (chi2_cdf stats chi2_e (of_Z df_e)) in
  let res_e := decision p_e alpha in
  mk_pearson chi2_n p_n res_n chi2_e p_e res_e.

Definition calculate (self : Analyzer) : result Analyzer :=
  if fle (h self) (Fin 0) then Return self
  else
    let N := N self in
    let h := h self in
    (* 1. Intervals and frequencies *)
    let x_start := npsub (Fin (x_min self)) (npdiv h (Fin 2)) in
    bins <- Arr.arange_np x_start
                          (npadd (Fin (x_max self)) (npmul h (Fin 1.5))) h ;;
    hist <- histogram (graphic_values self) bins ;;
    let '(ni_values, edges) := hist in
    let xi_values :=
      map2 (fun a b => fdiv (fadd a b) (Fin 2)) (removelast edges) (tl edges) in
    (* 2. Mean and variance *)
    let m :=
      fdiv (fsum (map2 (fun x n => fmul x (of_Z n)) xi_values ni_values))
           (of_nat N) in
    let d :=
      fdiv (fsum (map2 (fun x n => fmul (fsquare (fsub x m)) (of_Z n))
                       xi_values ni_values))
           (of_Z (Z.of_nat N - 1)) in
    let o := fsqrt d in
    (* 3. Confidence intervals *)
    let alpha := 0.05%R in
    let t_crit := t_ppf stats (Fin (1 - alpha / 2)) (of_Z (Z.of_nat N - 1)) in
    let margin := fmul t_crit (fdiv o (fsqrt (of_nat N))) in
    let m_ci := (fsub m margin, fadd m margin) in
    let chi2_low := chi2_ppf stats (Fin (alpha / 2)) (of_Z (Z.of_nat N - 1)) in
    let chi2_high :=
      chi2_ppf stats (Fin (1 - alpha / 2)) (of_Z (Z.of_nat N - 1)) in
    let d_ci :=
      (fdiv (fmul (of_Z (Z.of_nat N - 1)) d) chi2_high,
       fdiv (fmul (of_Z (Z.of_nat N - 1)) d) chi2_low) in
    (* 4. Pearson tests *)
    let r := _run_pearson_tests N ni_values edges m o (Fin alpha) in
    Return (mk_analyzer (graphic_values self) (model_name self) N
              (x_min self) (x_max self) h
              (Some (mk_stats ni_values edges xi_values m d o m_ci d_ci
                       (r_chi2_n r) (r_p_n r) (r_res_n r)
                       (r_chi2_e r) (r_p_e r) (r_res_e r)))).

End WithScipy.

End Stat.

(* ------------------------------------------------------------------ *)
(** ** layers_manager.py : [LayersManager] *)

Module Layers.

(** [a[i:j]] on an array: bounds beyond the end are clipped. *)
Definition slice {A} (i j : nat) (a : list A) : list A :=
  firstn (j - i) (skipn i a).

(** [np.mean(a)]: the sum over the number of elements, [nan] for an
    empty array. *)
Definition mean (a : list float64) : float64 :=
  fdiv (fsum a) (of_nat (length a)).

Definition make_one_layer (data : Data.t) : result Data.t :=
  let n_full := Data.n data in
  let n_layer := mean (slice 1 4 n_full) in
  let mua_layer := mean (Data.mua data) in
  let mus_layer := mean (Data.mus data) in
  let g_layer := mean (Data.g data) in
  let d_layer := fsum (Data.d data) in          (* [np.sum(d_f)] *)
  n_0 <- index n_full 0 ;;
  n_5 <- index n_full 5 ;;
  Return (Data.mk (Data.np data) (Data.dz data) (Data.dr data)
                  (Data.nz data) (Data.nr data) (Data.na data) 1
                  [n_0; n_layer; n_5]
                  [mua_layer] [mus_layer] [g_layer] [d_layer] NpFloat64).

(** The values one branch of [make_two_layers] assigns. *)
Module Two.
Record t : Type := mk {
  n1 : float64; n2 : float64;
  mua1 : float64; mua2 : float64;
  mus1 : float64; mus2 : float64;
  g1 : float64; g2 : float64;
  d1 : float64; d2 : float64
}.
End Two.

Definition make_two_layers (data : Data.t) (scheme : String.string)
  : result Data.t :=
  let n_f := Data.n data in
  let mua_f := Data.mua data in
  let mus_f := Data.mus data in
  let g_f := Data.g data in
  let d_f := Data.d data in
  v <- (if String.eqb scheme "2-2" then
          Return (Two.mk (mean (slice 1 3 n_f)) (mean (slice 3 5 n_f))
                         (mean (slice 0 2 mua_f)) (mean (slice 2 4 mua_f))
                         (mean (slice 0 2 mus_f)) (mean (slice 2 4 mus_f))
                         (mean (slice 0 2 g_f)) (mean (slice 2 4 g_f))
                         (fsum (slice 0 2 d_f)) (fsum (slice 2 4 d_f)))
        else if String.eqb scheme "1-3" then
          n1 <- index n_f 1 ;;
          mua1 <- index mua_f 0 ;;
          mus1 <- index mus_f 0 ;;
          g1 <- index g_f 0 ;;
          d1 <- index d_f 0 ;;
          Return (Two.mk n1 (mean (slice 2 5 n_f))
                         mua1 (mean (slice 1 4 mua_f))
                         mus1 (mean (slice 1 4 mus_f))
                         g1 (mean (slice 1 4 g_f))
                         d1 (fsum (slice 1 4 d_f)))
        else if String.eqb scheme "3-1" then
          n2 <- index n_f 4 ;;
          mua2 <- index mua_f 3 ;;
          mus2 <- index mus_f 3 ;;
          g2 <- index g_f 3 ;;
          d2 <- index d_f 3 ;;
          Return (Two.mk (mean (slice 1 4 n_f)) n2
                         (mean (slice 0 3 mua_f)) mua2
                         (mean (slice 0 3 mus_f)) mus2
                         (mean (slice 0 3 g_f)) g2
                         (fsum (slice 0 3 d_f)) d2)
        else Raise ValueError) ;;
  n_0 <- index n_f 0 ;;
  n_5 <- index n_f 5 ;;
  Return (Data.mk (Data.np data) (Data.dz data) (Data.dr data)
                  (Data.nz data) (Data.nr data) (Data.na data) 2
                  [n_0; Two.n1 v; Two.n2 v; n_5]
                  [Two.mua1 v; Two.mua2 v] [Two.mus1 v; Two.mus2 v]
                  [Two.g1 v; Two.g2 v] [Two.d1 v; Two.d2 v] NpFloat64).

(** The values one branch of [make_three_layers] assigns. *)
Module Three.
Record t : Type := mk {
  n1 : float64; n2 : float64; n3 : float64;
  mua1 : float64; mua2 : float64; mua3 : float64;
  mus1 : float64; mus2 : float64; mus3 : float64;
  g1 : float64; g2 : float64; g3 : float64;
  d1 : float64; d2 : float64; d3 : float64
}.
End Three.

Definition make_three_layers (data : Data.t) (scheme : String.string)
  : result Data.t :=
  let n_f := Data.n data in
  let mua_f := Data.mua data in
  let mus_f := Data.mus data in
  let g_f := Data.g data in
  let d_f := Data.d data in
  v <- (if String.eqb scheme "1-1-2" then
          n1 <- index n_f 1 ;;
          n2 <- index n_f 2 ;;
          mua1 <- index mua_f 0 ;;
          mua2 <- index mua_f 1 ;;
          mus1 <- index mus_f 0 ;;
          mus2 <- index mus_f 1 ;;
          g1 <- index g_f 0 ;;
          g2 <- index g_f 1 ;;
          d1 <- index d_f 0 ;;
          d2 <- index d_f 1 ;;
          Return (Three.mk n1 n2 (mean (slice 3 5 n_f))
                           mua1 mua2 (mean (slice 2 4 mua_f))
                           mus1 mus2 (mean (slice 2 4 mus_f))
                           g1 g2 (mean (slice 2 4 g_f))
                           d1 d2 (fsum (slice 2 4 d_f)))
        else if String.eqb scheme "1-2-1" then
          n1 <- index n_f 1 ;;
          n3 <- index n_f 4 ;;
          mua1 <- index mua_f 0 ;;
          mua3 <- index mua_f 3 ;;
          mus1 <- index mus_f 0 ;;
          mus3 <- index mus_f 3 ;;
          g1 <- index g_f 0 ;;
          g3 <- index g_f 3 ;;
          d1 <- index d_f 0 ;;
          d3 <- index d_f 3 ;;
          (* [np.mean] of the scalars [n_f[1]] and [n_f[4]] *)
          Return (Three.mk (mean [n1]) (mean (slice 2 4 n_f)) (mean [n3])
                           mua1 (mean (slice 1 3 mua_f)) mua3
                           mus1 (mean (slice 1 3 mus_f)) mus3
                           g1 (mean (slice 1 3 g_f)) g3
                           d1 (fsum (slice 1 3 d_f)) d3)
        else if String.eqb scheme "2-1-1" then
          n2 <- index n_f 3 ;;
          n3 <- index n_f 4 ;;
          mua2 <- index mua_f 2 ;;
          mua3 <- index mua_f 3 ;;
          mus2 <- index mus_f 2 ;;
          mus3 <- index mus_f 3 ;;
          g2 <- index g_f 2 ;;
          g3 <- index g_f 3 ;;
          d2 <- index d_f 2 ;;
          d3 <- index d_f 3 ;;
          Return (Three.mk (mean (slice 1 3 n_f)) n2 n3
                           (mean (slice 0 2 mua_f)) mua2 mua3
                           (mean (slice 0 2 mus_f)) mus2 mus3
                           (mean (slice 0 2 g_f)) g2 g3
                           (fsum (slice 0 2 d_f)) d2 d3)
        else Raise ValueError) ;;
  n_0 <- index n_f 0 ;;
  n_5 <- index n_f 5 ;;
  Return (Data.mk (Data.np data) (Data.dz data) (Data.dr data)
                  (Data.nz data) (Data.nr data) (Data.na data) 3
                  [n_0; Three.n1 v; Three.n2 v; Three.n3 v; n_5]
                  [Three.mua1 v; Three.mua2 v; Three.mua3 v]
                  [Three.mus1 v; Three.mus2 v; Three.mus3 v]
                  [Three.g1 v; Three.g2 v; Three.g3 v]
                  [Three.d1 v; Three.d2 v; Three.d3 v] NpFloat64).

End Layers.

(* ------------------------------------------------------------------ *)
(** ** monte_carlo_simulation.py : [mc] *)

Module Sim.

Import Norm.

(** [np.random.rand(nr, nc)]: an array of shape [(nr, nc)], where
    [u i j] stands for the number drawn for entry [(i, j)]. *)
Definition rand (u : nat -> nat -> float64) (nr nc : nat) : array2 :=
  mkarray2 nc (map (fun i => map (u i) (seq 0 nc)) (seq 0 nr)).

(** The namespace [output] is new and so are its three arrays: they
    take the references 0, 1 and 2. *)
Definition mc (input_data : Input.t) (u_rd u_ab u_tt : nat -> nat -> float64)
  : M Output.t :=
  let output := Raw.mk 0 1 2 in
  write (Raw.rd_ra output)
        (rand u_rd (Input.nr input_data) (Input.na input_data)) ;;;
  write (Raw.ab_rz output)
        (rand u_ab (Input.nr input_data) (Input.nz input_data)) ;;;
  write (Raw.tt_ra output)
        (rand u_tt (Input.nr input_data) (Input.na input_data)) ;;;
  process_output input_data output.

End Sim.

(* ------------------------------------------------------------------ *)
(** ** layer_model_chart.py : [create_layer_diagram] *)

Module Chart.

Local Open Scope string_scope.

(** Reading a local variable that no statement has assigned yet raises
    [UnboundLocalError]; every other failure is one of [exn]. *)
Inductive error : Type :=
| Builtin (e : exn)
| UnboundLocalError.

Inductive outcome (A : Type) : Type :=
| Done (a : A)
| Fails (e : error).
Arguments Done {A} a.
Arguments Fails {A} e.

Definition obind {A B} (m : outcome A) (k : A -> outcome B) : outcome B :=
  match m with
  | Done a => k a
  | Fails e => Fails e
  end.

Notation "x <-- m ;; k" := (obind m (fun x => k))
  (at level 61, m at next level, right associativity).

Definition of_result {A} (r : result A) : outcome A :=
  match r with
  | Return a => Done a
  | Raise e => Fails (Builtin e)
  end.

(** The value of a local variable. *)
Definition local {A} (v : option A) : outcome A :=
  match v with
  | Some a => Done a
  | None => Fails UnboundLocalError
  end.

(** [sub in s] *)
Fixpoint contains (sub s : String.string) : bool :=
  String.prefix sub s
  || match s with
     | String.EmptyString => false
     | String.String _ s' => contains sub s'
     end.

(** [f"{n}"] for a non-negative integer. *)
Definition str (n : nat) : String.string :=
  DecimalString.NilEmpty.string_of_uint (Nat.to_uint n).

(** The traces added to the figure, with the arguments that vary
    ([alphahull=0], [mode='lines'] and the line style are constants).
    The constructors of plotly are taken to accept these arguments, and
    [update_layout], whose arguments are constants, to leave the traces
    as they are. *)
Inductive trace : Type :=
| Mesh3d (x y : list Z) (z : list float64) (color : String.string)
         (opacity : float64) (name legendgroup : String.string)
         (showlegend : option bool)
| Scatter3d (x y : list (option Z)) (z : list (option float64))
            (showlegend : bool) (legendgroup : String.string).

Definition base_colors : list String.string :=
  ["#F5B08F"; "#A0A0A0"; "#AED6F1"; "#F7DC6F"].

(** [base_colors[k]] for one of the constant indices 0 .. 3. *)
Definition base_color (k : nat) : String.string :=
  nth k base_colors "".

(** The local variables the loop body assigns and the statements after
    the loop read. *)
Record locals : Type := mk_locals {
  label : option String.string;
  color : option String.string;
  opacity : option float64;
  x : option (list Z);
  y : option (list Z);
  z : option (list float64)
}.

(** The [if]/[elif] chain of the loop body: the assignments to [label]
    and [color], none at all when no keyword occurs in the scheme. *)
Definition assign_style (selected_scheme : String.string) (i : nat)
           (vars : locals) : result locals :=
  let set l c :=
    mk_locals (Some l) (Some c) (opacity vars) (x vars) (y vars) (z vars) in
  if contains "Baseline" selected_scheme then
    name <- index ["Scalp"; "Skull"; "CSF"; "Gray Matter"] i ;;
    let label :=
      String.append "Layer "
        (String.append (str (i + 1)) (String.append ": " name)) in
    color <- index base_colors i ;;
    Return (set label color)
  else if contains "1-Layer" selected_scheme then
    Return (set "Layer 1:<br>Scalp + Skull +<br>+ CSF + Gray Matter"
                "#F5B08F")
  else if contains "2-Layer" selected_scheme then
    if contains "2-2" selected_scheme then
      Return (set (if Nat.eqb i 0 then "Layers 1+2:<br>Scalp + Skull"
                   else "Layers 3+4:<br>CSF + Gray Matter")
                  (if Nat.eqb i 0 then base_color 0 else base_color 2))
    else if contains "1-3" selected_scheme then
      Return (set (if Nat.eqb i 0 then "Layer 1: Scalp"
                   else "Layers 2+3+4:<br>Skull + CSF + <br> + Gray Matter")
                  (if Nat.eqb i 0 then base_color 0 else base_color 1))
    else
      Return (set (if Nat.eqb i 0 then "Layers 1+2+3:<br>Scalp + Skull + CSF"
                   else "Layer 4: Gray Matter")
                  (if Nat.eqb i 0 then base_color 0 else base_color 3))
  else if contains "3-Layer" selected_scheme then
    lc <- (if contains "1-1-2" selected_scheme then
             let labels := ["Layer 1: Scalp"; "Layer 2: Skull";
                            "Layers 3+4:<br>CSF + Gray Matter"] in
             let colors := [base_color 0; base_color 1; base_color 2] in
             label <- index labels i ;;
             color <- index colors i ;;
             Return (labels, colors)
           else if contains "1-2-1" selected_scheme then
             let labels := ["Layer 1: Scalp"; "Layers 2+3:<br>Skull + CSF";
                            "Layer 4: Gray Matter"] in
             let colors := [base_color 0; base_color 1; base_color 3] in
             label <- index labels i ;;
             color <- index colors i ;;
             Return (labels, colors)
           else
             Return (["Layers 1+2:<br>Scalp + Skull"; "Layer 3: CSF";
                      "Layer 4: Gray Matter"],
                     [base_color 0; base_color 2; base_color 3])) ;;
    label <- index (fst lc) i ;;
    color <- index (snd lc) i ;;
    Return (set label color)
  else Return vars.

(** One pass of [for i in range(num_layers)]. *)
Definition add_block (depths : list float64) (selected_scheme : String.string)
           (i : nat) (st : float64 * locals * list trace)
  : outcome (float64 * locals * list trace) :=
  let '(current_z, vars, data) := st in
  thickness <-- of_result (index depths i) ;;
  let vars := mk_locals (label vars) (color vars) (Some (Fin 1.0))
                        (x vars) (y vars) (z vars) in
  vars <-- of_result (assign_style selected_scheme i vars) ;;
  let bottom := fadd current_z thickness in
  let vars :=
    mk_locals (label vars) (color vars) (opacity vars)
              (Some [0; 14; 14; 0; 0; 14; 14; 0]%Z)
              (Some [0; 0; 14; 14; 0; 0; 14; 14]%Z)
              (Some [current_z; current_z; current_z; current_z;
                     bottom; bottom; bottom; bottom]) in
  x <-- local (x vars) ;;
  y <-- local (y vars) ;;
  z <-- local (z vars) ;;
  c <-- local (color vars) ;;
  o <-- local (opacity vars) ;;
  l <-- local (label vars) ;;
  let mesh := Mesh3d x y z c o l l (Some true) in
  let ring := [Some 0; Some 14; Some 14; Some 0; Some 0; None]%Z in
  let ring_y := [Some 0; Some 0; Some 14; Some 14; Some 0; None]%Z in
  let level bz := [Some bz; Some bz; Some bz; Some bz; Some bz; None] in
  let post b := [Some b; Some b; None] in
  let edges_x :=
    ring ++ ring ++ post 0%Z ++ post 14%Z ++ post 14%Z ++ post 0%Z in
  let edges_y :=
    ring_y ++ ring_y ++ post 0%Z ++ post 0%Z ++ post 14%Z ++ post 14%Z in
  let pillar := [Some current_z; Some bottom; None] in
  let edges_z :=
    level current_z ++ level bottom ++ pillar ++ pillar ++ pillar ++ pillar in
  let wire := Scatter3d edges_x edges_y edges_z false l in
  Done (fadd current_z thickness, vars, data ++ [mesh; wire]).

Fixpoint add_blocks (depths : list float64) (selected_scheme : String.string)
         (indices : list nat) (st : float64 * locals * list trace)
  : outcome (float64 * locals * list trace) :=
  match indices with
  | [] => Done st
  | i :: rest =>
      st' <-- add_block depths selected_scheme i st ;;
      add_blocks depths selected_scheme rest st'
  end.

(** The traces of the returned figure, in the order they were added. *)
Definition create_layer_diagram (input_data : Data.t)
           (selected_scheme : String.string) : outcome (list trace) :=
  let depths := Data.d input_data in
  let num_layers := length depths in
  let current_z := Fin 0 in
  st <-- add_blocks depths selected_scheme (seq 0 num_layers)
           (current_z, mk_locals None None None None None None, []) ;;
  let '(_, vars, data) := st in
  x <-- local (x vars) ;;
  y <-- local (y vars) ;;
  z <-- local (z vars) ;;
  c <-- local (color vars) ;;
  o <-- local (opacity vars) ;;
  l <-- local (label vars) ;;
  Done (data ++ [Mesh3d x y z c o l l None]).

End Chart.

(* ================================================================== *)
(** * Vocabulary of the statements *)

Import Merge.
Import Stack.
Import Norm.
Import Interp.
Import Stat.

Definition at_least_5 (e : float64) : Prop := fge e (Fin 5) = true.

(** The critical cosine of a layer of index [n1] under a medium of
    index [n0], where computing it raises nothing. *)
Definition critical_cosine (n0 n1 : float64) : float64 :=
  if fgt n1 n0
  then fsqrt (fsub (Fin 1) (fdiv (squared n0) (squared n1)))
  else Fin 0.

(** The record the loop body computes for layer [i] once every index is
    in range. *)
Definition layer_at (data : Data.t) (i : nat) : Layer.t :=
  let n0 := nth i (Data.n data) NaN in
  let n1 := nth (i + 1) (Data.n data) NaN in
  let z1 := fsum (firstn (i + 1) (Data.d data)) in
  Layer.mk n1
           (nth i (Data.mua data) NaN)
           (nth i (Data.mus data) NaN)
           (nth i (Data.g data) NaN)
           (fsub z1 (nth i (Data.d data) NaN))
           z1
           (critical_cosine n0 n1).

(** The square of a refractive index is in range and is not zero: it
    neither overflows nor underflows to zero (as for every index of
    magnitude between [1e-150] and [1e150]). *)
Definition squares_safely (v : float64) : Prop :=
  square_overflows v = false /\ squared v <> Fin 0.

(** Python floats must have squares in range and other than zero;
    numpy scalars need not. *)
Definition safe_indices (data : Data.t) : Prop :=
  Data.floats data = PyFloat -> Forall squares_safely (Data.n data).

(** The lists hold what [nl] layers need, and the squares of the
    refractive indices can be divided. *)
Definition enough_entries (data : Data.t) : Prop :=
  (Data.nl data + 1 <= length (Data.n data))%nat /\
  (Data.nl data <= length (Data.mua data))%nat /\
  (Data.nl data <= length (Data.mus data))%nat /\
  (Data.nl data <= length (Data.g data))%nat /\
  (Data.nl data <= length (Data.d data))%nat /\
  safe_indices data.

(** The configuration of [config.py]. *)
Definition DEFAULT_INPUT_DATA : Data.t :=
  Data.mk 50000 (Fin 0.2) (Fin 0.2) 10 20 30 4
    [Fin 1.0; Fin 1.37; Fin 1.43; Fin 1.33; Fin 1.37; Fin 1.0]
    [Fin 0.018; Fin 0.016; Fin 0.004; Fin 0.036]
    [Fin 19.0; Fin 16.0; Fin 2.4; Fin 22.0]
    [Fin 0.9; Fin 0.9; Fin 0.9; Fin 0.9]
    [Fin 0.3; Fin 0.5; Fin 0.2; Fin 0.4]
    PyFloat.

(** A single layer of thickness [-0.3] between four refractive indices:
    neither [len(n) = len(d) + 2] nor a positive thickness. *)
Definition malformed_stack : Data.t :=
  Data.mk 50000 (Fin 0.2) (Fin 0.2) 10 20 30 1
    [Fin 1.0; Fin 1.37; Fin 1.0; Fin 1.0]
    [Fin 0.018] [Fin 19.0] [Fin 0.9] [Fin (-0.3)]
    PyFloat.

(** The three raw arrays are distinct objects of the shapes the grid
    dictates: [(nr, na)], [(nr, nz)], [(nr, na)]. *)
Record well_formed (input : Input.t) (output : Raw.t) (h : heap) : Prop := {
  wf_rd_ab : Raw.rd_ra output <> Raw.ab_rz output;
  wf_rd_tt : Raw.rd_ra output <> Raw.tt_ra output;
  wf_ab_tt : Raw.ab_rz output <> Raw.tt_ra output;
  wf_rd_rows : nrows (h (Raw.rd_ra output)) = Input.nr input;
  wf_rd_cols : ncols (h (Raw.rd_ra output)) = Input.na input;
  wf_ab_rows : nrows (h (Raw.ab_rz output)) = Input.nr input;
  wf_ab_cols : ncols (h (Raw.ab_rz output)) = Input.nz input;
  wf_tt_rows : nrows (h (Raw.tt_ra output)) = Input.nr input;
  wf_tt_cols : ncols (h (Raw.tt_ra output)) = Input.na input
}.

Section Normalized.

Variables (input : Input.t) (output : Raw.t) (h : heap).

Let np := of_Z (Input.np input).
Let rd1 := adiv (h (Raw.rd_ra output)) np.
Let ab1 := adiv (h (Raw.ab_rz output)) np.
Let tt1 := adiv (h (Raw.tt_ra output)) np.
Let s2 := scale2_ra (Input.nr input) (Input.na input)
                    (Input.dr input) (Input.da input).
Let s1_r := fmul (Fin (2.0 * PI)) (squared (Input.dr input)).

(** The store after a run: each raw array replaced, at its own
    reference, by its normalised and rescaled values. *)
Definition normalized_heap : heap :=
  update (update (update h (Raw.rd_ra output) rd1) (Raw.ab_rz output) ab1)
         (Raw.tt_ra output) tt1.

(** The store once the two reflectance arrays are rescaled. *)
Definition half_scaled_heap : heap :=
  update (update normalized_heap (Raw.rd_ra output) (amul2 rd1 s2))
         (Raw.tt_ra output) (amul2 tt1 s2).

Definition final_heap : heap :=
  update half_scaled_heap (Raw.ab_rz output)
         (amul2 ab1 (scale_rz (Input.nr input) (Input.da input)
                              (Input.dz input))).

Definition final_output : Output.t :=
  Output.mk (Raw.rd_ra output) (Raw.ab_rz output) (Raw.tt_ra output)
    (amul1 (sum_axis1 rd1) (scale_r (Input.nr input) s1_r))
    (amul1 (sum_axis0 rd1) (scale_a (Input.na input) (Input.da input)))
    (sum_axis1 ab1)
    (map (fun v => fmul v (fdiv (Fin 1.0) (Input.dz input))) (sum_axis0 ab1))
    (amul1 (sum_axis1 tt1) (scale_r (Input.nr input) s1_r))
    (amul1 (sum_axis0 tt1) (scale_a (Input.na input) (Input.da input)))
    (sum_all rd1) (sum_all ab1) (sum_all tt1).

End Normalized.

(** An [(nr, na)] array holding [v] at bin [(1, 1)] and [0] at every
    other bin. *)
Definition unit_bin (nr na : nat) (v : float64) : array2 :=
  mkarray2 na
    ((v :: repeat (Fin 0) (na - 1)) :: repeat (repeat (Fin 0) na) (nr - 1)).

Definition zeros (nr nc : nat) : array2 :=
  mkarray2 nc (repeat (repeat (Fin 0) nc) nr).

Definition unit_grid : Input.t :=
  Input.mk 50000 (Fin 0.2) (Fin 0.2) (Fin (0.5 * PI / 30)) 10 20 30 4
           (Fin 1.0) (Fin 1.0) [].

Definition unit_raw : Raw.t := Raw.mk 0 1 2.

Definition unit_heap : heap :=
  fun l => match l with
           | 0%nat => unit_bin 20 30 (of_Z 50000)
           | 1%nat => zeros 20 10
           | _ => zeros 20 30
           end.

Definition degenerate_grid : Input.t :=
  Input.mk 50000 (Fin 0.2) (Fin 0) (Fin (0.5 * PI / 30)) 10 20 30 4
           (Fin 1.0) (Fin 1.0) [].

Definition small_grid : Input.t :=
  Input.mk 1 (Fin 1) (Fin 1) (Fin (0.5 * PI / 1)) 1 1 1 0
           (Fin 1.0) (Fin 1.0) [].

Definition small_heap : heap := fun _ => mkarray2 1 [[Fin 1]].

(** The bin midpoints [i * dr - dr / 2], [i = 1 .. nr], as reals. *)
Definition midpoints (nr : nat) (dr : R) : list R :=
  map (fun i => (INR i * dr + - (dr / 2))%R) (seq 1 nr).

Definition increasing (xs : list R) : Prop :=
  Forall (fun dx => (0 < dx)%R) (Arr.diff xs).

(** A query lies strictly outside the domain when it is below every
    coordinate (below the minimum) or above every coordinate (above the
    maximum). *)
Definition strictly_outside (q : float64) (coords : list float64) : Prop :=
  Forall (fun x => flt q x = true) coords \/
  Forall (fun x => flt x q = true) coords.


(** A stand-in for [scipy.stats] that answers [nan] everywhere. *)
Definition nan_stats : scipy_stats :=
  mk_scipy_stats (fun _ _ => NaN) (fun _ _ => NaN) (fun _ _ => NaN)
                 (fun _ _ _ => NaN) (fun _ _ => NaN).

(** Three identical observations, as the constructor leaves them. *)
Definition constant_analyzer : Analyzer :=
  mk_analyzer [2; 2; 2]%R "Current Scheme"%string 3 2 2 (Fin 0) None.

(** The expected counts that the two tests merge. *)
Definition expected_normal (stats : scipy_stats) (N : nat) (s : Stats)
  : list float64 :=
  expected_counts (fun x => norm_cdf stats x (m s) (o s)) N (edges s).

Definition expected_exponential (stats : scipy_stats) (N : nat) (s : Stats)
  : list float64 :=
  expected_counts
    (fun x => expon_cdf stats x (fdiv (Fin 1) (fdiv (Fin 1) (m s))))
    N (edges s).

(** The sample [1, 1, 1, 1, 1, 1, 1, 1, 1, 2], as the constructor
    leaves it. *)
Definition skewed_sample : list R := [1; 1; 1; 1; 1; 1; 1; 1; 1; 2]%R.

Definition skewed_analyzer : Analyzer :=
  mk_analyzer skewed_sample "Current Scheme"%string 10 1 2
              (Fin ((2 + - (1)) / (1 + 3.322 * ln (INR 10)))) None.

(** Two observations at the ends of the range of a double, as the
    constructor leaves them: their distance is out of range. *)
Definition wide_sample : list R := [- (2 ^ 1023); 2 ^ 1023]%R.

Definition wide_analyzer : Analyzer :=
  mk_analyzer wide_sample "Current Scheme"%string 2
              (- (2 ^ 1023)) (2 ^ 1023) PInf None.

(** Observations of magnitude at most [1e300], in an array. *)
Definition moderate_sample (data : list R) : Prop :=
  Forall (fun v => (Rabs v <= 10 ^ 300)%R) data /\
  (Z.of_nat (length data) < 2 ^ 63)%Z.

(** A stand-in for [scipy.stats] whose distribution functions answer 0
    everywhere: every right-tail p-value is 1. *)
Definition zero_stats : scipy_stats :=
  mk_scipy_stats (fun _ _ => Fin 0) (fun _ _ => Fin 0) (fun _ _ => Fin 0)
                 (fun _ _ _ => Fin 0) (fun _ _ => Fin 0).

(** The statistic and the p-value of a test that needs [k] merged bins
    and loses [k] degrees of freedom, on the merged bins [obs], [exp]. *)
Definition statistic (k : nat) (merged : list Z * list float64) : float64 :=
  if Nat.leb k (length (snd merged))
  then pearson_sum (fst merged) (snd merged)
  else NaN.

Definition right_tail (stats : scipy_stats) (k : nat)
           (merged : list Z * list float64) : float64 :=
  fsub (Fin 1)
       (chi2_cdf stats (statistic k merged)
          (of_Z (Z.max 1 (Z.of_nat (length (snd merged)) - Z.of_nat k)))).

(** A grid with a single radial bin. *)
Definition one_bin_grid : Input.t :=
  Input.mk 50000 (Fin 0.2) (Fin 0.2) (Fin (0.5 * PI / 30)) 10 1 30 4
           (Fin 1.0) (Fin 1.0) [].

(** Denominator of the two-dimensional scale factor at bin [(i, a)]
    (1-based, as [ir] and [ia]). *)
Definition denominator_ra (input : Input.t) (i a : nat) : float64 :=
  fmul (fmul (fsub (of_nat i) (Fin 0.5))
             (fsin (fmul (fmul (Fin 2.0) (fsub (of_nat a) (Fin 0.5)))
                         (Input.da input))))
       (scale1 (Input.dr input) (Input.da input)).

(** ** Further vocabulary *)

(** Sum of integer counts. *)
Definition Zsum (l : list Z) : Z := fold_right Z.add 0%Z l.

Definition positive (e : float64) : Prop := fgt e (Fin 0) = true.

(** Cumulative counts of [np.histogram]: observations strictly below
    each edge, and up to and including the last edge. *)
Fixpoint cumulative (a : list R) (bins : list R) : list Z :=
  match bins with
  | [] => []
  | e :: tl =>
      match tl with
      | [] => [count (fun v => Rleb v e) a]
      | _ :: _ => count (fun v => Rltb v e) a :: cumulative a tl
      end
  end.

Definition nondecreasing (xs : list R) : Prop :=
  Forall (fun dx => (0 <= dx)%R) (Arr.diff xs).

(** Every entry of a two-dimensional array satisfies [P]. *)
Definition all_entries (P : float64 -> Prop) (a : array2) : Prop :=
  Forall (Forall P) (rows a).






(** The arrays of a run in which no photon was recorded, on the grid of
    [unit_grid]. *)
Definition zero_heap : heap :=
  fun l => match l with
           | 1%nat => zeros 20 10
           | _ => zeros 20 30
           end.

(** The grid of [unit_grid] with a depth step of 0. *)
Definition flat_grid : Input.t :=
  Input.mk 50000 (Fin 0) (Fin 0.2) (Fin (0.5 * PI / 30)) 10 20 30 4
           (Fin 1.0) (Fin 1.0) [].

(** The grid of [unit_grid] with a radial step of [1e256]. *)
Definition huge_grid : Input.t :=
  Input.mk 50000 (Fin 0.2) (Fin (10 ^ 256)) (Fin (0.5 * PI / 30)) 10 20 30 4
           (Fin 1.0) (Fin 1.0) [].

(** A reflectance array of three rows where the grid has twenty. *)
Definition misshapen_heap : heap :=
  fun l => match l with
           | 0%nat => zeros 3 30
           | 1%nat => zeros 20 10
           | _ => zeros 20 30
           end.

(** Two layers asked for, with the lists of a single one. *)
Definition short_stack : Data.t :=
  Data.mk 50000 (Fin 0.2) (Fin 0.2) 10 20 30 2
    [Fin 1.0; Fin 1.37; Fin 1.0]
    [Fin 0.018] [Fin 19.0] [Fin 0.9] [Fin 0.3]
    PyFloat.

(** The configuration of [config.py] with no angular bin. *)
Definition no_angles : Data.t :=
  Data.mk 50000 (Fin 0.2) (Fin 0.2) 10 20 0 4
    [Fin 1.0; Fin 1.37; Fin 1.43; Fin 1.33; Fin 1.37; Fin 1.0]
    [Fin 0.018; Fin 0.016; Fin 0.004; Fin 0.036]
    [Fin 19.0; Fin 16.0; Fin 2.4; Fin 22.0]
    [Fin 0.9; Fin 0.9; Fin 0.9; Fin 0.9]
    [Fin 0.3; Fin 0.5; Fin 0.2; Fin 0.4]
    PyFloat.

Import Layers.

Definition two_layer_schemes : list String.string :=
  ["2-2"; "1-3"; "3-1"]%string.

Definition three_layer_schemes : list String.string :=
  ["1-1-2"; "1-2-1"; "2-1-1"]%string.

(** [agg] describes [k] layers on the grid of [data], and
    [initialize_input] builds them between the ambient media [n[0]] and
    [n[5]] of [data]. *)
Record accepted (data : Data.t) (k : nat) (agg : Data.t) : Prop := {
  acc_nl : Data.nl agg = k;
  acc_n : length (Data.n agg) = (k + 2)%nat;
  acc_mua : length (Data.mua agg) = k;
  acc_mus : length (Data.mus agg) = k;
  acc_g : length (Data.g agg) = k;
  acc_d : length (Data.d agg) = k;
  acc_grid :
    (Data.np agg, Data.dz agg, Data.dr agg,
     Data.nz agg, Data.nr agg, Data.na agg)
    = (Data.np data, Data.dz data, Data.dr data,
       Data.nz data, Data.nr data, Data.na data);
  acc_input :
    exists input,
      initialize_input agg = Return input /\
      length (Input.layers input) = k /\
      Input.n_above input = nth 0 (Data.n data) NaN /\
      Input.n_below input = nth 5 (Data.n data) NaN
}.

(** The tissue parameters of [data] are complete: six positive finite
    refractive indices [ns] and four values of every other property. *)
Record complete (data : Data.t) (ns : list R) : Prop := {
  cpl_n : Data.n data = map Fin ns;
  cpl_pos : Forall (fun r => (0 < r)%R) ns;
  cpl_len_n : (6 <= length ns)%nat;
  cpl_mua : (4 <= length (Data.mua data))%nat;
  cpl_mus : (4 <= length (Data.mus data))%nat;
  cpl_g : (4 <= length (Data.g data))%nat;
  cpl_d : (4 <= length (Data.d data))%nat;
  cpl_na : Data.na data <> 0%nat
}.

Import Sim.


Definition nonnegative (v : float64) : Prop :=
  exists r, v = Fin r /\ (0 <= r)%R.

(** The store in which [mc] runs [process_output]. *)
Definition drawn_heap (input : Input.t)
           (u_rd u_ab u_tt : nat -> nat -> float64) (h : heap) : heap :=
  update (update (update h 0%nat
                         (rand u_rd (Input.nr input) (Input.na input)))
                 1%nat (rand u_ab (Input.nr input) (Input.nz input)))
         2%nat (rand u_tt (Input.nr input) (Input.na input)).

Import Chart.

(** One of the four keywords of the scheme names occurs in the name. *)
Definition keyword (selected_scheme : String.string) : bool :=
  contains "Baseline"%string selected_scheme
  || contains "1-Layer"%string selected_scheme
  || contains "2-Layer"%string selected_scheme
  || contains "3-Layer"%string selected_scheme.

(** The number of layers for which the branch taken for a scheme has a
    label and a colour; [None] where it has them for every layer. *)
Definition label_count (selected_scheme : String.string) : option nat :=
  if contains "Baseline"%string selected_scheme then Some 4%nat
  else if contains "1-Layer"%string selected_scheme then None
  else if contains "2-Layer"%string selected_scheme then None
  else if contains "3-Layer"%string selected_scheme then Some 3%nat
  else None.

Definition fits (selected_scheme : String.string) (n : nat) : Prop :=
  forall k, label_count selected_scheme = Some k -> (n <= k)%nat.

(** The eight [z] coordinates of block [i]: four corners at the depth
    where the layers above it end, four where it ends itself. *)
Definition block_z (depths : list float64) (i : nat) : list float64 :=
  let top := fsum (firstn i depths) in
  let bottom := fsum (firstn (S i) depths) in
  [top; top; top; top; bottom; bottom; bottom; bottom].

Definition block_x : list Z := [0; 14; 14; 0; 0; 14; 14; 0]%Z.
Definition block_y : list Z := [0; 0; 14; 14; 0; 0; 14; 14]%Z.

(* ================================================================== *)
(** * Properties *)

(** ** Floating-point facts *)

Ltac Rdecide :=
  unfold Rltb, Rleb, Reqb in *;
  repeat match goal with
         | |- context [Rlt_dec ?a ?b] => destruct (Rlt_dec a b)
         | |- context [Rle_dec ?a ?b] => destruct (Rle_dec a b)
         | |- context [Req_dec_T ?a ?b] => destruct (Req_dec_T a b)
         | H : context [Rlt_dec ?a ?b] |- _ => destruct (Rlt_dec a b)
         | H : context [Rle_dec ?a ?b] |- _ => destruct (Rle_dec a b)
         | H : context [Req_dec_T ?a ?b] |- _ => destruct (Req_dec_T a b)
         end;
  try discriminate; try reflexivity; try lra.

Lemma Rleb_true (x y : R) : Rleb x y = true <-> (x <= y)%R.
Proof. split; intros; Rdecide. Qed.

Lemma Rltb_true (x y : R) : Rltb x y = true <-> (x < y)%R.
Proof. split; intros; Rdecide. Qed.

Lemma Rleb_false (x y : R) : Rleb x y = false <-> (y < x)%R.
Proof. split; intros; Rdecide. Qed.

Lemma Rltb_false (x y : R) : Rltb x y = false <-> (y <= x)%R.
Proof. split; intros; Rdecide. Qed.

Lemma fadd_0_l (x : float64) : fadd (Fin 0) x = x.
Proof. destruct x; simpl; try reflexivity. f_equal; lra. Qed.

Lemma fge_5_add_positive (y c : float64) :
  fge y (Fin 5) = true -> fgt c (Fin 0) = true ->
  fge (fadd y c) (Fin 5) = true.
Proof.
  unfold fge, fgt.
  destruct y, c; simpl; intros Hy Hc; try discriminate; try reflexivity.
  apply Rleb_true in Hy. apply Rltb_true in Hc. apply Rleb_true. lra.
Qed.

(** ** The range of a double *)

Lemma pow2_ge_1 (k : nat) : (1 <= 2 ^ k)%R.
Proof. apply pow_R1_Rle. lra. Qed.

Lemma pow10_ge_1 (k : nat) : (1 <= 10 ^ k)%R.
Proof. apply pow_R1_Rle. lra. Qed.

Lemma pow10_le_pow2 (k : nat) : (10 ^ (3 * k) <= 2 ^ (10 * k))%R.
Proof.
  rewrite !pow_mult. apply pow_incr. split.
  - apply pow_le. lra.
  - lra.
Qed.

Lemma overflow_threshold_bounds :
  (2 ^ 1023 <= overflow_threshold <= 2 ^ 1024)%R.
Proof.
  unfold overflow_threshold.
  pose proof (pow2_ge_1 1023) as H1023.
  assert (H53 : (0 < / 2 ^ 53 <= 1)%R).
  { pose proof (pow2_ge_1 53) as H. split.
    - apply Rinv_0_lt_compat. lra.
    - rewrite <- Rinv_1. apply Rinv_le_contravar; lra. }
  change 1024%nat with (S 1023). rewrite <- tech_pow_Rmult.
  generalize dependent (2 ^ 1023)%R. generalize dependent (/ 2 ^ 53)%R.
  intros a Ha b Hb. nra.
Qed.

(** Every real up to [1e303] is in range. *)
Lemma overflow_threshold_large : (10 ^ 303 <= overflow_threshold)%R.
Proof.
  apply Rle_trans with (2 ^ 1023)%R; [|apply overflow_threshold_bounds].
  apply Rle_trans with (2 ^ 1010)%R.
  - change 303%nat with (3 * 101)%nat. change 1010%nat with (10 * 101)%nat.
    apply pow10_le_pow2.
  - apply Rle_pow; [lra | lia].
Qed.

Lemma underflow_threshold_pos : (0 < underflow_threshold)%R.
Proof.
  unfold underflow_threshold. apply Rinv_0_lt_compat.
  pose proof (pow2_ge_1 1075). lra.
Qed.

(** Every real from [1e-303] on is kept. *)
Lemma underflow_threshold_small : (underflow_threshold < / 10 ^ 303)%R.
Proof.
  unfold underflow_threshold.
  pose proof (pow10_ge_1 303) as H10.
  apply Rinv_lt_contravar.
  - apply Rmult_lt_0_compat; [lra|]. pose proof (pow2_ge_1 1075). lra.
  - apply Rle_lt_trans with (2 ^ 1010)%R.
    + change 303%nat with (3 * 101)%nat. change 1010%nat with (10 * 101)%nat.
      apply pow10_le_pow2.
    + apply Rlt_pow; [lra | lia].
Qed.

Lemma overflows_false (r : R) :
  (Rabs r < overflow_threshold)%R -> overflows r = false.
Proof. intros H. unfold overflows. apply Rleb_false. exact H. Qed.

Lemma overflows_true (r : R) :
  (overflow_threshold <= Rabs r)%R -> overflows r = true.
Proof. intros H. unfold overflows. apply Rleb_true. exact H. Qed.

Lemma vanishes_false (r : R) :
  (underflow_threshold < Rabs r)%R -> vanishes r = false.
Proof. intros H. unfold vanishes. apply Rleb_false. exact H. Qed.

Lemma vanishes_true (r : R) :
  (Rabs r <= underflow_threshold)%R -> vanishes r = true.
Proof. intros H. unfold vanishes. apply Rleb_true. exact H. Qed.

Lemma clip_in_range (r : R) :
  (Rabs r < overflow_threshold)%R -> clip (Fin r) = Fin r.
Proof. intros H. unfold clip. rewrite (overflows_false _ H). reflexivity. Qed.

Lemma rnd_in_range (r : R) :
  (underflow_threshold < Rabs r < overflow_threshold)%R ->
  rnd (Fin r) = Fin r.
Proof.
  intros [Hlo Hhi]. unfold rnd. rewrite (clip_in_range _ Hhi).
  rewrite (vanishes_false _ Hlo). reflexivity.
Qed.

Lemma rnd_zero : rnd (Fin 0) = Fin 0.
Proof.
  unfold rnd. rewrite clip_in_range.
  - destruct (vanishes 0); reflexivity.
  - rewrite Rabs_R0. pose proof overflow_threshold_large.
    pose proof (pow10_ge_1 303). lra.
Qed.

(** Below the overflow threshold [rnd] keeps a number or, when it is
    too small for a double, sends it to zero. *)
Lemma rnd_below_threshold (r : R) :
  (Rabs r < overflow_threshold)%R ->
  rnd (Fin r) = Fin r \/ (rnd (Fin r) = Fin 0 /\ vanishes r = true).
Proof.
  intros H. unfold rnd. rewrite (clip_in_range _ H).
  destruct (vanishes r); auto.
Qed.

(** ** [_merge_intervals] *)

Lemma merge_loop_cons o e rest obs_m exp_m c_obs c_exp :
  merge_loop ((o, e) :: rest) obs_m exp_m c_obs c_exp =
  if fge (fadd c_exp e) (Fin 5)
  then merge_loop rest (obs_m ++ [(c_obs + o)%Z]) (exp_m ++ [fadd c_exp e])
                  0%Z (Fin 0)
  else merge_loop rest obs_m exp_m (c_obs + o)%Z (fadd c_exp e).
Proof. reflexivity. Qed.

Lemma merge_loop_at_least_5 pairs :
  forall obs_m exp_m c_obs c_exp,
    Forall at_least_5 exp_m ->
    Forall at_least_5
      (snd (fst (fst (merge_loop pairs obs_m exp_m c_obs c_exp)))).
Proof.
  induction pairs as [|[o e] rest IH]; intros obs_m exp_m c_obs c_exp Hm.
  - exact Hm.
  - rewrite merge_loop_cons. destruct (fge (fadd c_exp e) (Fin 5)) eqn:Hc.
    + apply IH. apply Forall_app. split; [exact Hm|].
      constructor; [exact Hc | constructor].
    + apply IH. exact Hm.
Qed.

Lemma add_last_at_least_5 exp_m c_exp :
  Forall at_least_5 exp_m -> fgt c_exp (Fin 0) = true ->
  Forall at_least_5 (add_last fadd exp_m c_exp).
Proof.
  intros Hm Hc. unfold add_last.
  destruct (rev exp_m) as [|y r] eqn:Hr; [constructor|].
  assert (Hall : Forall at_least_5 (y :: r)).
  { rewrite <- Hr. apply Forall_rev. exact Hm. }
  inversion Hall as [|? ? Hy Hrest]; subst.
  apply Forall_app. split.
  - apply Forall_rev. exact Hrest.
  - constructor; [|constructor]. apply fge_5_add_positive; assumption.
Qed.

(** C7: whatever the observed and expected counts are, every merged bin
    returned by [_merge_intervals] has an expected count of at least 5;
    folding a positive trailing remainder into the last completed bin
    keeps it so. *)
Theorem merge_intervals_expected_at_least_5 :
  forall (ni_obs : list Z) (ni_exp : list float64),
    Forall (fun e => fge e (Fin 5) = true)
           (snd (_merge_intervals ni_obs ni_exp)).
Proof.
  intros ni_obs ni_exp. unfold _merge_intervals.
  pose proof (merge_loop_at_least_5 (combine ni_obs ni_exp)
                [] 0%Z (Fin 0) (Forall_nil at_least_5)) as Hloop.
  destruct (merge_loop (combine ni_obs ni_exp) [] [] 0%Z (Fin 0))
    as [[[obs_m exp_m] c_obs] c_exp].
  simpl in Hloop.
  destruct (fgt c_exp (Fin 0)) eqn:Hc; simpl.
  - destruct (nonempty exp_m); simpl.
    + apply add_last_at_least_5; assumption.
    + exact Hloop.
  - exact Hloop.
Qed.

Lemma merge_loop_never_completes pairs :
  forall c_obs c_exp,
    (forall k, fge (fold_left fadd (firstn k (map snd pairs)) c_exp) (Fin 5)
               = false) ->
    exists c_obs' c_exp',
      merge_loop pairs [] [] c_obs c_exp = ([], [], c_obs', c_exp').
Proof.
  induction pairs as [|[o e] rest IH]; intros c_obs c_exp Hk.
  - simpl. eauto.
  - rewrite merge_loop_cons. pose proof (Hk 1%nat) as H1.
    cbn [map snd firstn fold_left] in H1. rewrite H1.
    apply IH. intros k. exact (Hk (S k)).
Qed.

Lemma map_snd_combine {A B} (a : list A) (b : list B) :
  map snd (combine a b) = firstn (length a) b.
Proof.
  revert b. induction a as [|x a IH]; intros [|y b]; simpl; try reflexivity.
  f_equal. apply IH.
Qed.

(** C10: when no prefix of the expected counts sums to 5 or more, no
    group is ever completed and [_merge_intervals] returns two empty
    sequences: the counts are dropped, the trailing fold needing a
    completed bin to fold into. *)
Theorem merge_intervals_all_dropped :
  forall (ni_obs : list Z) (ni_exp : list float64),
    (forall k, fge (fsum (firstn k ni_exp)) (Fin 5) = false) ->
    _merge_intervals ni_obs ni_exp = ([], []).
Proof.
  intros ni_obs ni_exp Hk. unfold _merge_intervals.
  destruct (merge_loop_never_completes (combine ni_obs ni_exp) 0%Z (Fin 0))
    as (c_obs' & c_exp' & Hloop).
  - intros k. rewrite map_snd_combine, firstn_firstn. apply Hk.
  - rewrite Hloop. simpl. rewrite andb_false_r. reflexivity.
Qed.

Lemma merge_intervals_all_dropped_witness :
  _merge_intervals [3%Z; 4%Z] [Fin 1; Fin 2] = ([], []).
Proof.
  apply merge_intervals_all_dropped.
  intros k. unfold fsum, fge.
  destruct k as [|[|k]]; simpl; [| |destruct k; simpl];
    apply Rleb_false; lra.
Defined.

(** ** [initialize_input] *)

Lemma index_lt {A} (l : list A) (i : nat) (dflt : A) :
  (i < length l)%nat -> index l i = Return (nth i l dflt).
Proof.
  intros Hi. unfold index.
  rewrite (nth_error_nth' l dflt Hi). reflexivity.
Qed.

Lemma index_last_nonempty {A} (l : list A) (dflt : A) :
  l <> [] -> index_last l = Return (last l dflt).
Proof.
  intros Hl. unfold index_last.
  destruct (exists_last Hl) as (l' & a & ->).
  rewrite rev_unit, last_last. reflexivity.
Qed.

Lemma pydiv_nonzero (x y : float64) :
  y <> Fin 0 -> pydiv x y = Return (fdiv x y).
Proof.
  intros Hy. unfold pydiv.
  destruct y; simpl; try reflexivity.
  unfold Reqb. destruct (Req_dec_T r 0); [subst; contradiction | reflexivity].
Qed.

Lemma of_nat_nonzero (k : nat) : k <> 0%nat -> of_nat k <> Fin 0.
Proof.
  intros Hk Heq. injection Heq as Heq. apply Hk. apply INR_eq. exact Heq.
Qed.

Lemma pypow2_safe (v : float64) :
  square_overflows v = false -> pypow2 v = Return (squared v).
Proof. intros H. unfold pypow2. rewrite H. reflexivity. Qed.

Lemma pypow2_overflow (v : float64) :
  square_overflows v = true -> pypow2 v = Raise OverflowError.
Proof. intros H. unfold pypow2. rewrite H. reflexivity. Qed.

(** A number of magnitude between [1e-150] and [1e150] has its square
    in range. *)
Lemma square_in_range (r : R) :
  (/ 10 ^ 150 <= Rabs r <= 10 ^ 150)%R ->
  (underflow_threshold < Rabs (r * r) < overflow_threshold)%R.
Proof.
  intros [Hlo Hhi]. rewrite Rabs_mult.
  pose proof (pow10_ge_1 150) as H150.
  pose proof overflow_threshold_large as Hover.
  pose proof underflow_threshold_small as Hunder.
  pose proof underflow_threshold_pos as Hpos.
  assert (H300 : (10 ^ 300 = 10 ^ 150 * 10 ^ 150)%R)
    by (rewrite <- pow_add; reflexivity).
  assert (H303 : (10 ^ 300 < 10 ^ 303)%R) by (apply Rlt_pow; [lra | lia]).
  assert (Hinv : (0 < / 10 ^ 150)%R) by (apply Rinv_0_lt_compat; lra).
  assert (Hinv300 : (/ 10 ^ 300 = / 10 ^ 150 * / 10 ^ 150)%R).
  { rewrite H300. apply Rinv_mult. }
  assert (Hinv303 : (/ 10 ^ 303 < / 10 ^ 300)%R).
  { apply Rinv_lt_contravar; [|exact H303].
    apply Rmult_lt_0_compat; lra. }
  split.
  - apply Rlt_le_trans with (/ 10 ^ 300)%R; [lra|].
    rewrite Hinv300. apply Rmult_le_compat; lra.
  - apply Rle_lt_trans with (10 ^ 300)%R; [|lra].
    rewrite H300. apply Rmult_le_compat; try lra; apply Rabs_pos.
Qed.

Lemma squared_in_range (r : R) :
  (/ 10 ^ 150 <= Rabs r <= 10 ^ 150)%R ->
  square_overflows (Fin r) = false /\ squared (Fin r) = Fin (r * r).
Proof.
  intros Hr. destruct (square_in_range r Hr) as [Hlo Hhi]. split.
  - apply overflows_false. exact Hhi.
  - unfold squared. cbn [fmul]. apply rnd_in_range. split; assumption.
Qed.

Lemma squares_safely_moderate (r : R) :
  (/ 10 ^ 150 <= Rabs r <= 10 ^ 150)%R -> squares_safely (Fin r).
Proof.
  intros Hr. destruct (squared_in_range r Hr) as [Hover Hsq].
  destruct (square_in_range r Hr) as [Hlo _].
  split; [exact Hover|]. rewrite Hsq. intros H0. injection H0 as H0.
  rewrite H0, Rabs_R0 in Hlo. pose proof underflow_threshold_pos. lra.
Qed.

Lemma ordinary_is_moderate (r : R) :
  (/ 1000 <= Rabs r <= 1000)%R -> (/ 10 ^ 150 <= Rabs r <= 10 ^ 150)%R.
Proof.
  intros [Hlo Hhi].
  assert (H3 : (1000 = 10 ^ 3)%R) by (simpl; lra).
  assert (H150 : (10 ^ 3 <= 10 ^ 150)%R) by (apply Rle_pow; [lra | lia]).
  assert (Hinv : (/ 10 ^ 150 <= / 1000)%R).
  { apply Rinv_le_contravar; lra. }
  lra.
Qed.

Lemma squares_safely_ordinary (r : R) :
  (/ 1000 <= Rabs r <= 1000)%R -> squares_safely (Fin r).
Proof. intros Hr. apply squares_safely_moderate, ordinary_is_moderate, Hr. Qed.

Lemma cos_crit_safe (n0 n1 : float64) :
  squares_safely n0 -> squares_safely n1 ->
  cos_crit PyFloat n0 n1 = Return (critical_cosine n0 n1).
Proof.
  intros [H0 _] [H1 Hnz]. unfold cos_crit, critical_cosine.
  destruct (fgt n1 n0); [|reflexivity].
  rewrite (pypow2_safe _ H0), (pypow2_safe _ H1). cbn [bind].
  rewrite (pydiv_nonzero _ Hnz). reflexivity.
Qed.

Lemma cos_crit_numpy (n0 n1 : float64) :
  cos_crit NpFloat64 n0 n1 = Return (critical_cosine n0 n1).
Proof.
  unfold cos_crit, critical_cosine. destruct (fgt n1 n0); reflexivity.
Qed.

Lemma cos_crit_ok (data : Data.t) (i : nat) :
  safe_indices data -> (i + 1 < length (Data.n data))%nat ->
  cos_crit (Data.floats data) (nth i (Data.n data) NaN)
           (nth (i + 1) (Data.n data) NaN)
  = Return (critical_cosine (nth i (Data.n data) NaN)
                            (nth (i + 1) (Data.n data) NaN)).
Proof.
  intros Hsafe Hi. unfold safe_indices in Hsafe.
  destruct (Data.floats data); [|apply cos_crit_numpy].
  specialize (Hsafe eq_refl). rewrite Forall_forall in Hsafe.
  apply cos_crit_safe; apply Hsafe; apply nth_In; lia.
Qed.

Lemma make_layer_ok (data : Data.t) (i : nat) :
  enough_entries data -> (i < Data.nl data)%nat ->
  make_layer data i = Return (layer_at data i).
Proof.
  intros (Hn & Hmua & Hmus & Hg & Hd & Hsafe) Hi.
  unfold make_layer, layer_at.
  rewrite (@index_lt _ (Data.d data) _ NaN) by lia. cbn [bind].
  rewrite (@index_lt _ (Data.n data) _ NaN) by lia. cbn [bind].
  rewrite (@index_lt _ (Data.n data) (i + 1) NaN) by lia.
  cbn [bind].
  rewrite (cos_crit_ok _ Hsafe) by lia. cbn [bind].
  rewrite (@index_lt _ (Data.mua data) _ NaN) by lia. cbn [bind].
  rewrite (@index_lt _ (Data.mus data) _ NaN) by lia. cbn [bind].
  rewrite (@index_lt _ (Data.g data) _ NaN) by lia. reflexivity.
Qed.

Lemma build_layers_ok (data : Data.t) (k : nat) :
  enough_entries data ->
  forall a acc, (a + k <= Data.nl data)%nat ->
    build_layers data (seq a k) acc
    = Return (acc ++ map (layer_at data) (seq a k)).
Proof.
  intros Hok. induction k as [|k IH]; intros a acc Hak.
  - simpl. rewrite app_nil_r. reflexivity.
  - cbn [seq build_layers map].
    rewrite make_layer_ok by (assumption || lia). cbn [bind].
    rewrite IH by lia. rewrite <- app_assoc. reflexivity.
Qed.

Lemma initialize_input_ok (data : Data.t) :
  enough_entries data -> Data.na data <> 0%nat ->
  initialize_input data =
  Return (Input.mk (Data.np data) (Data.dz data) (Data.dr data)
            (fdiv (Fin (0.5 * PI)) (of_nat (Data.na data)))
            (Data.nz data) (Data.nr data) (Data.na data) (Data.nl data)
            (nth 0 (Data.n data) NaN) (last (Data.n data) NaN)
            (map (layer_at data) (seq 0 (Data.nl data)))).
Proof.
  intros Hok Hna. unfold initialize_input.
  rewrite build_layers_ok by (assumption || lia). cbn [bind app].
  rewrite pydiv_nonzero by (apply of_nat_nonzero; exact Hna). cbn [bind].
  destruct Hok as (Hn & _).
  rewrite (@index_lt _ (Data.n data) _ NaN) by lia. cbn [bind].
  rewrite (@index_last_nonempty _ (Data.n data) NaN).
  - reflexivity.
  - intros Hnil. rewrite Hnil in Hn. simpl in Hn. lia.
Qed.

Ltac safe_entries :=
  repeat (apply Forall_cons;
          [apply squares_safely_ordinary; rewrite Rabs_right by lra; lra|]);
  apply Forall_nil.

Lemma malformed_stack_enough : enough_entries malformed_stack.
Proof.
  unfold enough_entries, safe_indices, malformed_stack;
    cbn [Data.nl Data.n Data.mua Data.mus Data.g Data.d Data.floats length].
  repeat (split; [lia|]). intros _. safe_entries.
Qed.

Lemma DEFAULT_INPUT_DATA_enough : enough_entries DEFAULT_INPUT_DATA.
Proof.
  unfold enough_entries, safe_indices, DEFAULT_INPUT_DATA;
    cbn [Data.nl Data.n Data.mua Data.mus Data.g Data.d Data.floats length].
  repeat (split; [lia|]). intros _. safe_entries.
Qed.

(** C2 (as stated, refuted): a stack whose index array does not have
    [len(d) + 2] entries and whose only thickness is negative is built
    without any error. *)
Lemma initialize_input_accepts_malformed_stack :
  length (Data.n malformed_stack) <> (length (Data.d malformed_stack) + 2)%nat
  /\ Exists (fun t => fle t (Fin 0) = true) (Data.d malformed_stack)
  /\ ~ raises (initialize_input malformed_stack).
Proof.
  split; [cbn; lia|]. split.
  - constructor. cbn. apply Rleb_true. lra.
  - intros [e He].
    rewrite (initialize_input_ok malformed_stack_enough) in He
      by (cbn; lia).
    discriminate He.
Qed.

(** C2 (amended): [initialize_input] validates nothing.  Whenever the
    lists hold the entries that [nl] layers read ([nl + 1] refractive
    indices whose squares, where they are Python floats, neither
    overflow nor underflow to zero, [nl] coefficients and thicknesses of
    any sign) and [na] is not 0, it returns -- as a pure function,
    without side effects -- the [nl] layer records in layer order,
    record [i] carrying index [n[i+1]], [z1 = d[0] + ... + d[i]] and
    [z0 = z1 - d[i]]. *)
Theorem initialize_input_builds_layers :
  forall data : Data.t,
    enough_entries data -> Data.na data <> 0%nat ->
    exists input,
      initialize_input data = Return input /\
      length (Input.layers input) = Data.nl data /\
      forall i, (i < Data.nl data)%nat ->
        exists layer,
          nth_error (Input.layers input) i = Some layer /\
          layer = layer_at data i /\
          Layer.n layer = nth (i + 1) (Data.n data) NaN /\
          Layer.z1 layer = fsum (firstn (i + 1) (Data.d data)) /\
          Layer.z0 layer = fsub (Layer.z1 layer) (nth i (Data.d data) NaN).
Proof.
  intros data Hok Hna. eexists. split.
  - apply initialize_input_ok; assumption.
  - cbn [Input.layers]. split.
    + rewrite length_map, length_seq. reflexivity.
    + intros i Hi. exists (layer_at data i). split.
      * rewrite nth_error_map, nth_error_seq.
        destruct (Nat.ltb_spec i (Data.nl data)); [reflexivity | lia].
      * repeat split.
Qed.

Lemma initialize_input_builds_layers_witness :
  exists input,
    initialize_input DEFAULT_INPUT_DATA = Return input /\
    length (Input.layers input) = 4%nat /\
    forall i, (i < 4)%nat ->
      exists layer,
        nth_error (Input.layers input) i = Some layer /\
        layer = layer_at DEFAULT_INPUT_DATA i /\
        Layer.n layer = nth (i + 1) (Data.n DEFAULT_INPUT_DATA) NaN /\
        Layer.z1 layer = fsum (firstn (i + 1) (Data.d DEFAULT_INPUT_DATA)) /\
        Layer.z0 layer
        = fsub (Layer.z1 layer) (nth i (Data.d DEFAULT_INPUT_DATA) NaN).
Proof.
  apply (initialize_input_builds_layers DEFAULT_INPUT_DATA_enough).
  cbn. lia.
Defined.

(** ** [process_output] *)

Lemma length_mapi {A B} (f : nat -> A -> B) (l : list A) :
  length (mapi f l) = length l.
Proof.
  unfold mapi. rewrite length_map, length_combine, length_seq. lia.
Qed.

Lemma bcast_same (k : nat) : bcast k k = true.
Proof. unfold bcast. rewrite Nat.eqb_refl. reflexivity. Qed.

Lemma bcast_one (k : nat) : bcast 1 k = true.
Proof. unfold bcast. rewrite Nat.eqb_refl. apply orb_true_r. Qed.

Lemma imul1_same_length (t s : list float64) :
  length s = length t -> imul1 t s = Return (amul1 t s).
Proof.
  intros Hl.
  assert (Hb : bcast (length s) (length t) = true)
    by (rewrite Hl; apply bcast_same).
  unfold imul1. rewrite Hb. reflexivity.
Qed.

Lemma imul2_same_shape (t s : array2) :
  nrows s = nrows t -> ncols s = ncols t \/ ncols s = 1%nat ->
  imul2 t s = Return (amul2 t s).
Proof.
  intros Hr Hc.
  assert (Hbr : bcast (nrows s) (nrows t) = true)
    by (rewrite Hr; apply bcast_same).
  assert (Hbc : bcast (ncols s) (ncols t) = true)
    by (destruct Hc as [-> | ->]; [apply bcast_same | apply bcast_one]).
  unfold imul2. rewrite Hbr, Hbc. reflexivity.
Qed.

Lemma length_arange1 (k : nat) : length (arange1 k) = k.
Proof. unfold arange1. rewrite length_map, length_seq. reflexivity. Qed.

Lemma ncols_adiv a x : ncols (adiv a x) = ncols a.
Proof. reflexivity. Qed.

Lemma ncols_amul2 t s : ncols (amul2 t s) = ncols t.
Proof. reflexivity. Qed.

Lemma ncols_scale2_ra nr na dr da : ncols (scale2_ra nr na dr da) = na.
Proof. reflexivity. Qed.

Lemma ncols_scale_rz nr da dz : ncols (scale_rz nr da dz) = 1%nat.
Proof. reflexivity. Qed.

Lemma nrows_adiv a x : nrows (adiv a x) = nrows a.
Proof. unfold nrows, adiv; cbn. apply length_map. Qed.

Lemma nrows_amul2 t s : nrows (amul2 t s) = nrows t.
Proof. unfold nrows, amul2; cbn. apply length_mapi. Qed.

Lemma nrows_scale2_ra nr na dr da : nrows (scale2_ra nr na dr da) = nr.
Proof.
  unfold nrows, scale2_ra; cbn. rewrite length_map. apply length_arange1.
Qed.

Lemma nrows_scale_rz nr da dz : nrows (scale_rz nr da dz) = nr.
Proof.
  unfold nrows, scale_rz; cbn. rewrite length_map. apply length_arange1.
Qed.

Lemma length_scale_r nr dr : length (scale_r nr dr) = nr.
Proof. unfold scale_r. rewrite length_map. apply length_arange1. Qed.

Lemma length_scale_a na da : length (scale_a na da) = na.
Proof. unfold scale_a. rewrite length_map. apply length_arange1. Qed.

Lemma length_sum_axis1 a : length (sum_axis1 a) = nrows a.
Proof. unfold sum_axis1. apply length_map. Qed.

Lemma length_sum_axis0 a : length (sum_axis0 a) = ncols a.
Proof. unfold sum_axis0. rewrite length_map. apply length_seq. Qed.

Lemma update_same h l a : update h l a l = a.
Proof. unfold update. rewrite Nat.eqb_refl. reflexivity. Qed.

Lemma update_other h l a l' : l' <> l -> update h l a l' = h l'.
Proof.
  intros Hl. unfold update.
  destruct (Nat.eqb_spec l' l); [contradiction | reflexivity].
Qed.

Lemma run_idiv_scalar {A} l x (k : unit -> M A) h :
  mbind (idiv_scalar l x) k h = k tt (update h l (adiv (h l) x)).
Proof. reflexivity. Qed.

Lemma run_read {A} l (k : array2 -> M A) h :
  mbind (read l) k h = k (h l) h.
Proof. reflexivity. Qed.

Lemma run_imul {A} l s (k : unit -> M A) h :
  nrows s = nrows (h l) -> ncols s = ncols (h l) \/ ncols s = 1%nat ->
  mbind (imul l s) k h = k tt (update h l (amul2 (h l) s)).
Proof.
  intros Hr Hc. unfold imul, mbind, read, lift, write.
  rewrite (imul2_same_shape _ _ Hr Hc). reflexivity.
Qed.

Lemma run_lift {A B} (a : A) (k : A -> M B) h :
  mbind (lift (Return a)) k h = k a h.
Proof. reflexivity. Qed.

Ltac lookup :=
  repeat (rewrite ?update_same, ?update_other by congruence).

Ltac shapes :=
  lookup;
  rewrite ?nrows_amul2, ?nrows_adiv, ?ncols_amul2, ?ncols_adiv,
    ?nrows_scale2_ra, ?ncols_scale2_ra, ?nrows_scale_rz, ?ncols_scale_rz,
    ?length_scale_r, ?length_scale_a, ?length_sum_axis1, ?length_sum_axis0,
    ?nrows_adiv, ?ncols_adiv;
  try congruence; auto.

Lemma scale1_r_safe (dr : float64) :
  square_overflows dr = false ->
  scale1_r dr = Return (fmul (Fin (2.0 * PI)) (squared dr)).
Proof. intros H. unfold scale1_r. rewrite (pypow2_safe _ H). reflexivity. Qed.

Lemma scale1_r_overflow (dr : float64) :
  square_overflows dr = true -> scale1_r dr = Raise OverflowError.
Proof.
  intros H. unfold scale1_r. rewrite (pypow2_overflow _ H). reflexivity.
Qed.

(** A number of magnitude up to 1000 has its square in range. *)
Lemma ordinary_square (r : R) :
  (Rabs r <= 1000)%R -> square_overflows (Fin r) = false.
Proof.
  intros Hr. cbn [square_overflows]. apply overflows_false.
  rewrite Rabs_mult. pose proof (Rabs_pos r) as H0.
  pose proof overflow_threshold_large as Hover.
  assert (H6 : (1000 * 1000 = 10 ^ 6)%R) by (simpl; lra).
  assert (H303 : (10 ^ 6 < 10 ^ 303)%R) by (apply Rlt_pow; [lra | lia]).
  apply Rle_lt_trans with (1000 * 1000)%R; [|lra].
  apply Rmult_le_compat; lra.
Qed.

Lemma process_output_eval (input : Input.t) (output : Raw.t) (h : heap) :
  well_formed input output h ->
  square_overflows (Input.dr input) = false -> Input.dz input <> Fin 0 ->
  process_output input output h
  = (final_heap input output h, Return (final_output input output h)).
Proof.
  intros [Hra Hrt Hat Hrr Hrc Har Hac Htr Htc] Hdr Hdz.
  unfold process_output.
  rewrite !run_idiv_scalar. rewrite !run_read. cbv beta zeta.
  lookup.
  rewrite run_imul by shapes. lookup.
  rewrite run_imul by shapes. lookup.
  rewrite (scale1_r_safe _ Hdr), run_lift.
  rewrite !imul1_same_length by shapes. rewrite !run_lift.
  rewrite run_imul by shapes. lookup.
  rewrite (pydiv_nonzero _ Hdz), run_lift.
  reflexivity.
Qed.

Lemma final_heap_rd_ra input output h :
  well_formed input output h ->
  final_heap input output h (Raw.rd_ra output)
  = amul2 (adiv (h (Raw.rd_ra output)) (of_Z (Input.np input)))
          (scale2_ra (Input.nr input) (Input.na input)
                     (Input.dr input) (Input.da input)).
Proof. intros [? ? ? ? ? ? ? ? ?]. unfold final_heap, half_scaled_heap. lookup. reflexivity. Qed.

Lemma final_heap_tt_ra input output h :
  well_formed input output h ->
  final_heap input output h (Raw.tt_ra output)
  = amul2 (adiv (h (Raw.tt_ra output)) (of_Z (Input.np input)))
          (scale2_ra (Input.nr input) (Input.na input)
                     (Input.dr input) (Input.da input)).
Proof. intros [? ? ? ? ? ? ? ? ?]. unfold final_heap, half_scaled_heap. lookup. reflexivity. Qed.

Lemma final_heap_ab_rz input output h :
  well_formed input output h ->
  final_heap input output h (Raw.ab_rz output)
  = amul2 (adiv (h (Raw.ab_rz output)) (of_Z (Input.np input)))
          (scale_rz (Input.nr input) (Input.da input) (Input.dz input)).
Proof. intros [? ? ? ? ? ? ? ? ?]. unfold final_heap, half_scaled_heap. lookup. reflexivity. Qed.

Lemma final_heap_elsewhere input output h l :
  l <> Raw.rd_ra output -> l <> Raw.ab_rz output -> l <> Raw.tt_ra output ->
  final_heap input output h l = h l.
Proof.
  intros. unfold final_heap, half_scaled_heap, normalized_heap. lookup.
  reflexivity.
Qed.

(** *** Scalar totals *)

Lemma fdiv_finite (a b : R) : b <> 0%R -> fdiv (Fin a) (Fin b) = Fin (a / b).
Proof.
  intros Hb. unfold fdiv. destruct (Req_dec_T b 0); [contradiction|].
  reflexivity.
Qed.

Lemma fold_fadd_zeros (l : list float64) (a : R) :
  Forall (eq (Fin 0)) l -> fold_left fadd l (Fin a) = Fin a.
Proof.
  revert a. induction l as [|x l IH]; intros a Hl; [reflexivity|].
  inversion Hl as [|? ? Hx Hrest]; subst. cbn [fold_left fadd].
  rewrite Rplus_0_r. apply IH. exact Hrest.
Qed.

Lemma Forall_concat {A} (P : A -> Prop) (ll : list (list A)) :
  Forall (Forall P) ll -> Forall P (concat ll).
Proof.
  induction 1 as [|l ll Hl _ IH]; cbn; [constructor|].
  apply Forall_app. split; assumption.
Qed.

Lemma Forall_repeat {A} (P : A -> Prop) (a : A) (k : nat) :
  P a -> Forall P (repeat a k).
Proof. intros Ha. induction k; cbn; constructor; assumption. Qed.

Lemma map_repeat {A B} (f : A -> B) (a : A) (k : nat) :
  map f (repeat a k) = repeat (f a) k.
Proof. induction k; cbn; [reflexivity | f_equal; assumption]. Qed.

Lemma sum_all_unit_bin (nr na : nat) (p : R) :
  p <> 0%R -> sum_all (adiv (unit_bin nr na (Fin p)) (Fin p)) = Fin 1.
Proof.
  intros Hp. unfold sum_all, adiv, unit_bin, fsum.
  cbn [rows map concat app fold_left].
  rewrite !map_repeat, !(fdiv_finite _ Hp).
  replace (0 / p)%R with 0%R by (unfold Rdiv; ring).
  replace (p / p)%R with 1%R by (field; exact Hp).
  cbn [fadd]. rewrite Rplus_0_l.
  rewrite fold_left_app, fold_fadd_zeros.
  - apply fold_fadd_zeros. apply Forall_concat.
    apply Forall_repeat, Forall_repeat. reflexivity.
  - apply Forall_repeat. reflexivity.
Qed.

(** C1: on the grid [nr = 20], [na = 30], [dr = 0.2], with raw
    reflectance counts equal to the photon count at bin (1,1) and 0
    elsewhere, the total [rd] is exactly 1, whatever the geometric scale
    factors ([da], [dz]) are: [rd] is the sum of the counts divided by
    the photon count, taken before any rescaling. *)
Theorem process_output_unit_reflectance :
  forall (input : Input.t) (output : Raw.t) (h : heap),
    Input.nr input = 20%nat -> Input.na input = 30%nat ->
    Input.dr input = Fin 0.2 ->
    Input.np input <> 0%Z -> Input.dz input <> Fin 0 ->
    well_formed input output h ->
    h (Raw.rd_ra output) = unit_bin 20 30 (of_Z (Input.np input)) ->
    exists h' out,
      process_output input output h = (h', Return out) /\
      Output.rd out = Fin 1 /\
      Output.rd out
      = sum_all (adiv (h (Raw.rd_ra output)) (of_Z (Input.np input))).
Proof.
  intros input output h Hnr Hna Hdr Hnp Hdz Hwf Hraw.
  exists (final_heap input output h), (final_output input output h).
  split.
  { apply process_output_eval; try assumption.
    rewrite Hdr. apply ordinary_square. rewrite Rabs_right; lra. }
  cbn [final_output Output.rd]. split; [|reflexivity].
  rewrite Hraw. apply sum_all_unit_bin.
  intros H0. apply Hnp. apply eq_IZR. exact H0.
Qed.

Lemma process_output_unit_reflectance_witness :
  exists h' out,
    process_output unit_grid unit_raw unit_heap = (h', Return out) /\
    Output.rd out = Fin 1 /\
    Output.rd out
    = sum_all (adiv (unit_heap (Raw.rd_ra unit_raw))
                    (of_Z (Input.np unit_grid))).
Proof.
  apply process_output_unit_reflectance; try reflexivity.
  - cbn. lia.
  - cbn. intros H. injection H as H. lra.
  - constructor; cbn; try lia; reflexivity.
Defined.

(** *** Zero denominators *)

Lemma unit_heap_well_formed input :
  Input.nr input = 20%nat -> Input.na input = 30%nat ->
  Input.nz input = 10%nat ->
  well_formed input unit_raw unit_heap.
Proof.
  intros Hnr Hna Hnz. constructor; rewrite ?Hnr, ?Hna, ?Hnz; cbn;
    try lia; reflexivity.
Qed.

Lemma two_nonzero : (2 <> 0)%R.
Proof. lra. Qed.

Lemma scale1_dr_zero (x : R) : scale1 (Fin 0) (Fin x) = Fin 0.
Proof.
  unfold scale1. rewrite (fdiv_finite _ two_nonzero).
  cbn [fmul fsin]. f_equal. ring.
Qed.

Lemma unit_grid_dz : Input.dz unit_grid <> Fin 0.
Proof. cbn. intros H. injection H as H. lra. Qed.

Lemma unit_grid_dr : square_overflows (Input.dr unit_grid) = false.
Proof. apply ordinary_square. rewrite Rabs_right; lra. Qed.

Lemma degenerate_grid_dr : square_overflows (Input.dr degenerate_grid) = false.
Proof. apply ordinary_square. rewrite Rabs_R0. lra. Qed.

Lemma small_grid_dr : square_overflows (Input.dr small_grid) = false.
Proof. apply ordinary_square. rewrite Rabs_right; lra. Qed.

Lemma nth_error_combine_seq {A} (l : list A) :
  forall s i,
    nth_error (combine (seq s (length l)) l) i
    = option_map (fun a => ((s + i)%nat, a)) (nth_error l i).
Proof.
  induction l as [|x l IH]; intros s i.
  - destruct i; reflexivity.
  - destruct i as [|i]; cbn [length seq combine nth_error option_map].
    + rewrite Nat.add_0_r. reflexivity.
    + rewrite IH. replace (S s + i)%nat with (s + S i)%nat by lia.
      reflexivity.
Qed.

Lemma nth_error_mapi {A B} (f : nat -> A -> B) (l : list A) (i : nat) :
  nth_error (mapi f l) i = option_map (f i) (nth_error l i).
Proof.
  unfold mapi. rewrite nth_error_map, nth_error_combine_seq.
  destruct (nth_error l i); reflexivity.
Qed.

Lemma bidx_in_range (sdim i : nat) : (i < sdim)%nat -> bidx sdim i = i.
Proof.
  intros Hi. unfold bidx. destruct (Nat.eqb_spec sdim 1); [lia | reflexivity].
Qed.

Lemma nth_arange1 (k i : nat) (d : float64) :
  (i < k)%nat -> nth i (arange1 k) d = of_nat (S i).
Proof.
  intros Hi. unfold arange1.
  rewrite (nth_indep _ d (of_nat 0)) by (rewrite length_map, length_seq; lia).
  rewrite (map_nth of_nat). rewrite seq_nth by lia. reflexivity.
Qed.

Lemma scale2_ra_entry (input : Input.t) (i a : nat) :
  (i < Input.nr input)%nat -> (a < Input.na input)%nat ->
  nth a (nth i (rows (scale2_ra (Input.nr input) (Input.na input)
                                (Input.dr input) (Input.da input))) []) NaN
  = fdiv (Fin 1.0) (denominator_ra input (S i) (S a)).
Proof.
  intros Hi Ha. unfold scale2_ra. cbn [rows].
  set (row := fun ir : float64 => map _ (arange1 (Input.na input))).
  rewrite (nth_indep _ [] (row (of_nat 0)))
    by (rewrite length_map, length_arange1; exact Hi).
  rewrite (map_nth row). subst row. cbv beta.
  set (entry := fun ia : float64 => fdiv _ _).
  rewrite (nth_indep _ NaN (entry (of_nat 0)))
    by (rewrite length_map, length_arange1; exact Ha).
  rewrite (map_nth entry). subst entry. cbv beta.
  rewrite !nth_arange1 by assumption. reflexivity.
Qed.

Lemma fmul_PInf_not_finite (v : float64) : is_finite (fmul v PInf) = false.
Proof.
  destruct v; cbn; try reflexivity.
  destruct (Rlt_dec 0 r); [reflexivity|].
  destruct (Rlt_dec r 0); reflexivity.
Qed.

Lemma one_over_zero : fdiv (Fin 1.0) (Fin 0) = PInf.
Proof.
  unfold fdiv. destruct (Req_dec_T 0 0); [|contradiction].
  cbn. destruct (Rlt_dec 0 1.0); [reflexivity | lra].
Qed.

Lemma amul2_scale2_ra_entry (input : Input.t) (t : array2) (i a : nat)
      (row : list float64) (v : float64) :
  (i < Input.nr input)%nat -> (a < Input.na input)%nat ->
  nth_error (rows t) i = Some row -> nth_error row a = Some v ->
  exists row',
    nth_error (rows (amul2 t (scale2_ra (Input.nr input) (Input.na input)
                                        (Input.dr input) (Input.da input)))) i
    = Some row' /\
    nth_error row' a
    = Some (fmul v (fdiv (Fin 1.0) (denominator_ra input (S i) (S a)))).
Proof.
  intros Hi Ha Hrow Hv. unfold amul2. cbn [rows].
  rewrite nth_error_mapi, Hrow. cbn [option_map].
  eexists. split; [reflexivity|].
  rewrite nth_error_mapi, Hv. cbn [option_map].
  rewrite nrows_scale2_ra, ncols_scale2_ra.
  rewrite !bidx_in_range by assumption.
  rewrite scale2_ra_entry by assumption. reflexivity.
Qed.

Lemma some_eq {A} (a b : A) : Some a = Some b -> a = b.
Proof. congruence. Qed.

Lemma amul2_scale2_ra_entry_inv (input : Input.t) (t : array2) (i a : nat)
      (row' : list float64) (v' : float64) :
  (i < Input.nr input)%nat -> (a < Input.na input)%nat ->
  nth_error (rows (amul2 t (scale2_ra (Input.nr input) (Input.na input)
                                      (Input.dr input) (Input.da input)))) i
  = Some row' ->
  nth_error row' a = Some v' ->
  exists v,
    v' = fmul v (fdiv (Fin 1.0) (denominator_ra input (S i) (S a))).
Proof.
  intros Hi Ha Hrow' Hv'.
  destruct (nth_error (rows t) i) as [row|] eqn:Hrow.
  - destruct (nth_error row a) as [v|] eqn:Hv.
    + destruct (amul2_scale2_ra_entry input t Hi Ha Hrow Hv)
        as (r2 & Hr2 & Hv2).
      rewrite Hrow' in Hr2. apply some_eq in Hr2. subst r2.
      rewrite Hv' in Hv2. apply some_eq in Hv2. exists v. exact Hv2.
    + unfold amul2 in Hrow'. cbn [rows] in Hrow'.
      rewrite nth_error_mapi, Hrow in Hrow'. apply some_eq in Hrow'.
      rewrite <- Hrow', nth_error_mapi, Hv in Hv'. discriminate Hv'.
  - unfold amul2 in Hrow'. cbn [rows] in Hrow'.
    rewrite nth_error_mapi, Hrow in Hrow'. discriminate Hrow'.
Qed.

(** C3 (amended): normalisation does not test its scale denominators.
    For distinct arrays of the grid's shapes, [dz <> 0] and a [dr]
    whose square is in the range of a double it raises no exception,
    whatever [da] is; where the denominator of the two-dimensional
    scale factor evaluates to zero, the factor is infinite and the
    rescaled reflectance entry is [inf] or [nan] rather than an
    error. *)
Theorem process_output_raises_nothing :
  forall (input : Input.t) (output : Raw.t) (h : heap),
    well_formed input output h ->
    square_overflows (Input.dr input) = false -> Input.dz input <> Fin 0 ->
    exists h' out,
      process_output input output h = (h', Return out) /\
      forall i a row v,
        (i < Input.nr input)%nat -> (a < Input.na input)%nat ->
        denominator_ra input (S i) (S a) = Fin 0 ->
        nth_error (rows (h' (Raw.rd_ra output))) i = Some row ->
        nth_error row a = Some v ->
        is_finite v = false.
Proof.
  intros input output h Hwf Hdr Hdz.
  exists (final_heap input output h), (final_output input output h).
  split; [apply process_output_eval; assumption|].
  intros i a row v Hi Ha Hden Hrow Hv.
  rewrite (final_heap_rd_ra Hwf) in Hrow.
  destruct (amul2_scale2_ra_entry_inv _ _ Hi Ha Hrow Hv) as (v0 & ->).
  rewrite Hden, one_over_zero. apply fmul_PInf_not_finite.
Qed.

Lemma degenerate_grid_denominator :
  denominator_ra degenerate_grid 1 1 = Fin 0.
Proof.
  unfold denominator_ra. cbn [Input.dr Input.da degenerate_grid].
  rewrite scale1_dr_zero. unfold of_nat. cbn [fsub fadd fopp fmul fsin].
  f_equal. ring.
Qed.

(** C3 (as stated, refuted): with [dr = 0] the denominator of the
    two-dimensional scale factor is zero (here at bin (1,1), and
    [scale1 = 0] makes it so at every bin), yet the normalisation
    returns its output; no error is raised. *)
Lemma process_output_zero_denominator_returns :
  denominator_ra degenerate_grid 1 1 = Fin 0 /\
  scale1 (Input.dr degenerate_grid) (Input.da degenerate_grid) = Fin 0 /\
  exists h' out,
    process_output degenerate_grid unit_raw unit_heap = (h', Return out).
Proof.
  split; [apply degenerate_grid_denominator|].
  split; [apply scale1_dr_zero|].
  eexists. eexists. apply process_output_eval.
  - apply unit_heap_well_formed; reflexivity.
  - apply degenerate_grid_dr.
  - cbn. intros H. injection H as H. lra.
Qed.

Lemma degenerate_grid_dz : Input.dz degenerate_grid <> Fin 0.
Proof. cbn. intros H. injection H as H. lra. Qed.

Lemma process_output_raises_nothing_witness :
  exists h' out,
    process_output degenerate_grid unit_raw unit_heap = (h', Return out) /\
    forall row v,
      nth_error (rows (h' 0%nat)) 0 = Some row ->
      nth_error row 0 = Some v ->
      is_finite v = false.
Proof.
  destruct (@process_output_raises_nothing degenerate_grid unit_raw unit_heap
              (unit_heap_well_formed degenerate_grid eq_refl eq_refl eq_refl)
              degenerate_grid_dr degenerate_grid_dz)
    as (h' & out & Hrun & Hinf).
  exists h', out. split; [exact Hrun|].
  intros row v Hrow Hv.
  apply (Hinf 0%nat 0%nat row v); try assumption.
  - cbn. lia.
  - cbn. lia.
  - apply degenerate_grid_denominator.
Defined.

(** *** In-place update of the raw arrays *)

Lemma small_heap_well_formed : well_formed small_grid unit_raw small_heap.
Proof. constructor; cbn; try lia; reflexivity. Qed.

(** C4 (as stated, refuted): on a one-bin grid holding the count 1, the
    caller's reflectance array no longer holds its original value once
    [process_output] has returned. *)
Lemma process_output_overwrites_raw_counts :
  exists h' out,
    process_output small_grid unit_raw small_heap = (h', Return out) /\
    h' (Raw.rd_ra unit_raw) <> small_heap (Raw.rd_ra unit_raw).
Proof.
  eexists. eexists. split.
  - apply process_output_eval;
      [apply small_heap_well_formed | apply small_grid_dr |].
    cbn. intros H. injection H as H. lra.
  - rewrite (final_heap_rd_ra small_heap_well_formed).
    cbv [amul2 adiv scale2_ra arange1 mapi map combine seq length nth bidx
         nrows ncols rows Nat.eqb fst snd small_heap small_grid unit_raw
         Raw.rd_ra Input.np Input.nr Input.na Input.dr Input.da of_Z of_nat
         scale1].
    rewrite (fdiv_finite _ two_nonzero), (fdiv_finite 1 R1_neq_R0).
    cbn [fsub fadd fopp fmul fsin INR].
    match goal with
    | |- context [fdiv (Fin 1.0) (Fin ?D)] => set (D0 := D)
    end.
    assert (HD : (1 < D0)%R).
    { subst D0.
      replace (2.0 * (1 + - (0.5)) * (0.5 * PI / 1))%R with (PI / 2)%R by lra.
      replace (0.5 * PI / 1 / 2)%R with (PI / 4)%R by lra.
      rewrite sin_PI2, sin_PI4.
      pose proof PI2_1 as Hpi.
      pose proof (sqrt_lt_R0 2 ltac:(lra)) as Hs0.
      pose proof (sqrt_sqrt 2 ltac:(lra)) as Hss.
      assert (Hs2 : (sqrt 2 <= 2)%R) by nra.
      assert (Ht : (/ 2 <= 1 / sqrt 2)%R).
      { unfold Rdiv. rewrite Rmult_1_l. apply Rinv_le_contravar; lra. }
      assert (Hpp : (4 < PI * PI)%R) by nra.
      nra. }
    rewrite fdiv_finite by lra. cbv beta iota.
    intros Heq. injection Heq as Heq.
    assert (Hinv : (/ D0 < 1)%R).
    { rewrite <- Rinv_1. apply Rinv_lt_contravar; lra. }
    lra.
Qed.

(** C4 (amended): the normaliser updates the three raw arrays in place.
    For distinct arrays of the grid's shapes, [dz <> 0] and a [dr]
    whose square is in the range of a double, the call returns and the
    returned output names the caller's own three arrays, each of which
    now holds its counts divided by the photon count and multiplied by
    the geometric scale factors; no copy is made and no other array of
    the store changes. *)
Theorem process_output_rescales_in_place :
  forall (input : Input.t) (output : Raw.t) (h : heap),
    well_formed input output h ->
    square_overflows (Input.dr input) = false -> Input.dz input <> Fin 0 ->
    exists h' out,
      process_output input output h = (h', Return out) /\
      Output.rd_ra out = Raw.rd_ra output /\
      Output.ab_rz out = Raw.ab_rz output /\
      Output.tt_ra out = Raw.tt_ra output /\
      h' (Raw.rd_ra output)
      = amul2 (adiv (h (Raw.rd_ra output)) (of_Z (Input.np input)))
              (scale2_ra (Input.nr input) (Input.na input)
                         (Input.dr input) (Input.da input)) /\
      h' (Raw.ab_rz output)
      = amul2 (adiv (h (Raw.ab_rz output)) (of_Z (Input.np input)))
              (scale_rz (Input.nr input) (Input.da input) (Input.dz input)) /\
      h' (Raw.tt_ra output)
      = amul2 (adiv (h (Raw.tt_ra output)) (of_Z (Input.np input)))
              (scale2_ra (Input.nr input) (Input.na input)
                         (Input.dr input) (Input.da input)) /\
      forall l, l <> Raw.rd_ra output -> l <> Raw.ab_rz output ->
                l <> Raw.tt_ra output -> h' l = h l.
Proof.
  intros input output h Hwf Hdr Hdz.
  exists (final_heap input output h), (final_output input output h).
  split; [apply process_output_eval; assumption|].
  repeat split.
  - apply final_heap_rd_ra; assumption.
  - apply final_heap_ab_rz; assumption.
  - apply final_heap_tt_ra; assumption.
  - intros l. apply final_heap_elsewhere.
Qed.

Lemma process_output_rescales_in_place_witness :
  exists h' out,
    process_output unit_grid unit_raw unit_heap = (h', Return out) /\
    Output.rd_ra out = 0%nat /\
    Output.ab_rz out = 1%nat /\
    Output.tt_ra out = 2%nat /\
    h' 0%nat
    = amul2 (adiv (unit_heap 0%nat) (of_Z 50000))
            (scale2_ra 20 30 (Fin 0.2) (Fin (0.5 * PI / 30))) /\
    h' 1%nat
    = amul2 (adiv (unit_heap 1%nat) (of_Z 50000))
            (scale_rz 20 (Fin (0.5 * PI / 30)) (Fin 0.2)) /\
    h' 2%nat
    = amul2 (adiv (unit_heap 2%nat) (of_Z 50000))
            (scale2_ra 20 30 (Fin 0.2) (Fin (0.5 * PI / 30))) /\
    forall l, l <> 0%nat -> l <> 1%nat -> l <> 2%nat -> h' l = unit_heap l.
Proof.
  apply (@process_output_rescales_in_place unit_grid unit_raw unit_heap).
  - apply unit_heap_well_formed; reflexivity.
  - apply unit_grid_dr.
  - apply unit_grid_dz.
Defined.

Lemma pydiv_zero (x : float64) : pydiv x (Fin 0) = Raise ZeroDivisionError.
Proof.
  unfold pydiv, feq, Reqb.
  destruct (Req_dec_T 0 0); [reflexivity | contradiction].
Qed.

(** With [dz = 0] the scalar division [1.0 / dz] is Python's own and
    raises; the arrays have been rescaled by then. *)
Lemma process_output_dz_zero (input : Input.t) (output : Raw.t) (h : heap) :
  well_formed input output h ->
  square_overflows (Input.dr input) = false -> Input.dz input = Fin 0 ->
  process_output input output h
  = (final_heap input output h, Raise ZeroDivisionError).
Proof.
  intros [Hra Hrt Hat Hrr Hrc Har Hac Htr Htc] Hdr Hdz.
  unfold process_output.
  rewrite !run_idiv_scalar. rewrite !run_read. cbv beta zeta.
  lookup.
  rewrite run_imul by shapes. lookup.
  rewrite run_imul by shapes. lookup.
  rewrite (scale1_r_safe _ Hdr), run_lift.
  rewrite !imul1_same_length by shapes. rewrite !run_lift.
  rewrite run_imul by shapes. lookup.
  assert (Hp : pydiv (Fin 1.0) (Input.dz input) = Raise ZeroDivisionError)
    by (rewrite Hdz; apply pydiv_zero).
  rewrite Hp. reflexivity.
Qed.

(** When the square of [dr] is out of range, [dr**2] raises: the two
    reflectance arrays have been rescaled by then, the absorption array
    has only been divided by the photon count. *)
Lemma process_output_dr_overflow (input : Input.t) (output : Raw.t)
      (h : heap) :
  well_formed input output h -> square_overflows (Input.dr input) = true ->
  process_output input output h
  = (half_scaled_heap input output h, Raise OverflowError).
Proof.
  intros [Hra Hrt Hat Hrr Hrc Har Hac Htr Htc] Hdr.
  unfold process_output.
  rewrite !run_idiv_scalar. rewrite !run_read. cbv beta zeta.
  lookup.
  rewrite run_imul by shapes. lookup.
  rewrite run_imul by shapes. lookup.
  rewrite (scale1_r_overflow _ Hdr). reflexivity.
Qed.

(** ** Radial profile interpolation *)

Lemma rindex_midpoints (nr : nat) (dr : R) :
  rindex nr (Fin dr) = map Fin (midpoints nr dr).
Proof.
  unfold rindex, midpoints, arange1. rewrite !map_map.
  apply map_ext. intros i. unfold of_nat.
  rewrite (fdiv_finite _ two_nonzero). reflexivity.
Qed.

Lemma finite_values_map_Fin (l : list R) :
  Arr.finite_values (map Fin l) = Some l.
Proof.
  induction l as [|r l IH]; cbn; [reflexivity|]. rewrite IH. reflexivity.
Qed.

Lemma diff_cons2 (x0 x1 : R) (l : list R) :
  Arr.diff (x0 :: x1 :: l) = (x1 - x0)%R :: Arr.diff (x1 :: l).
Proof. reflexivity. Qed.

Lemma diff_arithmetic (f : nat -> R) (step : R) :
  (forall i, (f (S i) - f i)%R = step) ->
  forall n a, Forall (eq step) (Arr.diff (map f (seq a n))).
Proof.
  intros Hf. induction n as [|n IH]; intros a; [constructor|].
  destruct n as [|n]; [constructor|].
  change (Forall (eq step)
            (Arr.diff (f a :: f (S a) :: map f (seq (S (S a)) n)))).
  rewrite diff_cons2. constructor; [symmetry; apply Hf|].
  apply (IH (S a)).
Qed.

Lemma increasing_midpoints (nr : nat) (dr : R) :
  (0 < dr)%R -> increasing (midpoints nr dr).
Proof.
  intros Hdr. unfold increasing, midpoints.
  eapply Forall_impl; [|apply (diff_arithmetic _ (step := dr))].
  - intros dx <-. exact Hdr.
  - intros i. rewrite S_INR. lra.
Qed.

Lemma strictly_increasing_true (xs : list R) :
  increasing xs -> Pchip.strictly_increasing xs = true.
Proof.
  intros Hxs. unfold Pchip.strictly_increasing. apply forallb_forall.
  intros dx Hdx. apply Rltb_true.
  unfold increasing in Hxs. rewrite Forall_forall in Hxs. auto.
Qed.

Lemma length_midpoints nr dr : length (midpoints nr dr) = nr.
Proof. unfold midpoints. rewrite length_map, length_seq. reflexivity. Qed.

Lemma PchipInterpolator_midpoints (nr : nat) (dr : R) (ys : list R) :
  (2 <= nr)%nat -> (0 < dr)%R -> length ys = nr ->
  Pchip.PchipInterpolator (rindex nr (Fin dr)) (map Fin ys)
  = Return (Pchip.mk (midpoints nr dr)
              (Pchip.coefficients (midpoints nr dr) ys
                 (Pchip._find_derivatives (midpoints nr dr) ys))).
Proof.
  intros Hnr Hdr Hys. unfold Pchip.PchipInterpolator.
  rewrite rindex_midpoints, !length_map, length_midpoints, Hys.
  destruct (Nat.ltb_spec nr 2); [lia|].
  rewrite Nat.eqb_refl. cbn [negb].
  rewrite !finite_values_map_Fin.
  rewrite (strictly_increasing_true (increasing_midpoints nr Hdr)).
  reflexivity.
Qed.

Lemma last_In {A} (l : list A) (a d : A) : In (last (a :: l) d) (a :: l).
Proof.
  revert a. induction l as [|b l IH]; intros a; [left; reflexivity|].
  right. apply (IH b).
Qed.

Lemma call_outside (p : Pchip.t) (q : float64) :
  Pchip.x p <> [] -> strictly_outside q (map Fin (Pchip.x p)) ->
  Pchip.call p q = NaN.
Proof.
  intros Hne Hout. unfold Pchip.call.
  destruct q as [r| | |]; try reflexivity.
  destruct (Pchip.x p) as [|a l] eqn:Hx; [contradiction|].
  destruct Hout as [Hlo | Hhi].
  - inversion Hlo as [|? ? Ha _]; subst. cbn in Ha.
    apply Rltb_true in Ha.
    assert (Hf : Rleb a r = false) by (apply Rleb_false; exact Ha).
    rewrite Hf. reflexivity.
  - rewrite Forall_forall in Hhi.
    assert (Hb : flt (Fin (last (a :: l) a)) (Fin r) = true).
    { apply Hhi. apply in_map. apply last_In. }
    cbn [flt] in Hb. apply Rltb_true in Hb.
    assert (Hf : Rleb r (last (a :: l) a) = false)
      by (apply Rleb_false; exact Hb).
    rewrite Hf, andb_false_r. reflexivity.
Qed.

Lemma zero_literal : (0.0 = 0)%R.
Proof. lra. Qed.

(** The interpolator needs two knots: a grid with a single radial bin
    has none to offer. *)
Lemma PchipInterpolator_single_bin (dr : float64) (rd_r : list float64) :
  Pchip.PchipInterpolator (rindex 1 dr) rd_r = Raise ValueError.
Proof. reflexivity. Qed.

(** A profile with a value that is not finite is refused. *)
Lemma PchipInterpolator_not_finite (nr : nat) (dr : R) (rd_r : list float64) :
  length rd_r = nr -> Arr.finite_values rd_r = None ->
  Pchip.PchipInterpolator (rindex nr (Fin dr)) rd_r = Raise ValueError.
Proof.
  intros Hlen Hnone. unfold Pchip.PchipInterpolator.
  rewrite rindex_midpoints, length_map, length_midpoints, Hlen.
  destruct (Nat.ltb nr 2); [reflexivity|].
  rewrite Nat.eqb_refl. cbn [negb].
  rewrite finite_values_map_Fin, Hnone. reflexivity.
Qed.

Lemma get_analysis_data_single_bin (rd_r : list float64)
      (start_dist end_dist step : R) :
  step <> 0%R ->
  get_analysis_data one_bin_grid rd_r start_dist end_dist step
  = Raise ValueError.
Proof.
  intros Hstep. unfold get_analysis_data, Arr.arange.
  destruct (Req_dec_T step 0); [contradiction|].
  cbn [bind Input.nr Input.dr one_bin_grid].
  rewrite PchipInterpolator_single_bin. reflexivity.
Qed.

Lemma step_nonzero : (0.05 <> 0)%R.
Proof. lra. Qed.

(** C5 (as stated, refuted): on a grid with a single radial bin there is
    no interpolator to sample.  [PchipInterpolator] needs two knots and
    raises [ValueError], so a query strictly outside the domain yields
    no value at all, the sentinel 0 no more than any other; a profile
    holding an infinite value is refused in the same way. *)
Lemma single_bin_has_no_sentinel :
  strictly_outside (Fin 0.5) (rindex 1 (Fin 0.2)) /\
  Pchip.PchipInterpolator (rindex 1 (Fin 0.2)) [Fin 5] = Raise ValueError /\
  get_analysis_data one_bin_grid [Fin 5] 0.5 3.5 0.05 = Raise ValueError /\
  Pchip.PchipInterpolator (rindex 2 (Fin 0.2)) [Fin 5; PInf]
  = Raise ValueError.
Proof.
  split.
  { right. rewrite rindex_midpoints. unfold midpoints. cbn [seq map INR].
    repeat constructor. cbn [flt]. apply Rltb_true. lra. }
  split; [apply PchipInterpolator_single_bin|].
  split; [apply get_analysis_data_single_bin, step_nonzero|].
  apply PchipInterpolator_not_finite; reflexivity.
Qed.

(** C5 (amended): on a grid of at least two radial bins with a positive
    step and a finite profile, the interpolator is built on the bin
    midpoints [i * dr - dr / 2], [i = 1 .. nr], and every query strictly
    outside [[min, max]] of those coordinates is sampled as the sentinel
    0 (the interpolator answers [nan] there, never an extrapolated
    value, and [nan_to_num] turns it into 0). *)
Theorem sample_outside_domain_is_zero :
  forall (nr : nat) (dr : R) (ys : list R),
    (2 <= nr)%nat -> (0 < dr)%R -> length ys = nr ->
    exists interp_func,
      Pchip.PchipInterpolator (rindex nr (Fin dr)) (map Fin ys)
      = Return interp_func /\
      forall (i_distances : list float64) (k : nat) (q : float64),
        nth_error i_distances k = Some q ->
        strictly_outside q (rindex nr (Fin dr)) ->
        nth_error (sample interp_func i_distances) k = Some (Fin 0).
Proof.
  intros nr dr ys Hnr Hdr Hys. eexists. split.
  - apply PchipInterpolator_midpoints; assumption.
  - intros i_distances k q Hk Hout. unfold sample.
    rewrite nth_error_map, Hk. cbn [option_map]. f_equal.
    rewrite call_outside.
    + cbn [nan_to_num]. f_equal. apply zero_literal.
    + cbn [Pchip.x]. intros Hnil.
      apply (f_equal (@length R)) in Hnil.
      rewrite length_midpoints in Hnil. cbn in Hnil. lia.
    + cbn [Pchip.x]. rewrite <- rindex_midpoints. exact Hout.
Qed.

(** *** Interpolation at the knots *)









Lemma last_any_default {A} (a : A) (l : list A) (d d' : A) :
  last (a :: l) d = last (a :: l) d'.
Proof.
  revert a. induction l as [|b l IH]; intros a; [reflexivity|].
  change (last (b :: l) d = last (b :: l) d'). apply IH.
Qed.












Lemma outside_below_first_midpoint :
  strictly_outside (Fin 0) (rindex 3 (Fin 0.2)).
Proof.
  left. rewrite rindex_midpoints. unfold midpoints. cbn [seq map INR].
  repeat constructor; cbn [flt]; apply Rltb_true; lra.
Qed.

Lemma sample_outside_domain_is_zero_witness :
  exists interp_func,
    Pchip.PchipInterpolator (rindex 3 (Fin 0.2)) (map Fin [5; 3; 1]%R)
    = Return interp_func /\
    nth_error (sample interp_func [Fin 0.5; Fin 0]) 1 = Some (Fin 0).
Proof.
  destruct (@sample_outside_domain_is_zero 3 0.2%R [5; 3; 1]%R)
    as (interp_func & Hbuilt & Hzero); [lia | lra | reflexivity |].
  exists interp_func. split; [exact Hbuilt|].
  apply (Hzero [Fin 0.5; Fin 0] 1%nat (Fin 0)); [reflexivity|].
  apply outside_below_first_midpoint.
Defined.



(** ** [StatisticalAnalyzer] *)

Lemma Rabs_bound (a b : R) : (Rabs a <= b)%R -> (- b <= a <= b)%R.
Proof. unfold Rabs. destruct (Rcase_abs a); lra. Qed.

Lemma underflow_threshold_lt_1 : (underflow_threshold < 1)%R.
Proof.
  pose proof underflow_threshold_small as Hu.
  pose proof (pow10_ge_1 303) as H10.
  assert (/ 10 ^ 303 <= 1)%R.
  { rewrite <- Rinv_1. apply Rinv_le_contravar; lra. }
  lra.
Qed.

(** The bound of a moderate sample leaves three orders of magnitude
    below the overflow threshold. *)
Lemma moderate_margin : (1 <= 10 ^ 300 /\ 1000 * 10 ^ 300 <= overflow_threshold)%R.
Proof.
  split; [apply pow10_ge_1|].
  assert (H3 : (10 ^ 3 = 1000)%R) by (simpl; lra).
  rewrite <- H3, <- pow_add. apply overflow_threshold_large.
Qed.

Lemma fold_Rmin_le (l : list R) (v : R) :
  (fold_left Rmin l v <= v)%R /\
  Forall (fun x => (fold_left Rmin l v <= x)%R) l /\
  In (fold_left Rmin l v) (v :: l).
Proof.
  revert v. induction l as [|x l IH]; intros v.
  - cbn. repeat split; [lra | constructor | auto].
  - cbn [fold_left]. destruct (IH (Rmin v x)) as (Hle & Hall & Hin).
    pose proof (Rmin_l v x). pose proof (Rmin_r v x).
    repeat split.
    + lra.
    + constructor; [lra | exact Hall].
    + destruct Hin as [Hin | Hin]; [|right; right; exact Hin].
      rewrite <- Hin. unfold Rmin. destruct (Rle_dec v x); [left | right; left];
        reflexivity.
Qed.

Lemma fold_Rmax_ge (l : list R) (v : R) :
  (v <= fold_left Rmax l v)%R /\
  Forall (fun x => (x <= fold_left Rmax l v)%R) l /\
  In (fold_left Rmax l v) (v :: l).
Proof.
  revert v. induction l as [|x l IH]; intros v.
  - cbn. repeat split; [lra | constructor | auto].
  - cbn [fold_left]. destruct (IH (Rmax v x)) as (Hle & Hall & Hin).
    pose proof (Rmax_l v x). pose proof (Rmax_r v x).
    repeat split.
    + lra.
    + constructor; [lra | exact Hall].
    + destruct Hin as [Hin | Hin]; [|right; right; exact Hin].
      rewrite <- Hin. unfold Rmax. destruct (Rle_dec v x); [right; left | left];
        reflexivity.
Qed.

Lemma return_eq {A} (a b : A) : Return a = Return b -> a = b.
Proof. congruence. Qed.

(** What the constructor leaves: the extremes are attained and bound
    every observation, [N] is their number, and the bin width is the
    quotient of Sturges' rule, in range. *)
Lemma init_extremes (data : list R) (name : String.string) (a : Analyzer) :
  __init__ data name = Return a ->
  graphic_values a = data /\ N a = length data /\ (1 <= N a)%nat /\
  In (x_min a) data /\ In (x_max a) data /\
  Forall (fun v => (x_min a <= v <= x_max a)%R) data /\
  h a = npdiv (npsub (Fin (x_max a)) (Fin (x_min a)))
              (Fin (1 + 3.322 * ln (INR (N a)))) /\
  computed a = None.
Proof.
  unfold __init__. destruct data as [|v l]; [discriminate|].
  cbn [np_min np_max bind]. intros H. apply return_eq in H. subst a.
  cbn [graphic_values N x_min x_max h computed].
  destruct (fold_Rmin_le l v) as (Hmin & Hmins & Hminin).
  destruct (fold_Rmax_ge l v) as (Hmax & Hmaxs & Hmaxin).
  repeat split; try assumption; try (cbn [length]; lia).
  constructor; [lra|].
  rewrite Forall_forall in *. intros x Hx.
  specialize (Hmins x Hx). specialize (Hmaxs x Hx). lra.
Qed.

Lemma init_computed_none data name a :
  __init__ data name = Return a -> computed a = None.
Proof. intros Ha. apply (init_extremes _ _ Ha). Qed.

Lemma sturges_denominator (n : nat) :
  (1 <= n)%nat -> (1 <= 1 + 3.322 * ln (INR n))%R.
Proof.
  intros Hn.
  assert (H1 : (1 <= INR n)%R).
  { replace 1%R with (INR 1) by reflexivity. apply le_INR. exact Hn. }
  assert (Hln : (0 <= ln (INR n))%R).
  { rewrite <- ln_1. destruct H1 as [Hlt | <-]; [|lra].
    apply Rlt_le. apply ln_increasing; lra. }
  lra.
Qed.

Lemma ln_2_lt_1 : (ln 2 < 1)%R.
Proof.
  rewrite <- (ln_exp 1). apply ln_increasing; [lra|].
  pose proof (exp_ineq1 1). lra.
Qed.

(** The length of an array is an index: the denominator of Sturges'
    rule stays below 211. *)
Lemma sturges_denominator_bound (n : nat) :
  (1 <= n)%nat -> (Z.of_nat n < 2 ^ 63)%Z ->
  (1 + 3.322 * ln (INR n) < 211)%R.
Proof.
  intros Hn Hlt.
  assert (H1 : (1 <= INR n)%R).
  { replace 1%R with (INR 1) by reflexivity. apply le_INR. exact Hn. }
  assert (Hn63 : (INR n < 2 ^ 63)%R).
  { rewrite INR_IZR_INZ, (pow_IZR 2 63). apply IZR_lt. exact Hlt. }
  assert (Hln : (ln (INR n) < INR 63 * ln 2)%R).
  { rewrite <- ln_pow by lra. apply ln_increasing; lra. }
  rewrite (INR_IZR_INZ 63) in Hln. change (Z.of_nat 63) with 63%Z in Hln.
  pose proof ln_2_lt_1. pose proof ln_lt_2. lra.
Qed.

Lemma fdiv_PInf_positive (b : R) : (0 < b)%R -> fdiv PInf (Fin b) = PInf.
Proof.
  intros Hb. unfold fdiv. cbn [fsign].
  destruct (Rlt_dec b 0); [lra | reflexivity].
Qed.

Lemma fmul_PInf_positive (b : R) : (0 < b)%R -> fmul PInf (Fin b) = PInf.
Proof.
  intros Hb. unfold fmul. cbn [fsign].
  destruct (Rlt_dec 0 b); [reflexivity | lra].
Qed.

(** The bin width the constructor computes: infinite when the distance
    between the extremes is out of range, zero when the quotient
    underflows, else the quotient. *)
Lemma bin_width (data : list R) (name : String.string) (a : Analyzer) :
  __init__ data name = Return a ->
  (0 <= x_max a + - x_min a)%R /\
  (0 <= (x_max a + - x_min a) / (1 + 3.322 * ln (INR (N a)))
     <= x_max a + - x_min a)%R /\
  h a = if overflows (x_max a + - x_min a) then PInf
        else if vanishes ((x_max a + - x_min a)
                          / (1 + 3.322 * ln (INR (N a))))
             then Fin 0
             else Fin ((x_max a + - x_min a)
                       / (1 + 3.322 * ln (INR (N a)))).
Proof.
  intros Ha.
  destruct (init_extremes _ _ Ha) as (_ & _ & HN & Hmin & _ & Hall & Hh & _).
  pose proof (sturges_denominator HN) as HD.
  rewrite Forall_forall in Hall. pose proof (Hall _ Hmin) as Hrange.
  rewrite Hh. clear Hh.
  set (D := (1 + 3.322 * ln (INR (N a)))%R) in *.
  set (range := (x_max a + - x_min a)%R).
  assert (Hr0 : (0 <= range)%R) by (unfold range; lra).
  assert (Hinv : (0 < / D <= 1)%R).
  { split; [apply Rinv_0_lt_compat; lra|].
    rewrite <- Rinv_1. apply Rinv_le_contravar; lra. }
  assert (Hw : (0 <= range / D <= range)%R).
  { unfold Rdiv. split; [apply Rmult_le_pos; lra|]. nra. }
  split; [exact Hr0|]. split; [exact Hw|].
  unfold npdiv, npsub, fsub. cbn [fopp fadd]. fold range.
  unfold clip at 1. destruct (overflows range) eqn:Hov.
  - pose proof moderate_margin as [HB Hthr].
    apply Rleb_true in Hov. rewrite Rabs_right in Hov by lra.
    assert (Hpos : Rltb 0 range = true) by (apply Rltb_true; lra).
    rewrite Hpos. cbn [inf_of].
    rewrite fdiv_PInf_positive by lra. reflexivity.
  - apply Rleb_false in Hov. rewrite Rabs_right in Hov by lra.
    rewrite fdiv_finite by lra. unfold rnd.
    rewrite clip_in_range by (rewrite Rabs_right; lra).
    reflexivity.
Qed.

(** The bin width is never negative. *)
Lemma bin_width_nonnegative (data : list R) (name : String.string)
      (a : Analyzer) :
  __init__ data name = Return a -> fle (Fin 0) (h a) = true.
Proof.
  intros Ha. destruct (bin_width _ _ Ha) as (_ & [Hw _] & ->).
  destruct (overflows _); [reflexivity|].
  destruct (vanishes _); cbn [fle]; apply Rleb_true; lra.
Qed.

Lemma positive_guard (x : float64) :
  fgt x (Fin 0) = true -> fle x (Fin 0) = false.
Proof.
  unfold fgt. destruct x as [r| | |]; cbn [flt fle]; try discriminate;
    try reflexivity.
  intros H. apply Rltb_true in H. apply Rleb_false. exact H.
Qed.

(** On a moderate sample a positive bin width is the exact quotient of
    Sturges' rule. *)
Lemma positive_bin_width (data : list R) (name : String.string)
      (a : Analyzer) :
  __init__ data name = Return a -> moderate_sample data ->
  fgt (h a) (Fin 0) = true ->
  exists hr,
    h a = Fin hr /\
    (hr * (1 + 3.322 * ln (INR (N a))) = x_max a + - x_min a)%R /\
    (underflow_threshold < hr <= 2 * 10 ^ 300)%R /\
    (Rabs (x_min a) <= 10 ^ 300)%R /\ (Rabs (x_max a) <= 10 ^ 300)%R /\
    (1 <= 1 + 3.322 * ln (INR (N a)) < 211)%R.
Proof.
  intros Ha [Hmod Hlen] Hpos.
  destruct (init_extremes _ _ Ha) as (_ & HNl & HN & Hmin & Hmax & _).
  destruct (bin_width _ _ Ha) as (Hr0 & [Hw0 Hw1] & Hh).
  pose proof (sturges_denominator HN) as HD1.
  assert (HD : (1 + 3.322 * ln (INR (N a)) < 211)%R).
  { apply sturges_denominator_bound; [exact HN|]. rewrite HNl. exact Hlen. }
  rewrite Forall_forall in Hmod.
  pose proof (Hmod _ Hmin) as Hbmin. pose proof (Hmod _ Hmax) as Hbmax.
  cbv beta in Hbmin, Hbmax.
  pose proof (@Rabs_bound _ _ Hbmin) as Hmin2.
  pose proof (@Rabs_bound _ _ Hbmax) as Hmax2.
  pose proof moderate_margin as [HB Hthr].
  set (D := (1 + 3.322 * ln (INR (N a)))%R) in *.
  set (range := (x_max a + - x_min a)%R) in *.
  assert (Hov : overflows range = false).
  { apply overflows_false. rewrite Rabs_right by lra. unfold range. lra. }
  rewrite Hov in Hh.
  destruct (vanishes (range / D)) eqn:Hv.
  - rewrite Hh in Hpos. unfold fgt in Hpos. cbn [flt] in Hpos.
    apply Rltb_true in Hpos. lra.
  - exists (range / D)%R. split; [exact Hh|].
    split; [field; lra|].
    apply Rleb_false in Hv. rewrite Rabs_right in Hv by lra.
    split; [split; [exact Hv | unfold range in *; lra]|].
    repeat split; assumption || lra.
Qed.

(** [Rceil] is the ceiling. *)
Lemma Rceil_bounds (x : R) :
  (IZR (Arr.Rceil x) - 1 < x <= IZR (Arr.Rceil x))%R.
Proof.
  unfold Arr.Rceil. rewrite minus_IZR.
  destruct (archimed (- x)) as [Hgt Hle]. lra.
Qed.

Lemma INR_to_nat (z : Z) : (0 <= z)%Z -> INR (Z.to_nat z) = IZR z.
Proof. intros Hz. rewrite INR_IZR_INZ, Z2Nat.id by exact Hz. reflexivity. Qed.

Lemma index_limit (z : Z) :
  (0 <= z <= 1000)%Z -> Z.leb (2 ^ 63) z || Z.ltb z (- 2 ^ 63) = false.
Proof.
  intros Hz. apply orb_false_iff.
  split; [apply Z.leb_gt | apply Z.ltb_ge]; lia.
Qed.

Lemma nondecreasing_arithmetic (start step : R) (n : nat) :
  (0 <= step)%R ->
  nondecreasing (map (fun i => (start + INR i * step)%R) (seq 0 n)).
Proof.
  intros Hstep. unfold nondecreasing.
  eapply Forall_impl; [|apply (diff_arithmetic _ (step := step))].
  - intros dx <-. exact Hstep.
  - intros i. rewrite S_INR. lra.
Qed.

(** The bin edges of a moderate sample with a positive bin width: at
    least three of them, written exactly, from a first edge at or below
    the minimum. *)
Lemma moderate_bins (data : list R) (name : String.string) (a : Analyzer) :
  __init__ data name = Return a -> moderate_sample data ->
  fgt (h a) (Fin 0) = true ->
  exists (hr s : R) (n : nat),
    h a = Fin hr /\ (0 < hr)%R /\ (3 <= n)%nat /\ (s <= x_min a)%R /\
    Arr.arange_np (npsub (Fin (x_min a)) (npdiv (h a) (Fin 2)))
                  (npadd (Fin (x_max a)) (npmul (h a) (Fin 1.5))) (h a)
    = Return (map (fun i => Fin (s + INR i * hr)) (seq 0 n)).
Proof.
  intros Ha Hmod Hpos.
  destruct (@positive_bin_width _ _ _ Ha Hmod Hpos)
    as (hr & Hh & Hspan & [Hlo Hhi] & Hxmin & Hxmax & [HD1 HD]).
  pose proof moderate_margin as [HB Hthr].
  pose proof underflow_threshold_pos as Hu0.
  pose proof underflow_threshold_lt_1 as Hu1.
  apply (@Rabs_bound _ _) in Hxmin. apply (@Rabs_bound _ _) in Hxmax.
  set (D := (1 + 3.322 * ln (INR (N a)))%R) in *.
  set (B := (10 ^ 300)%R) in *.
  assert (Hhr : (0 < hr)%R) by lra.
  assert (He : exists e,
             npdiv (Fin hr) (Fin 2) = Fin e /\ (0 <= e <= hr / 2)%R).
  { unfold npdiv. rewrite (fdiv_finite _ two_nonzero).
    destruct (rnd_below_threshold (hr / 2)) as [Hr | [Hr _]].
    - rewrite Rabs_right by lra. lra.
    - exists (hr / 2)%R. split; [exact Hr | lra].
    - exists 0%R. split; [exact Hr | lra]. }
  destruct He as (e & He & He0).
  set (s := (x_min a + - e)%R).
  assert (Hstart : npsub (Fin (x_min a)) (Fin e) = Fin s).
  { unfold npsub, fsub. cbn [fopp fadd]. apply clip_in_range.
    apply Rle_lt_trans with (3 * B)%R; [apply Rabs_le; unfold s; lra | lra]. }
  assert (Hmul : npmul (Fin hr) (Fin 1.5) = Fin (hr * 1.5)).
  { unfold npmul. cbn [fmul]. apply rnd_in_range.
    rewrite Rabs_right by lra. lra. }
  assert (Hstop : npadd (Fin (x_max a)) (Fin (hr * 1.5))
                  = Fin (x_max a + hr * 1.5)).
  { unfold npadd. cbn [fadd]. apply clip_in_range.
    apply Rle_lt_trans with (4 * B)%R; [apply Rabs_le; lra | lra]. }
  assert (Hsp : npsub (Fin (x_max a + hr * 1.5)) (Fin s)
                = Fin (x_max a + hr * 1.5 + - s)).
  { unfold npsub, fsub. cbn [fopp fadd]. apply clip_in_range.
    apply Rle_lt_trans with (7 * B)%R; [apply Rabs_le; unfold s; lra | lra]. }
  set (q := ((x_max a + hr * 1.5 + - s) / hr)%R).
  assert (Hq : (q = D + 1.5 + e / hr)%R).
  { unfold q, s.
    replace (x_max a + hr * 1.5 + - (x_min a + - e))%R
      with (hr * D + hr * 1.5 + e)%R by lra.
    field. lra. }
  assert (Heh : (0 <= e / hr <= / 2)%R).
  { unfold Rdiv. split.
    - apply Rmult_le_pos; [lra | apply Rlt_le, Rinv_0_lt_compat; lra].
    - apply Rmult_le_reg_r with hr; [lra|].
      rewrite Rmult_assoc, Rinv_l by lra. lra. }
  assert (Hq2 : (2.5 <= q <= 213)%R) by lra.
  assert (Hquot : npdiv (Fin (x_max a + hr * 1.5 + - s)) (Fin hr) = Fin q).
  { unfold npdiv. rewrite fdiv_finite by lra. apply rnd_in_range.
    rewrite Rabs_right by lra. split; lra. }
  assert (Hq0 : Reqb q 0 = false).
  { unfold Reqb. destruct (Req_dec_T q 0); [lra | reflexivity]. }
  destruct (Rceil_bounds q) as [Hc1 Hc2].
  assert (Hc : (3 <= Arr.Rceil q <= 213)%Z).
  { split.
    - assert (H : (IZR 2 < IZR (Arr.Rceil q))%R) by lra.
      apply lt_IZR in H. lia.
    - assert (H : (IZR (Arr.Rceil q) < IZR 214)%R) by lra.
      apply lt_IZR in H. lia. }
  exists hr, s, (Z.to_nat (Arr.Rceil q)).
  split; [exact Hh|]. split; [exact Hhr|]. split; [lia|].
  split; [unfold s; lra|].
  rewrite Hh. unfold Arr.arange_np. cbv zeta.
  rewrite He, Hstart, Hmul, Hstop, Hsp, Hquot, Hq0. cbn [andb].
  rewrite index_limit by lia.
  f_equal. apply map_ext_in. intros i Hi. apply in_seq in Hi.
  assert (Hnext : npadd (Fin s) (Fin hr) = Fin (s + hr)).
  { unfold npadd. cbn [fadd]. apply clip_in_range.
    apply Rle_lt_trans with (5 * B)%R; [apply Rabs_le; unfold s; lra | lra]. }
  destruct i as [|[|i]]; cbv beta iota.
  - f_equal. cbn [INR]. lra.
  - rewrite Hnext. f_equal. cbn [INR]. lra.
  - rewrite Hnext.
    assert (Hdelta : npsub (Fin (s + hr)) (Fin s) = Fin hr).
    { unfold npsub, fsub. cbn [fopp fadd]. rewrite clip_in_range.
      - f_equal. lra.
      - replace (s + hr + - s)%R with hr by lra.
        rewrite Rabs_right by lra. lra. }
    rewrite Hdelta.
    remember (S (S i)) as k eqn:Ek.
    assert (Hk : (2 <= INR k <= 213)%R).
    { split.
      - replace 2%R with (INR 2) by (simpl; lra). apply le_INR. lia.
      - apply Rle_trans with (INR (Z.to_nat (Arr.Rceil q))).
        + apply le_INR. lia.
        + rewrite INR_to_nat by lia. apply IZR_le. lia. }
    assert (Hprod : (2 * hr <= INR k * hr <= 213 * (2 * B))%R).
    { split.
      - apply Rmult_le_compat_r; lra.
      - apply Rmult_le_compat; lra. }
    unfold npmul, of_nat. cbn [fmul]. rewrite rnd_in_range.
    + unfold npadd. cbn [fadd]. apply clip_in_range.
      apply Rle_lt_trans with (500 * B)%R;
        [apply Rabs_le; unfold s; lra | lra].
    + rewrite Rabs_right by lra. split; lra.
Qed.

Lemma last_slice_cons {A} (e : A) (tl : list A) :
  tl <> [] -> last_slice (e :: tl) = last_slice tl.
Proof.
  intros Hne. unfold last_slice. cbn [rev].
  destruct (rev tl) as [|x r] eqn:Hr; [|reflexivity].
  apply (f_equal (@rev A)) in Hr. rewrite rev_involutive in Hr.
  contradiction.
Qed.

Lemma cumulative_cons2 a e e' tl :
  cumulative a (e :: e' :: tl)
  = count (fun v => Rltb v e) a :: cumulative a (e' :: tl).
Proof. reflexivity. Qed.

(** On finite edges the two binary searches count the observations
    below each edge, and up to the last one. *)
Lemma searchsorted_finite (a bs : list R) :
  map (fun e => count (below e) a) (removelast (map Fin bs))
  ++ map (fun e => count (upto e) a) (last_slice (map Fin bs))
  = cumulative a bs.
Proof.
  induction bs as [|e [|e' tl] IH]; [reflexivity | reflexivity |].
  change (map Fin (e :: e' :: tl)) with (Fin e :: map Fin (e' :: tl)).
  rewrite last_slice_cons by discriminate.
  change (removelast (Fin e :: map Fin (e' :: tl)))
    with (Fin e :: removelast (map Fin (e' :: tl))).
  cbn [map app]. cbn [map] in IH. rewrite IH. reflexivity.
Qed.

Lemma no_decreasing_pair (bs : list R) :
  nondecreasing bs ->
  existsb (fun p => fgt (fst p) (snd p))
          (combine (removelast (map Fin bs)) (tl (map Fin bs))) = false.
Proof.
  induction bs as [|x0 [|x1 bs] IH]; intros Hinc; try reflexivity.
  unfold nondecreasing in Hinc. rewrite diff_cons2 in Hinc.
  inversion Hinc as [|? ? H01 Hrest]; subst.
  change (existsb (fun p => fgt (fst p) (snd p))
            ((Fin x0, Fin x1)
               :: combine (removelast (map Fin (x1 :: bs)))
                          (tl (map Fin (x1 :: bs)))) = false).
  cbn [existsb fst snd]. rewrite (IH Hrest), orb_false_r.
  unfold fgt. cbn [flt]. apply Rltb_false. lra.
Qed.

Lemma histogram_finite (a bs : list R) :
  nondecreasing bs ->
  histogram a (map Fin bs) = Return (Zdiff (cumulative a bs), map Fin bs).
Proof.
  intros Hinc. unfold histogram.
  rewrite (no_decreasing_pair Hinc), searchsorted_finite. reflexivity.
Qed.

(** [calculate] on a moderate sample with a positive bin width: past the
    guard, with the bin edges [s + i * hr] and their histogram. *)
Ltac run_calculate Ha Hmod Hpos :=
  let hr := fresh "hr" in
  let s := fresh "s" in
  let n := fresh "n" in
  let Hh := fresh "Hh" in
  let Hhr := fresh "Hhr" in
  let Hn := fresh "Hn" in
  let Hs := fresh "Hs" in
  let Hbins := fresh "Hbins" in
  destruct (@moderate_bins _ _ _ Ha Hmod Hpos)
    as (hr & s & n & Hh & Hhr & Hn & Hs & Hbins);
  unfold calculate; rewrite (positive_guard _ Hpos); cbv zeta;
  rewrite Hbins; cbn [bind];
  rewrite <- (map_map (fun i => (s + INR i * hr)%R) Fin);
  rewrite (histogram_finite _
             (nondecreasing_arithmetic s n (Rlt_le _ _ Hhr)));
  cbn [bind].

(** Equal extremes give the bin width 0. *)
Lemma zero_bin_width (v D : R) :
  (1 <= D)%R -> npdiv (npsub (Fin v) (Fin v)) (Fin D) = Fin 0.
Proof.
  intros HD. pose proof moderate_margin as [HB Hthr].
  unfold npsub, fsub. cbn [fopp fadd]. replace (v + - v)%R with 0%R by lra.
  rewrite clip_in_range by (rewrite Rabs_R0; lra).
  unfold npdiv. rewrite fdiv_finite by lra.
  unfold Rdiv. rewrite Rmult_0_l. apply rnd_zero.
Qed.

Lemma init_constant_analyzer :
  __init__ [2; 2; 2]%R "Current Scheme"%string = Return constant_analyzer.
Proof.
  unfold __init__, np_min, np_max. cbn [bind fold_left length].
  rewrite !(Rmin_left 2 2) by lra. rewrite !(Rmax_left 2 2) by lra.
  rewrite zero_bin_width by (apply sturges_denominator; lia).
  reflexivity.
Qed.

Lemma constant_analyzer_h : fle (h constant_analyzer) (Fin 0) = true.
Proof. cbn [h constant_analyzer fle]. apply Rleb_true. lra. Qed.

(** C8 (as stated, refuted): for three identical observations the bin
    width is 0, and [calculate] returns normally -- no error of any
    kind -- handing back the analyzer as it was, with no result
    attribute and nothing that marks the analysis as not computable. *)
Lemma calculate_constant_sample_returns :
  __init__ [2; 2; 2]%R "Current Scheme"%string = Return constant_analyzer /\
  fle (h constant_analyzer) (Fin 0) = true /\
  ~ raises (calculate nan_stats constant_analyzer) /\
  calculate nan_stats constant_analyzer = Return constant_analyzer /\
  computed constant_analyzer = None.
Proof.
  assert (Hcalc : calculate nan_stats constant_analyzer
                  = Return constant_analyzer).
  { unfold calculate. rewrite constant_analyzer_h. reflexivity. }
  repeat split.
  - exact init_constant_analyzer.
  - exact constant_analyzer_h.
  - intros [e He]. rewrite Hcalc in He. discriminate He.
  - exact Hcalc.
Qed.

(** C8 (amended): whenever the Sturges bin width is [<= 0], [calculate]
    skips the whole analysis by returning at once: it raises no error,
    and the analyzer comes back unchanged, without histogram,
    descriptive statistics, confidence intervals or fit results. *)
Theorem calculate_skips_degenerate_sample :
  forall (stats : scipy_stats) (data : list R) (name : String.string)
         (a : Analyzer),
    __init__ data name = Return a -> fle (h a) (Fin 0) = true ->
    calculate stats a = Return a /\ computed a = None.
Proof.
  intros stats data name a Ha Hh. split.
  - unfold calculate. rewrite Hh. reflexivity.
  - apply (init_computed_none _ _ Ha).
Qed.

Lemma calculate_skips_degenerate_sample_witness :
  calculate nan_stats constant_analyzer = Return constant_analyzer /\
  computed constant_analyzer = None.
Proof.
  apply (@calculate_skips_degenerate_sample nan_stats _ _ _
           init_constant_analyzer).
  exact constant_analyzer_h.
Defined.

(** *** Goodness-of-fit decisions *)

Lemma decision_accepted (p alpha : float64) :
  decision p alpha = "Accepted"%string <-> fge p alpha = true.
Proof.
  unfold decision. destruct (fge p alpha); split; intros H;
    try reflexivity; discriminate H.
Qed.

Lemma decision_rejected (p alpha : float64) :
  decision p alpha = "Rejected"%string <-> fge p alpha = false.
Proof.
  unfold decision. destruct (fge p alpha); split; intros H;
    try reflexivity; discriminate H.
Qed.

Lemma decision_nan (alpha : float64) : decision NaN alpha = "Rejected"%string.
Proof. unfold decision, fge, fle. destruct alpha; reflexivity. Qed.

(** What [_run_pearson_tests] assigns: for each test the statistic of
    the merged bins ([nan] when too few remain), the right tail of the
    chi-square distribution at it, and the decision on that p-value. *)
Lemma run_pearson_tests_results (stats : scipy_stats) (N : nat)
      (ni_values : list Z) (edges : list float64) (m o alpha : float64) :
  let r := _run_pearson_tests stats N ni_values edges m o alpha in
  let normal :=
    Merge._merge_intervals ni_values
      (expected_counts (fun x => norm_cdf stats x m o) N edges) in
  let exponential :=
    Merge._merge_intervals ni_values
      (expected_counts
         (fun x => expon_cdf stats x (fdiv (Fin 1) (fdiv (Fin 1) m)))
         N edges) in
  r_chi2_n r = statistic 3 normal /\
  r_p_n r = right_tail stats 3 normal /\
  r_res_n r = decision (r_p_n r) alpha /\
  r_chi2_e r = statistic 2 exponential /\
  r_p_e r = right_tail stats 2 exponential /\
  r_res_e r = decision (r_p_e r) alpha.
Proof.
  unfold _run_pearson_tests, statistic, right_tail.
  destruct (Merge._merge_intervals ni_values
              (expected_counts (fun x => norm_cdf stats x m o) N edges))
    as [obs exp].
  destruct (Merge._merge_intervals ni_values
              (expected_counts
                 (fun x => expon_cdf stats x (fdiv (Fin 1) (fdiv (Fin 1) m)))
                 N edges))
    as [obs_e exp_e].
  cbn [fst snd r_res_n r_res_e r_p_n r_p_e r_chi2_n r_chi2_e].
  repeat split.
Qed.

Lemma statistic_undefined (k : nat) (merged : list Z * list float64) :
  (length (snd merged) < k)%nat -> statistic k merged = NaN.
Proof.
  intros Hl. unfold statistic.
  destruct (Nat.leb_spec k (length (snd merged))); [lia | reflexivity].
Qed.

Lemma init_wide_analyzer :
  __init__ wide_sample "Current Scheme"%string = Return wide_analyzer.
Proof.
  pose proof (pow2_ge_1 1023) as Hp.
  unfold __init__, np_min, np_max, wide_sample. cbn [bind fold_left length].
  rewrite Rmin_left by lra. rewrite Rmax_right by lra.
  assert (Hh : npdiv (npsub (Fin (2 ^ 1023)) (Fin (- (2 ^ 1023))))
                     (Fin (1 + 3.322 * ln (INR 2))) = PInf).
  { pose proof (@sturges_denominator 2 ltac:(lia)) as HD.
    unfold npsub, fsub. cbn [fopp fadd]. unfold clip.
    rewrite overflows_true.
    - assert (Hs : Rltb 0 (2 ^ 1023 + - - (2 ^ 1023)) = true)
        by (apply Rltb_true; lra).
      rewrite Hs. cbn [inf_of]. unfold npdiv.
      rewrite fdiv_PInf_positive by lra. reflexivity.
    - rewrite Rabs_right by lra.
      destruct overflow_threshold_bounds as [_ Hhi].
      rewrite <- tech_pow_Rmult in Hhi. lra. }
  rewrite Hh. reflexivity.
Qed.

Lemma calculate_wide_analyzer (stats : scipy_stats) :
  calculate stats wide_analyzer = Raise ValueError.
Proof.
  unfold calculate. cbn [h wide_analyzer x_min x_max fle]. cbv zeta.
  assert (H2 : npdiv PInf (Fin 2) = PInf).
  { unfold npdiv. rewrite fdiv_PInf_positive by lra. reflexivity. }
  assert (H15 : npmul PInf (Fin 1.5) = PInf).
  { unfold npmul. rewrite fmul_PInf_positive by lra. reflexivity. }
  unfold Arr.arange_np. cbv zeta. rewrite H2, H15. reflexivity.
Qed.

(** C9 (as stated, refuted): two observations at the two ends of the
    range of a double have a positive bin width -- their distance is
    out of range, and the width is [inf] -- and [calculate] does not
    complete: [np.arange] cannot compute its length and raises
    [ValueError], whatever [scipy.stats] computes. *)
Lemma calculate_wide_sample_raises :
  __init__ wide_sample "Current Scheme"%string = Return wide_analyzer /\
  fgt (h wide_analyzer) (Fin 0) = true /\
  calculate zero_stats wide_analyzer = Raise ValueError /\
  calculate nan_stats wide_analyzer = Raise ValueError.
Proof.
  split; [exact init_wide_analyzer|]. split; [reflexivity|].
  split; apply calculate_wide_analyzer.
Qed.

(** C9 (amended): for a sample of observations of magnitude at most
    [1e300] with positive bin width, [calculate] completes, and each
    goodness-of-fit test -- Normal, and Exponential with rate
    [1 / mean], i.e. scale [1 / (1 / m)] -- yields the right-tail
    p-value [1 - chi2.cdf(statistic, df)] of Pearson's sum over the
    merged bins, with [df = max(1, bins - 3)] resp. [max(1, bins - 2)],
    and a decision that is "Accepted" exactly when that p-value is
    [>= 0.05] and "Rejected" otherwise; when fewer than 3 resp. 2
    merged bins remain the statistic is [nan]. *)
Theorem calculate_decides_both_tests :
  forall (stats : scipy_stats) (data : list R) (name : String.string)
         (a : Analyzer),
    __init__ data name = Return a -> moderate_sample data ->
    fgt (h a) (Fin 0) = true ->
    exists s,
      calculate stats a
      = Return (mk_analyzer (graphic_values a) (model_name a) (N a)
                            (x_min a) (x_max a) (h a) (Some s)) /\
      let normal :=
        Merge._merge_intervals (ni_values s)
                               (expected_normal stats (N a) s) in
      let exponential :=
        Merge._merge_intervals (ni_values s)
                               (expected_exponential stats (N a) s) in
      m s = fdiv (fsum (map2 (fun x n => fmul x (of_Z n))
                             (xi_values s) (ni_values s)))
                 (of_nat (N a)) /\
      o s = fsqrt (d s) /\
      chi2_n s = statistic 3 normal /\
      p_n s = right_tail stats 3 normal /\
      chi2_e s = statistic 2 exponential /\
      p_e s = right_tail stats 2 exponential /\
      (res_n s = "Accepted"%string <-> fge (p_n s) (Fin 0.05) = true) /\
      (res_n s = "Rejected"%string <-> fge (p_n s) (Fin 0.05) = false) /\
      (res_e s = "Accepted"%string <-> fge (p_e s) (Fin 0.05) = true) /\
      (res_e s = "Rejected"%string <-> fge (p_e s) (Fin 0.05) = false) /\
      ((length (snd normal) < 3)%nat -> chi2_n s = NaN) /\
      ((length (snd exponential) < 2)%nat -> chi2_e s = NaN).
Proof.
  intros stats data name a Ha Hmod Hpos.
  run_calculate Ha Hmod Hpos.
  match goal with
  | |- context [_run_pearson_tests ?st ?n ?ni ?ed ?m ?o ?al] =>
      pose proof (@run_pearson_tests_results st n ni ed m o al) as Hr;
      set (r := _run_pearson_tests st n ni ed m o al) in *
  end.
  cbv zeta in Hr. destruct Hr as (Hcn & Hpn & Hrn & Hce & Hpe & Hre).
  eexists. split; [rewrite Hh; reflexivity|].
  cbn [res_n res_e p_n p_e chi2_n chi2_e ni_values xi_values edges m d o
       expected_normal expected_exponential].
  split; [reflexivity|]. split; [reflexivity|].
  split; [exact Hcn|]. split; [exact Hpn|].
  split; [exact Hce|]. split; [exact Hpe|].
  rewrite Hrn, Hre.
  split; [apply decision_accepted|].
  split; [apply decision_rejected|].
  split; [apply decision_accepted|].
  split; [apply decision_rejected|].
  split; intros Hfew; [rewrite Hcn | rewrite Hce];
    apply statistic_undefined; exact Hfew.
Qed.

Lemma init_skewed_analyzer :
  __init__ skewed_sample "Current Scheme"%string = Return skewed_analyzer.
Proof.
  unfold __init__, np_min, np_max, skewed_sample.
  cbn [bind fold_left length].
  rewrite !(Rmin_left 1 1) by lra. rewrite (Rmin_left 1 2) by lra.
  rewrite !(Rmax_left 1 1) by lra. rewrite (Rmax_right 1 2) by lra.
  assert (Hh : npdiv (npsub (Fin 2) (Fin 1)) (Fin (1 + 3.322 * ln (INR 10)))
               = Fin ((2 + - (1)) / (1 + 3.322 * ln (INR 10)))).
  { pose proof (@sturges_denominator 10 ltac:(lia)) as HD1.
    pose proof (@sturges_denominator_bound 10 ltac:(lia) eq_refl) as HD.
    pose proof moderate_margin as [HB Hthr].
    pose proof underflow_threshold_small as Hu.
    set (D := (1 + 3.322 * ln (INR 10))%R) in *.
    assert (HinvD : (/ 211 < / D <= 1)%R).
    { split.
      - apply Rinv_lt_contravar; [nra | lra].
      - rewrite <- Rinv_1. apply Rinv_le_contravar; lra. }
    assert (H303 : (/ 10 ^ 303 <= / 211)%R).
    { apply Rinv_le_contravar; [lra|].
      apply Rle_trans with (10 ^ 3)%R; [simpl; lra|].
      apply Rle_pow; [lra | lia]. }
    unfold npsub, fsub. cbn [fopp fadd].
    rewrite clip_in_range by (rewrite Rabs_right; lra).
    unfold npdiv. rewrite fdiv_finite by lra.
    apply rnd_in_range. unfold Rdiv. rewrite Rabs_right by nra.
    split; nra. }
  rewrite Hh. reflexivity.
Qed.

Lemma skewed_analyzer_h : fgt (h skewed_analyzer) (Fin 0) = true.
Proof.
  cbn [h skewed_analyzer]. unfold fgt. cbn [flt]. apply Rltb_true.
  pose proof (@sturges_denominator 10 ltac:(lia)) as HD.
  apply Rdiv_lt_0_compat; lra.
Qed.

Lemma skewed_sample_moderate : moderate_sample skewed_sample.
Proof.
  assert (H10 : (10 <= 10 ^ 300)%R).
  { rewrite <- (pow_1 10) at 1. apply Rle_pow; [lra | lia]. }
  split; [|reflexivity].
  unfold skewed_sample.
  repeat (apply Forall_cons; [rewrite Rabs_right by lra; lra|]).
  apply Forall_nil.
Qed.

Lemma calculate_decides_both_tests_witness :
  (exists s,
     calculate zero_stats skewed_analyzer
     = Return (mk_analyzer skewed_sample "Current Scheme"%string 10 1 2
                           (h skewed_analyzer) (Some s)) /\
     fge (p_n s) (Fin 0.05) = true /\ res_n s = "Accepted"%string /\
     fge (p_e s) (Fin 0.05) = true /\ res_e s = "Accepted"%string) /\
  (exists s,
     calculate nan_stats skewed_analyzer
     = Return (mk_analyzer skewed_sample "Current Scheme"%string 10 1 2
                           (h skewed_analyzer) (Some s)) /\
     p_n s = NaN /\ res_n s = "Rejected"%string /\
     p_e s = NaN /\ res_e s = "Rejected"%string).
Proof.
  split.
  - destruct (@calculate_decides_both_tests zero_stats _ _ _
                init_skewed_analyzer skewed_sample_moderate
                skewed_analyzer_h)
      as (s & Hrun & Hrest).
    cbv zeta in Hrest.
    destruct Hrest
      as (_ & _ & _ & Hpn & _ & Hpe & Han & _ & Hae & _).
    unfold right_tail in Hpn, Hpe. cbn [chi2_cdf zero_stats] in Hpn, Hpe.
    assert (Hn : fge (p_n s) (Fin 0.05) = true).
    { rewrite Hpn. unfold fge. cbn [fsub fopp fadd fle].
      apply Rleb_true. lra. }
    assert (He : fge (p_e s) (Fin 0.05) = true).
    { rewrite Hpe. unfold fge. cbn [fsub fopp fadd fle].
      apply Rleb_true. lra. }
    exists s. split; [exact Hrun|].
    split; [exact Hn|]. split; [apply Han; exact Hn|].
    split; [exact He|]. apply Hae. exact He.
  - destruct (@calculate_decides_both_tests nan_stats _ _ _
                init_skewed_analyzer skewed_sample_moderate
                skewed_analyzer_h)
      as (s & Hrun & Hrest).
    cbv zeta in Hrest.
    destruct Hrest
      as (_ & _ & _ & Hpn & _ & Hpe & _ & Hrn & _ & Hre & _).
    unfold right_tail in Hpn, Hpe. cbn [chi2_cdf nan_stats] in Hpn, Hpe.
    exists s. split; [exact Hrun|].
    split; [exact Hpn|]. split; [apply Hrn; rewrite Hpn; reflexivity|].
    split; [exact Hpe|]. apply Hre. rewrite Hpe. reflexivity.
Defined.

(** *** Boundary cases of the model *)

(** An empty sample has no minimum: the constructor raises. *)
Lemma init_empty_sample (name : String.string) :
  __init__ [] name = Raise ValueError.
Proof. reflexivity. Qed.

(** A single observation gives the bin width 0. *)
Lemma init_single_observation (v : R) (name : String.string) :
  exists a, __init__ [v] name = Return a /\ h a = Fin 0.
Proof.
  eexists. split; [reflexivity|].
  cbn [h fold_left length]. apply zero_bin_width.
  apply sturges_denominator. lia.
Qed.

(** When the chi-square distribution function hands [nan] through, as
    scipy's does, an undefined statistic is always rejected. *)
Lemma undefined_statistic_is_rejected (stats : scipy_stats) (N : nat)
      (ni_values : list Z) (edges : list float64) (m o alpha : float64) :
  (forall df, chi2_cdf stats NaN df = NaN) ->
  (length (snd (Merge._merge_intervals ni_values
                  (expected_counts (fun x => norm_cdf stats x m o) N edges)))
   < 3)%nat ->
  r_res_n (_run_pearson_tests stats N ni_values edges m o alpha)
  = "Rejected"%string.
Proof.
  intros Hnan Hfew.
  destruct (run_pearson_tests_results stats N ni_values edges m o alpha)
    as (_ & Hp & Hres & _).
  rewrite Hres, Hp. unfold right_tail.
  rewrite (@statistic_undefined 3 _ Hfew), Hnan. apply decision_nan.
Qed.

(* ================================================================== *)
(** * Further properties *)

(** ** [_merge_intervals]: what is kept *)

Lemma Zsum_app (a b : list Z) : Zsum (a ++ b) = (Zsum a + Zsum b)%Z.
Proof.
  unfold Zsum. induction a as [|x a IH]; cbn [app fold_right]; [lia|].
  rewrite IH. lia.
Qed.

Lemma fadd_positive (c e : float64) :
  c = Fin 0 \/ positive c -> positive e -> positive (fadd c e).
Proof.
  unfold positive, fgt. intros [-> | Hc] He.
  - rewrite fadd_0_l. exact He.
  - destruct c, e; cbn in *; try discriminate; try reflexivity.
    apply Rltb_true in Hc, He. apply Rltb_true. lra.
Qed.

(** What the loop keeps true: the two lists grow together, no observed
    count is lost, and the open group is either untouched or has a
    positive expected count. *)
Lemma merge_loop_invariant pairs :
  forall obs_m exp_m c_obs c_exp om em co ce,
    merge_loop pairs obs_m exp_m c_obs c_exp = (om, em, co, ce) ->
    length obs_m = length exp_m ->
    length om = length em /\
    (length exp_m <= length em)%nat /\
    (Zsum om + co = Zsum obs_m + c_obs + Zsum (map fst pairs))%Z /\
    (Forall positive (map snd pairs) ->
     (c_exp = Fin 0 /\ c_obs = 0%Z) \/ positive c_exp ->
     (ce = Fin 0 /\ co = 0%Z) \/ positive ce).
Proof.
  induction pairs as [|[o e] rest IH];
    intros obs_m exp_m c_obs c_exp om em co ce Hrun Hlen.
  - cbn in Hrun. injection Hrun as <- <- <- <-.
    cbn [map Zsum fold_right].
    split; [exact Hlen|]. split; [lia|]. split; [lia|]. auto.
  - rewrite merge_loop_cons in Hrun.
    destruct (fge (fadd c_exp e) (Fin 5)) eqn:Hge.
    + apply IH in Hrun; [|rewrite !length_app; cbn; lia].
      destruct Hrun as (Hl & Hle & Hsum & Hpos).
      rewrite length_app in Hle. cbn [length] in Hle.
      rewrite Zsum_app in Hsum. cbn [map fst] in Hsum |- *.
      unfold Zsum in Hsum |- *. cbn [fold_right] in Hsum |- *.
      split; [exact Hl|]. split; [lia|]. split; [lia|].
      intros Hall _. apply Hpos; [|left; split; reflexivity].
      cbn [map] in Hall. inversion Hall; assumption.
    + apply IH in Hrun; [|exact Hlen].
      destruct Hrun as (Hl & Hle & Hsum & Hpos).
      cbn [map fst] in Hsum |- *.
      unfold Zsum in Hsum |- *. cbn [fold_right] in Hsum |- *.
      split; [exact Hl|]. split; [lia|]. split; [lia|].
      intros Hall Hc. cbn [map snd] in Hall.
      inversion Hall as [|? ? He Hrest]; subst.
      apply Hpos; [exact Hrest|]. right.
      apply fadd_positive; [|exact He].
      destruct Hc as [[-> _] | Hc]; auto.
Qed.

Lemma Zsum_add_last (l : list Z) (x : Z) :
  l <> [] -> Zsum (add_last Z.add l x) = (Zsum l + x)%Z.
Proof.
  intros Hl. unfold add_last.
  destruct (exists_last Hl) as (l' & y & ->).
  rewrite rev_unit, rev_involutive, !Zsum_app. cbn. lia.
Qed.

Lemma length_add_last {A} (add : A -> A -> A) (l : list A) (x : A) :
  length (add_last add l x) = length l.
Proof.
  unfold add_last. destruct (rev l) as [|y r] eqn:Hr.
  - apply (f_equal (@rev A)) in Hr. rewrite rev_involutive in Hr.
    subst l. reflexivity.
  - rewrite length_app, length_rev. cbn [length].
    rewrite <- (length_rev l), Hr. cbn [length]. lia.
Qed.

Lemma nonempty_length {A} (l : list A) :
  nonempty l = true <-> (0 < length l)%nat.
Proof. destruct l; cbn; split; intros; try lia; try discriminate; auto. Qed.

(** X1: The merged observed and expected arrays always have the same
    length. *)
Theorem merge_intervals_same_length :
  forall (ni_obs : list Z) (ni_exp : list float64),
    length (fst (_merge_intervals ni_obs ni_exp))
    = length (snd (_merge_intervals ni_obs ni_exp)).
Proof.
  intros ni_obs ni_exp. unfold _merge_intervals.
  destruct (merge_loop (combine ni_obs ni_exp) [] [] 0%Z (Fin 0))
    as [[[om em] co] ce] eqn:Hrun.
  apply merge_loop_invariant in Hrun; [|reflexivity].
  destruct Hrun as (Hl & _).
  destruct (fgt ce (Fin 0) && nonempty em); cbn [fst snd]; [|exact Hl].
  rewrite !length_add_last. exact Hl.
Qed.

Lemma merge_loop_completes pairs :
  forall obs_m exp_m c_obs c_exp om em co ce k,
    merge_loop pairs obs_m exp_m c_obs c_exp = (om, em, co, ce) ->
    fge c_exp (Fin 5) = false ->
    fge (fold_left fadd (firstn k (map snd pairs)) c_exp) (Fin 5) = true ->
    length obs_m = length exp_m ->
    (0 < length em)%nat.
Proof.
  induction pairs as [|[o e] rest IH];
    intros obs_m exp_m c_obs c_exp om em co ce k Hrun Hc Hk Hlen.
  - cbn [map] in Hk. rewrite firstn_nil in Hk. cbn [fold_left] in Hk.
    congruence.
  - destruct k as [|k]; [cbn [firstn fold_left] in Hk; congruence|].
    cbn [map snd firstn fold_left] in Hk.
    rewrite merge_loop_cons in Hrun.
    destruct (fge (fadd c_exp e) (Fin 5)) eqn:Hge.
    + apply merge_loop_invariant in Hrun; [|rewrite !length_app; cbn; lia].
      destruct Hrun as (_ & Hle & _).
      rewrite length_app in Hle. cbn [length] in Hle. lia.
    + apply (IH _ _ _ _ _ _ _ _ k Hrun Hge Hk Hlen).
Qed.

Lemma fge_0_5 : fge (Fin 0) (Fin 5) = false.
Proof. unfold fge, fle. apply Rleb_false. lra. Qed.

Lemma Zsum_map_fst_combine (a : list Z) {B} (b : list B) :
  length a = length b -> Zsum (map fst (combine a b)) = Zsum a.
Proof.
  revert b. induction a as [|x a IH]; intros [|y b] Hl; try discriminate;
    [reflexivity|].
  cbn [combine map fst Zsum fold_right]. f_equal.
  apply IH. cbn in Hl. lia.
Qed.

(** X2: With positive expected counts whose running total reaches 5 at some
    point, merging loses no observation: the merged observed counts add
    up to the observed counts. *)
Theorem merge_intervals_keeps_observations :
  forall (ni_obs : list Z) (ni_exp : list float64) (k : nat),
    length ni_obs = length ni_exp ->
    Forall positive ni_exp ->
    fge (fsum (firstn k ni_exp)) (Fin 5) = true ->
    Zsum (fst (_merge_intervals ni_obs ni_exp)) = Zsum ni_obs.
Proof.
  intros ni_obs ni_exp k Hlen Hpos Hk. unfold _merge_intervals.
  assert (Hsnd : map snd (combine ni_obs ni_exp) = ni_exp).
  { rewrite map_snd_combine, Hlen. apply firstn_all. }
  destruct (merge_loop (combine ni_obs ni_exp) [] [] 0%Z (Fin 0))
    as [[[om em] co] ce] eqn:Hrun.
  pose proof (merge_loop_completes _ _ _ _ _ k Hrun fge_0_5) as Hne.
  rewrite Hsnd in Hne. specialize (Hne Hk eq_refl).
  apply merge_loop_invariant in Hrun; [|reflexivity].
  destruct Hrun as (Hl & _ & Hsum & Htrail).
  rewrite Hsnd in Htrail.
  rewrite (Zsum_map_fst_combine _ _ Hlen) in Hsum.
  cbn [Zsum fold_right] in Hsum.
  assert (Hem : nonempty em = true) by (apply nonempty_length; exact Hne).
  rewrite Hem, andb_true_r.
  destruct (Htrail Hpos (or_introl (conj eq_refl eq_refl)))
    as [[-> ->] | Hce].
  - assert (H0 : fgt (Fin 0) (Fin 0) = false)
      by (unfold fgt, flt; apply Rltb_false; lra).
    rewrite H0. cbn [fst]. lia.
  - unfold positive in Hce. rewrite Hce. cbn [fst].
    rewrite Zsum_add_last; [lia|].
    intros ->. cbn in Hl. lia.
Qed.

Lemma merge_intervals_keeps_observations_witness :
  Zsum (fst (_merge_intervals [3; 4; 5]%Z [Fin 5; Fin 2; Fin 1]))
  = Zsum [3; 4; 5]%Z.
Proof.
  apply (@merge_intervals_keeps_observations _ _ 1%nat).
  - reflexivity.
  - repeat constructor; unfold positive, fgt, flt; apply Rltb_true; lra.
  - unfold fsum. cbn [firstn fold_left fadd fge fle].
    apply Rleb_true. lra.
Defined.

(** ** [StatisticalAnalyzer]: bin width and histogram *)

(** X3: The bin width is never negative; a sample whose observations are
    all identical has the bin width 0; and [calculate] returns without
    computing anything exactly when the bin width is [<= 0]. *)
Theorem constant_sample_has_zero_bin_width :
  forall (stats : scipy_stats) (data : list R) (name : String.string)
         (a : Analyzer),
    __init__ data name = Return a ->
    fle (Fin 0) (h a) = true /\
    ((forall v w, In v data -> In w data -> v = w) -> h a = Fin 0) /\
    (calculate stats a = Return a <-> fle (h a) (Fin 0) = true).
Proof.
  intros stats data name a Ha.
  destruct (init_extremes _ _ Ha)
    as (_ & _ & HN & Hmin & Hmax & _ & Hh & Hnone).
  split; [apply (bin_width_nonnegative _ _ Ha)|]. split.
  - intros Hconst. rewrite Hh, (Hconst _ _ Hmax Hmin).
    apply zero_bin_width. apply sturges_denominator. exact HN.
  - unfold calculate. destruct (fle (h a) (Fin 0)); [tauto|].
    split; [|discriminate]. cbv zeta.
    destruct (Arr.arange_np _ _ _) as [bins|e]; cbn [bind]; [|discriminate].
    destruct (histogram _ _) as [[ni ed]|e]; cbn [bind]; [|discriminate].
    intros Hret. exfalso. apply return_eq in Hret.
    apply (f_equal computed) in Hret. cbn [computed] in Hret.
    rewrite Hnone in Hret. discriminate Hret.
Qed.

Lemma constant_sample_has_zero_bin_width_witness :
  fle (Fin 0) (h constant_analyzer) = true /\
  ((forall v w, In v [2; 2; 2]%R -> In w [2; 2; 2]%R -> v = w) ->
   h constant_analyzer = Fin 0) /\
  (calculate nan_stats constant_analyzer = Return constant_analyzer
   <-> fle (h constant_analyzer) (Fin 0) = true).
Proof.
  apply (@constant_sample_has_zero_bin_width nan_stats _ _ _
           init_constant_analyzer).
Defined.

Lemma Zdiff_cons2 (x0 x1 : Z) (l : list Z) :
  Zdiff (x0 :: x1 :: l) = (x1 - x0)%Z :: Zdiff (x1 :: l).
Proof. reflexivity. Qed.

Lemma length_cumulative a bins : length (cumulative a bins) = length bins.
Proof.
  induction bins as [|e [|e' tl] IH]; try reflexivity.
  rewrite cumulative_cons2. cbn [length] in *. rewrite IH. reflexivity.
Qed.

Lemma length_Zdiff (l : list Z) : length (Zdiff l) = (length l - 1)%nat.
Proof.
  induction l as [|x0 [|x1 l] IH]; try reflexivity.
  rewrite Zdiff_cons2. cbn [length] in *. rewrite IH. lia.
Qed.

Lemma count_filter_le (f g : R -> bool) (a : list R) :
  (forall v, f v = true -> g v = true) -> (count f a <= count g a)%Z.
Proof.
  intros Hfg. unfold count. apply inj_le.
  induction a as [|v a IH]; cbn [filter]; [lia|].
  destruct (f v) eqn:Hf.
  - rewrite (Hfg v Hf). cbn [length]. lia.
  - destruct (g v); cbn [length]; lia.
Qed.

Lemma count_bounds (f : R -> bool) (a : list R) :
  (0 <= count f a <= Z.of_nat (length a))%Z.
Proof.
  unfold count. pose proof (filter_length_le f a). lia.
Qed.

(** The bin counts telescope: they add up to the observations at or
    below the last edge, less those below the first. *)
Lemma Zsum_histogram_counts (a : list R) (e : R) (tl : list R) :
  tl <> [] ->
  (Zsum (Zdiff (cumulative a (e :: tl)))
   = count (fun v => Rleb v (last tl e)) a - count (fun v => Rltb v e) a)%Z.
Proof.
  revert e. induction tl as [|e' tl IH]; intros e Hne; [contradiction|].
  destruct tl as [|e'' tl].
  - cbn. lia.
  - specialize (IH e' ltac:(discriminate)).
    rewrite cumulative_cons2.
    rewrite cumulative_cons2 in IH |- *.
    rewrite Zdiff_cons2. unfold Zsum in IH |- *. cbn [fold_right].
    rewrite IH.
    change (last (e' :: e'' :: tl) e) with (last (e'' :: tl) e).
    rewrite (last_any_default e'' tl e e'). lia.
Qed.

Lemma Zsum_histogram_counts_le (a bins : list R) :
  (Zsum (Zdiff (cumulative a bins)) <= Z.of_nat (length a))%Z.
Proof.
  destruct bins as [|e [|e' tl]]; try (cbn; lia).
  rewrite Zsum_histogram_counts by discriminate.
  pose proof (count_bounds (fun v => Rleb v (last (e' :: tl) e)) a).
  pose proof (count_bounds (fun v => Rltb v e) a). lia.
Qed.

Lemma histogram_counts_nonnegative (a : list R) (bins : list R) :
  nondecreasing bins -> Forall (fun n => (0 <= n)%Z) (Zdiff (cumulative a bins)).
Proof.
  induction bins as [|e tl IH]; intros Hinc; [constructor|].
  destruct tl as [|e' tl]; [constructor|].
  unfold nondecreasing in Hinc. rewrite diff_cons2 in Hinc.
  inversion Hinc as [|? ? Hee Hrest]; subst.
  rewrite cumulative_cons2.
  destruct tl as [|e'' tl].
  - cbn. constructor; [|constructor].
    assert (count (fun v => Rltb v e) a <= count (fun v => Rleb v e') a)%Z;
      [|lia].
    apply count_filter_le. intros v Hv.
    apply Rltb_true in Hv. apply Rleb_true. lra.
  - rewrite cumulative_cons2, Zdiff_cons2. constructor.
    + assert (count (fun v => Rltb v e) a <= count (fun v => Rltb v e') a)%Z;
        [|lia].
      apply count_filter_le. intros v Hv.
      apply Rltb_true in Hv. apply Rltb_true. lra.
    + rewrite <- cumulative_cons2. apply IH. exact Hrest.
Qed.

(** X4: For a moderate sample with positive bin width, [calculate]
    builds a histogram in which there is one count and one midpoint per
    pair of adjacent edges, and the counts are non-negative and add up
    to at most [N]: no observation is counted twice. *)
Theorem calculate_histogram_counts_within_sample :
  forall (stats : scipy_stats) (data : list R) (name : String.string)
         (a : Analyzer),
    __init__ data name = Return a -> moderate_sample data ->
    fgt (h a) (Fin 0) = true ->
    exists s,
      calculate stats a
      = Return (mk_analyzer (graphic_values a) (model_name a) (N a)
                            (x_min a) (x_max a) (h a) (Some s)) /\
      length (edges s) = (length (ni_values s) + 1)%nat /\
      length (xi_values s) = length (ni_values s) /\
      Forall (fun n => (0 <= n)%Z) (ni_values s) /\
      (Zsum (ni_values s) <= Z.of_nat (N a))%Z.
Proof.
  intros stats data name a Ha Hmod Hpos.
  destruct (init_extremes _ _ Ha) as (Hgv & HN & _).
  run_calculate Ha Hmod Hpos.
  eexists. split; [rewrite Hh; reflexivity|].
  cbn [ni_values edges xi_values].
  set (bs := map (fun i : nat => (s + INR i * hr)%R) (seq 0 n)).
  assert (Hbs : length bs = n)
    by (unfold bs; rewrite length_map, length_seq; reflexivity).
  assert (Hni : length (Zdiff (cumulative (graphic_values a) bs))
                = (n - 1)%nat).
  { rewrite length_Zdiff, length_cumulative, Hbs. reflexivity. }
  split; [rewrite Hni, length_map, Hbs; lia|].
  split.
  { rewrite Hni. unfold map2.
    rewrite length_map, length_combine, removelast_firstn_len,
      length_firstn, length_tl, length_map, Hbs. lia. }
  split.
  { apply histogram_counts_nonnegative.
    apply nondecreasing_arithmetic. lra. }
  rewrite HN, <- Hgv. apply Zsum_histogram_counts_le.
Qed.

Lemma calculate_histogram_counts_within_sample_witness :
  exists s,
    calculate nan_stats skewed_analyzer
    = Return (mk_analyzer skewed_sample "Current Scheme"%string 10 1 2
                          (h skewed_analyzer) (Some s)) /\
    length (edges s) = (length (ni_values s) + 1)%nat /\
    length (xi_values s) = length (ni_values s) /\
    Forall (fun n => (0 <= n)%Z) (ni_values s) /\
    (Zsum (ni_values s) <= 10)%Z.
Proof.
  apply (@calculate_histogram_counts_within_sample nan_stats _ _ _
           init_skewed_analyzer skewed_sample_moderate).
  exact skewed_analyzer_h.
Defined.

Lemma fold_fadd_finite (l : list float64) :
  Forall (fun v => exists r, v = Fin r) l ->
  forall acc, exists r, fold_left fadd l (Fin acc) = Fin r.
Proof.
  induction 1 as [|v l (r & ->) _ IH]; intros acc; cbn [fold_left].
  - exists acc. reflexivity.
  - change (fadd (Fin acc) (Fin r)) with (Fin (acc + r)). apply IH.
Qed.

Lemma fold_fadd_nonnegative (l : list float64) :
  Forall nonnegative l ->
  forall acc, (0 <= acc)%R -> nonnegative (fold_left fadd l (Fin acc)).
Proof.
  induction 1 as [|v l (r & -> & Hr) _ IH]; intros acc Hacc; cbn [fold_left].
  - exists acc. split; [reflexivity | exact Hacc].
  - change (fadd (Fin acc) (Fin r)) with (Fin (acc + r)). apply IH. lra.
Qed.

Lemma Forall_map2 {A B C} (P : C -> Prop) (f : A -> B -> C)
      (a : list A) (b : list B) :
  (forall x y, In x a -> In y b -> P (f x y)) -> Forall P (map2 f a b).
Proof.
  intros Hf. unfold map2. apply Forall_map. rewrite Forall_forall.
  intros [x y] Hin. cbn [fst snd].
  apply Hf; [eapply in_combine_l | eapply in_combine_r]; exact Hin.
Qed.

(** An analysed sample has at least two observations. *)
Lemma positive_width_two_observations (data : list R) (name : String.string)
      (a : Analyzer) :
  __init__ data name = Return a -> fgt (h a) (Fin 0) = true ->
  (2 <= N a)%nat.
Proof.
  intros Ha Hh.
  destruct (init_extremes _ _ Ha)
    as (_ & HN & HN1 & Hmin & Hmax & _ & Hhdef & _).
  destruct data as [|v [|w data]]; cbn [length] in HN; try lia.
  destruct Hmin as [Hmin | []]. destruct Hmax as [Hmax | []].
  rewrite Hhdef, <- Hmin, <- Hmax in Hh.
  rewrite zero_bin_width in Hh by (apply sturges_denominator; exact HN1).
  unfold fgt in Hh. cbn [flt] in Hh. apply Rltb_true in Hh. lra.
Qed.

Lemma In_removelast {A} (x : A) (l : list A) :
  In x (removelast l) -> In x l.
Proof.
  induction l as [|a [|b l] IH]; intros Hx; [contradiction | contradiction |].
  change (removelast (a :: b :: l)) with (a :: removelast (b :: l)) in Hx.
  destruct Hx as [<- | Hx]; [left; reflexivity | right; apply IH, Hx].
Qed.

(** The midpoints of finite edges are finite. *)
Lemma midpoints_finite (bs : list R) :
  Forall (fun v => exists r, v = Fin r)
         (map2 (fun a b => fdiv (fadd a b) (Fin 2))
               (removelast (map Fin bs)) (tl (map Fin bs))).
Proof.
  apply Forall_map2. intros x y Hx Hy.
  assert (Hfin : forall v l, In v (map Fin l) -> exists r, v = Fin r).
  { intros v l Hv. apply in_map_iff in Hv. destruct Hv as (r & <- & _).
    eauto. }
  destruct (Hfin x bs) as (rx & ->).
  { apply In_removelast. exact Hx. }
  destruct (Hfin y bs) as (ry & ->).
  { destruct (map Fin bs); [contradiction | right; exact Hy]. }
  cbn [fadd]. rewrite (fdiv_finite _ two_nonzero). eauto.
Qed.

(** X5: For a sample of observations of magnitude at most [1e100] with
    positive bin width, the mean is a number, the variance is a
    non-negative number, and the standard deviation is its square
    root: none of them is [nan] or infinite. *)
Theorem calculate_variance_is_nonnegative :
  forall (stats : scipy_stats) (data : list R) (name : String.string)
         (a : Analyzer),
    __init__ data name = Return a ->
    Forall (fun v => (Rabs v <= 10 ^ 100)%R) data ->
    (Z.of_nat (length data) < 2 ^ 63)%Z ->
    fgt (h a) (Fin 0) = true ->
    exists s mean variance,
      calculate stats a
      = Return (mk_analyzer (graphic_values a) (model_name a) (N a)
                            (x_min a) (x_max a) (h a) (Some s)) /\
      m s = Fin mean /\
      d s = Fin variance /\ (0 <= variance)%R /\
      o s = Fin (sqrt variance).
Proof.
  intros stats data name a Ha Hbound Hlen Hpos.
  assert (Hmod : moderate_sample data).
  { split; [|exact Hlen].
    eapply Forall_impl; [|exact Hbound]. intros v Hv. cbv beta in Hv.
    apply Rle_trans with (10 ^ 100)%R; [exact Hv|].
    apply Rle_pow; [lra | lia]. }
  pose proof (positive_width_two_observations _ _ Ha Hpos) as HN2.
  run_calculate Ha Hmod Hpos.
  set (bs := map (fun i : nat => (s + INR i * hr)%R) (seq 0 n)).
  set (ni := Zdiff (cumulative (graphic_values a) bs)).
  set (xi := map2 _ (removelast (map Fin bs)) (tl (map Fin bs))).
  assert (Hni : Forall (fun n => (0 <= n)%Z) ni).
  { apply histogram_counts_nonnegative. apply nondecreasing_arithmetic. lra. }
  assert (Hxi : Forall (fun v => exists r, v = Fin r) xi)
    by apply midpoints_finite.
  assert (HNr : (0 < INR (N a))%R) by (apply lt_0_INR; lia).
  assert (HN1r : (0 < IZR (Z.of_nat (N a) - 1))%R) by (apply IZR_lt; lia).
  destruct (@fold_fadd_finite
              (map2 (fun x n => fmul x (of_Z n)) xi ni)) with (acc := 0%R)
    as (sm & Hsm).
  { apply Forall_map2. intros x k Hx _.
    rewrite Forall_forall in Hxi. destruct (Hxi x Hx) as (r & ->).
    eexists. reflexivity. }
  set (mean := (sm / INR (N a))%R).
  destruct (@fold_fadd_nonnegative
              (map2 (fun x n => fmul (fsquare (fsub x (Fin mean)))
                                     (of_Z n)) xi ni)) with (acc := 0%R)
    as (sd & Hsd & Hsd0); [|lra|].
  { apply Forall_map2. intros x k Hx Hk.
    rewrite Forall_forall in Hni. specialize (Hni k Hk).
    rewrite Forall_forall in Hxi. destruct (Hxi x Hx) as (r & ->).
    eexists. split; [reflexivity|].
    apply Rmult_le_pos; [apply Rle_0_sqr | apply IZR_le; exact Hni]. }
  eexists. exists mean, (sd / IZR (Z.of_nat (N a) - 1))%R.
  split; [rewrite Hh; reflexivity|].
  cbn [m d o]. unfold fsum, of_nat.
  assert (Hm : fdiv (fold_left fadd
                       (map2 (fun x n => fmul x (of_Z n)) xi ni)
                       (Fin 0)) (Fin (INR (N a))) = Fin mean).
  { rewrite Hsm. apply fdiv_finite. lra. }
  rewrite Hm. rewrite Hsd. unfold of_Z.
  rewrite fdiv_finite by lra.
  assert (Hvar : (0 <= sd / IZR (Z.of_nat (N a) - 1))%R).
  { apply Rmult_le_pos; [exact Hsd0|].
    apply Rlt_le, Rinv_0_lt_compat. exact HN1r. }
  repeat split; try assumption.
  unfold fsqrt. destruct (Rlt_dec _ 0); [lra | reflexivity].
Qed.

Lemma calculate_variance_is_nonnegative_witness :
  exists s mean variance,
    calculate nan_stats skewed_analyzer
    = Return (mk_analyzer skewed_sample "Current Scheme"%string 10 1 2
                          (h skewed_analyzer) (Some s)) /\
    m s = Fin mean /\
    d s = Fin variance /\ (0 <= variance)%R /\
    o s = Fin (sqrt variance).
Proof.
  apply (@calculate_variance_is_nonnegative nan_stats _ _ _
           init_skewed_analyzer).
  - assert (H10 : (10 <= 10 ^ 100)%R).
    { rewrite <- (pow_1 10) at 1. apply Rle_pow; [lra | lia]. }
    unfold skewed_sample.
    repeat (apply Forall_cons; [rewrite Rabs_right by lra; lra|]).
    apply Forall_nil.
  - reflexivity.
  - exact skewed_analyzer_h.
Defined.

(** ** [process_output]: totals, shapes and failures *)

Lemma sum_all_zero (a : array2) (p : R) :
  p <> 0%R -> all_entries (eq (Fin 0)) a -> sum_all (adiv a (Fin p)) = Fin 0.
Proof.
  intros Hp Hall. unfold sum_all, adiv, fsum. cbn [rows].
  apply fold_fadd_zeros. apply Forall_concat.
  unfold all_entries in Hall.
  induction Hall as [|row rows Hrow _ IH]; cbn [map]; constructor; [|exact IH].
  induction Hrow as [|v row Hv _ IHrow]; cbn [map]; constructor;
    [|exact IHrow].
  subst v. rewrite (fdiv_finite _ Hp). f_equal. unfold Rdiv. ring.
Qed.

(** X6: When every raw count is 0 (and the photon count is not), the three
    totals [rd], [ab] and [tt] are exactly 0, on every grid on which the
    call returns ([dz <> 0], the square of [dr] in range). *)
Theorem process_output_zero_counts :
  forall (input : Input.t) (output : Raw.t) (h : heap),
    well_formed input output h ->
    square_overflows (Input.dr input) = false -> Input.dz input <> Fin 0 ->
    Input.np input <> 0%Z ->
    all_entries (eq (Fin 0)) (h (Raw.rd_ra output)) ->
    all_entries (eq (Fin 0)) (h (Raw.ab_rz output)) ->
    all_entries (eq (Fin 0)) (h (Raw.tt_ra output)) ->
    exists h' out,
      process_output input output h = (h', Return out) /\
      Output.rd out = Fin 0 /\ Output.ab out = Fin 0 /\ Output.tt out = Fin 0.
Proof.
  intros input output h Hwf Hdr Hdz Hnp Hrd Hab Htt.
  exists (final_heap input output h), (final_output input output h).
  split; [apply process_output_eval; assumption|].
  assert (Hp : IZR (Input.np input) <> 0%R)
    by (intros H0; apply Hnp; apply eq_IZR; exact H0).
  cbn [final_output Output.rd Output.ab Output.tt].
  repeat split; apply sum_all_zero; assumption.
Qed.

Lemma zero_heap_well_formed : well_formed unit_grid unit_raw zero_heap.
Proof. constructor; cbn; try lia; reflexivity. Qed.

Lemma zeros_all_zero (nr nc : nat) : all_entries (eq (Fin 0)) (zeros nr nc).
Proof.
  unfold all_entries, zeros. cbn [rows].
  apply Forall_forall. intros row Hrow. apply repeat_spec in Hrow. subst row.
  apply Forall_forall. intros v Hv. apply repeat_spec in Hv. congruence.
Qed.

Lemma process_output_zero_counts_witness :
  exists h' out,
    process_output unit_grid unit_raw zero_heap = (h', Return out) /\
    Output.rd out = Fin 0 /\ Output.ab out = Fin 0 /\ Output.tt out = Fin 0.
Proof.
  apply (process_output_zero_counts zero_heap_well_formed unit_grid_dr
           unit_grid_dz).
  - cbn. lia.
  - apply zeros_all_zero.
  - apply zeros_all_zero.
  - apply zeros_all_zero.
Defined.

Lemma length_amul1 (t s : list float64) : length (amul1 t s) = length t.
Proof. unfold amul1. apply length_mapi. Qed.

(** X7: On every grid on which the call returns ([dz <> 0], the square
    of [dr] in range), the profiles have the lengths of the grid, and
    the stored arrays keep their shapes. *)
Theorem process_output_shapes :
  forall (input : Input.t) (output : Raw.t) (h : heap),
    well_formed input output h ->
    square_overflows (Input.dr input) = false -> Input.dz input <> Fin 0 ->
    exists h' out,
      process_output input output h = (h', Return out) /\
      length (Output.rd_r out) = Input.nr input /\
      length (Output.rd_a out) = Input.na input /\
      length (Output.ab_r out) = Input.nr input /\
      length (Output.ab_z out) = Input.nz input /\
      length (Output.tt_r out) = Input.nr input /\
      length (Output.tt_a out) = Input.na input /\
      well_formed input output h'.
Proof.
  intros input output h Hwf Hdr Hdz.
  exists (final_heap input output h), (final_output input output h).
  split; [apply process_output_eval; assumption|].
  pose proof Hwf as [Hra Hrt Hat Hrr Hrc Har Hac Htr Htc].
  cbn [final_output Output.rd_r Output.rd_a Output.ab_r Output.ab_z
       Output.tt_r Output.tt_a].
  rewrite ?length_amul1, ?length_map, ?length_sum_axis1, ?length_sum_axis0,
    ?nrows_adiv, ?ncols_adiv.
  repeat (split; [assumption|]).
  constructor; try assumption;
    rewrite ?(final_heap_rd_ra Hwf), ?(final_heap_ab_rz Hwf),
      ?(final_heap_tt_ra Hwf), ?nrows_amul2, ?ncols_amul2, ?nrows_adiv,
      ?ncols_adiv; assumption.
Qed.

Lemma process_output_shapes_witness :
  exists h' out,
    process_output unit_grid unit_raw unit_heap = (h', Return out) /\
    length (Output.rd_r out) = 20%nat /\
    length (Output.rd_a out) = 30%nat /\
    length (Output.ab_r out) = 20%nat /\
    length (Output.ab_z out) = 10%nat /\
    length (Output.tt_r out) = 20%nat /\
    length (Output.tt_a out) = 30%nat /\
    well_formed unit_grid unit_raw h'.
Proof.
  apply (process_output_shapes
           (unit_heap_well_formed unit_grid eq_refl eq_refl eq_refl)
           unit_grid_dr unit_grid_dz).
Defined.

Lemma flat_grid_dr : square_overflows (Input.dr flat_grid) = false.
Proof. apply ordinary_square. rewrite Rabs_right; lra. Qed.

(** X8: With [dz = 0] and the square of [dr] in range, the call fails
    with [ZeroDivisionError], and only after it has overwritten the
    caller's three arrays with their rescaled values. *)
Theorem process_output_dz_zero_after_rescaling :
  forall (input : Input.t) (output : Raw.t) (h : heap),
    well_formed input output h ->
    square_overflows (Input.dr input) = false -> Input.dz input = Fin 0 ->
    exists h',
      process_output input output h = (h', Raise ZeroDivisionError) /\
      h' (Raw.rd_ra output)
      = amul2 (adiv (h (Raw.rd_ra output)) (of_Z (Input.np input)))
              (scale2_ra (Input.nr input) (Input.na input)
                         (Input.dr input) (Input.da input)) /\
      h' (Raw.tt_ra output)
      = amul2 (adiv (h (Raw.tt_ra output)) (of_Z (Input.np input)))
              (scale2_ra (Input.nr input) (Input.na input)
                         (Input.dr input) (Input.da input)) /\
      h' (Raw.ab_rz output)
      = amul2 (adiv (h (Raw.ab_rz output)) (of_Z (Input.np input)))
              (scale_rz (Input.nr input) (Input.da input) (Input.dz input)).
Proof.
  intros input output h Hwf Hdr Hdz.
  exists (final_heap input output h).
  split; [apply process_output_dz_zero; assumption|].
  split; [apply final_heap_rd_ra; assumption|].
  split; [apply final_heap_tt_ra | apply final_heap_ab_rz]; assumption.
Qed.

Lemma process_output_dz_zero_after_rescaling_witness :
  exists h',
    process_output flat_grid unit_raw unit_heap
    = (h', Raise ZeroDivisionError) /\
    h' 0%nat
    = amul2 (adiv (unit_heap 0%nat) (of_Z 50000))
            (scale2_ra 20 30 (Fin 0.2) (Fin (0.5 * PI / 30))) /\
    h' 2%nat
    = amul2 (adiv (unit_heap 2%nat) (of_Z 50000))
            (scale2_ra 20 30 (Fin 0.2) (Fin (0.5 * PI / 30))) /\
    h' 1%nat
    = amul2 (adiv (unit_heap 1%nat) (of_Z 50000))
            (scale_rz 20 (Fin (0.5 * PI / 30)) (Fin 0)).
Proof.
  apply (process_output_dz_zero_after_rescaling
           (unit_heap_well_formed flat_grid eq_refl eq_refl eq_refl)
           flat_grid_dr).
  reflexivity.
Defined.

Lemma bcast_false (sdim tdim : nat) :
  tdim <> sdim -> sdim <> 1%nat -> bcast sdim tdim = false.
Proof.
  intros H1 H2. unfold bcast.
  destruct (Nat.eqb_spec sdim tdim); [congruence|].
  destruct (Nat.eqb_spec sdim 1); [congruence | reflexivity].
Qed.

(** X9: A reflectance array whose shape does not fit the grid is refused
    with [ValueError] at the first rescaling, when all three arrays have
    already been divided by the photon count. *)
Theorem process_output_shape_mismatch :
  forall (input : Input.t) (output : Raw.t) (h : heap),
    Raw.rd_ra output <> Raw.ab_rz output ->
    Raw.rd_ra output <> Raw.tt_ra output ->
    Raw.ab_rz output <> Raw.tt_ra output ->
    (nrows (h (Raw.rd_ra output)) <> Input.nr input /\ Input.nr input <> 1%nat)
    \/ (ncols (h (Raw.rd_ra output)) <> Input.na input
        /\ Input.na input <> 1%nat) ->
    process_output input output h
    = (normalized_heap input output h, Raise ValueError).
Proof.
  intros input output h Hra Hrt Hat Hshape.
  unfold process_output.
  rewrite !run_idiv_scalar. rewrite !run_read. cbv beta zeta.
  lookup.
  unfold mbind at 1. unfold imul. unfold mbind at 1. unfold read at 1.
  cbv beta iota. unfold mbind at 1. unfold lift at 1. lookup.
  assert (Hfail : imul2 (adiv (h (Raw.rd_ra output)) (of_Z (Input.np input)))
                        (scale2_ra (Input.nr input) (Input.na input)
                                   (Input.dr input) (Input.da input))
                  = Raise ValueError).
  { unfold imul2. rewrite nrows_scale2_ra, ncols_scale2_ra, nrows_adiv,
      ncols_adiv.
    destruct Hshape as [[H1 H2] | [H1 H2]].
    - rewrite (bcast_false H1 H2). reflexivity.
    - rewrite (bcast_false H1 H2), andb_false_r. reflexivity. }
  rewrite Hfail. reflexivity.
Qed.

Lemma process_output_shape_mismatch_witness :
  process_output unit_grid unit_raw misshapen_heap
  = (normalized_heap unit_grid unit_raw misshapen_heap, Raise ValueError).
Proof.
  apply process_output_shape_mismatch; cbn; try lia.
Defined.

(** ** [initialize_input]: failures and derived quantities *)

Lemma index_cases {A} (l : list A) (i : nat) :
  (exists a, index l i = Return a /\ (i < length l)%nat)
  \/ (index l i = Raise IndexError /\ (length l <= i)%nat).
Proof.
  unfold index. destruct (nth_error l i) as [a|] eqn:Hn.
  - left. exists a. split; [reflexivity|].
    apply nth_error_Some. rewrite Hn. discriminate.
  - right. split; [reflexivity|]. apply nth_error_None. exact Hn.
Qed.

Lemma index_In {A} (l : list A) (i : nat) (v : A) :
  index l i = Return v -> In v l.
Proof.
  unfold index. destruct (nth_error l i) as [a|] eqn:Hn; [|discriminate].
  intros H. apply return_eq in H. subst a. apply (nth_error_In _ _ Hn).
Qed.

Lemma cos_crit_returns (data : Data.t) (n0 n1 : float64) :
  safe_indices data -> In n0 (Data.n data) -> In n1 (Data.n data) ->
  cos_crit (Data.floats data) n0 n1 = Return (critical_cosine n0 n1).
Proof.
  intros Hsafe H0 H1. unfold safe_indices in Hsafe.
  destruct (Data.floats data); [|apply cos_crit_numpy].
  specialize (Hsafe eq_refl). rewrite Forall_forall in Hsafe.
  apply cos_crit_safe; apply Hsafe; assumption.
Qed.

(** With refractive indices whose squares can be divided, one loop
    iteration either builds its record or fails on an index out of
    range, and it fails when one of the lists is too short for it. *)
Lemma make_layer_cases (data : Data.t) (i : nat) :
  safe_indices data ->
  ((exists layer, make_layer data i = Return layer)
   \/ make_layer data i = Raise IndexError)
  /\ ((length (Data.n data) <= i + 1)%nat
      \/ (length (Data.mua data) <= i)%nat
      \/ (length (Data.mus data) <= i)%nat
      \/ (length (Data.g data) <= i)%nat
      \/ (length (Data.d data) <= i)%nat ->
      make_layer data i = Raise IndexError).
Proof.
  intros Hsafe. unfold make_layer.
  destruct (index_cases (Data.d data) i) as [(d_i & -> & Hd) | [-> Hd]];
    cbn [bind]; [|split; auto].
  destruct (index_cases (Data.n data) i) as [(n0 & Hn0e & Hn0) | [-> Hn0]];
    [rewrite Hn0e|]; cbn [bind]; [|split; auto].
  destruct (index_cases (Data.n data) (i + 1))
    as [(n1 & Hn1e & Hn1) | [-> Hn1]]; [rewrite Hn1e|]; cbn [bind];
    [|split; auto].
  rewrite (@cos_crit_returns data n0 n1 Hsafe (@index_In _ _ _ _ Hn0e)
             (@index_In _ _ _ _ Hn1e)).
  cbn [bind].
  destruct (index_cases (Data.mua data) i) as [(mua_i & -> & Hmua) | [-> Hmua]];
    cbn [bind]; [|split; auto].
  destruct (index_cases (Data.mus data) i) as [(mus_i & -> & Hmus) | [-> Hmus]];
    cbn [bind]; [|split; auto].
  destruct (index_cases (Data.g data) i) as [(g_i & -> & Hg) | [-> Hg]];
    cbn [bind]; [|split; auto].
  split; [left; eauto|]. intros Hshort. lia.
Qed.

Lemma build_layers_index_error (data : Data.t) (k : nat) :
  safe_indices data ->
  forall a acc,
    make_layer data (a + k) = Raise IndexError ->
    build_layers data (seq a (S k)) acc = Raise IndexError.
Proof.
  intros Hsafe. induction k as [|k IH]; intros a acc Hlast.
  - cbn [seq build_layers]. rewrite Nat.add_0_r in Hlast.
    rewrite Hlast. reflexivity.
  - change (seq a (S (S k))) with (a :: seq (S a) (S k)).
    cbn [build_layers].
    destruct (proj1 (@make_layer_cases data a Hsafe)) as [(layer & ->) | ->];
      [|reflexivity].
    cbn [bind]. apply IH.
    replace (S a + k)%nat with (a + S k)%nat by lia. exact Hlast.
Qed.

Lemma short_stack_safe : safe_indices short_stack.
Proof. intros _. unfold short_stack; cbn [Data.n]. safe_entries. Qed.

(** X10: When one of the lists is too short for the [nl >= 1] layers asked
    for, the stack is not built: [initialize_input] fails with
    [IndexError] (the refractive indices being numpy scalars, or Python
    floats whose squares neither overflow nor underflow to zero, so that
    no critical cosine fails first). *)
Theorem initialize_input_short_lists :
  forall data : Data.t,
    safe_indices data ->
    (1 <= Data.nl data)%nat ->
    (length (Data.n data) < Data.nl data + 1)%nat
    \/ (length (Data.mua data) < Data.nl data)%nat
    \/ (length (Data.mus data) < Data.nl data)%nat
    \/ (length (Data.g data) < Data.nl data)%nat
    \/ (length (Data.d data) < Data.nl data)%nat ->
    initialize_input data = Raise IndexError.
Proof.
  intros data Hsafe Hnl Hshort. unfold initialize_input.
  destruct (Data.nl data) as [|k] eqn:Hk; [lia|].
  rewrite (@build_layers_index_error data k Hsafe); [reflexivity|].
  apply (proj2 (@make_layer_cases data (0 + k) Hsafe)). cbn [Nat.add]. lia.
Qed.

Lemma initialize_input_short_lists_witness :
  initialize_input short_stack = Raise IndexError.
Proof.
  apply initialize_input_short_lists.
  - exact short_stack_safe.
  - cbn. lia.
  - cbn. lia.
Defined.

Lemma no_angles_enough : enough_entries no_angles.
Proof.
  unfold enough_entries, safe_indices, no_angles;
    cbn [Data.nl Data.n Data.mua Data.mus Data.g Data.d Data.floats length].
  repeat (split; [lia|]). intros _. safe_entries.
Qed.

(** X11: With [na = 0] the angular step cannot be computed: once the layers
    are built, [initialize_input] fails with [ZeroDivisionError]. *)
Theorem initialize_input_na_zero :
  forall data : Data.t,
    enough_entries data -> Data.na data = 0%nat ->
    initialize_input data = Raise ZeroDivisionError.
Proof.
  intros data Hok Hna. unfold initialize_input.
  rewrite build_layers_ok by (assumption || lia). cbn [bind].
  rewrite Hna. change (of_nat 0) with (Fin 0). rewrite pydiv_zero.
  reflexivity.
Qed.

Lemma initialize_input_na_zero_witness :
  initialize_input no_angles = Raise ZeroDivisionError.
Proof.
  apply initialize_input_na_zero.
  - exact no_angles_enough.
  - reflexivity.
Defined.

(** The critical cosine between two positive indices of moderate
    magnitude. *)
Lemma critical_cosine_range (n0 n1 : R) :
  (/ 10 ^ 150 <= n0 <= 10 ^ 150)%R -> (/ 10 ^ 150 <= n1 <= 10 ^ 150)%R ->
  exists c,
    critical_cosine (Fin n0) (Fin n1) = Fin c /\
    (0 <= c <= 1)%R /\ ((n1 <= n0)%R -> c = 0%R).
Proof.
  intros H0 H1.
  assert (Hinv : (0 < / 10 ^ 150)%R).
  { apply Rinv_0_lt_compat. pose proof (pow10_ge_1 150). lra. }
  assert (Hp0 : (0 < n0)%R) by lra. assert (Hp1 : (0 < n1)%R) by lra.
  unfold critical_cosine, fgt. cbn [flt].
  destruct (Rltb n0 n1) eqn:Hlt.
  - apply Rltb_true in Hlt.
    assert (Hsq : (n1 * n1 <> 0)%R) by nra.
    destruct (squared_in_range n0) as [_ ->];
      [rewrite Rabs_right by lra; exact H0|].
    destruct (squared_in_range n1) as [_ ->];
      [rewrite Rabs_right by lra; exact H1|].
    rewrite (fdiv_finite _ Hsq). cbn [fsub fopp fadd].
    assert (Hratio : (0 < n0 * n0 / (n1 * n1) < 1)%R).
    { split.
      - apply Rdiv_lt_0_compat; nra.
      - apply (Rmult_lt_reg_r (n1 * n1)); [nra|].
        unfold Rdiv. rewrite Rmult_assoc, Rinv_l by exact Hsq. nra. }
    unfold fsqrt.
    destruct (Rlt_dec (1 + - (n0 * n0 / (n1 * n1))) 0) as [Hneg | _]; [lra|].
    eexists. split; [reflexivity|]. split; [|intros; lra].
    split; [apply sqrt_pos|].
    apply (Rle_trans _ (sqrt 1)); [apply sqrt_le_1_alt; lra|].
    rewrite sqrt_1. lra.
  - exists 0%R. split; [reflexivity|]. split; [lra | intros; reflexivity].
Qed.

Lemma nth_map_Fin (ns : list R) (i : nat) :
  (i < length ns)%nat -> nth i (map Fin ns) NaN = Fin (nth i ns 0%R).
Proof.
  intros Hi. rewrite (nth_indep _ NaN (Fin 0)) by (rewrite length_map; lia).
  apply (map_nth Fin).
Qed.

Lemma ordinary_positive (r : R) :
  (/ 1000 <= r <= 1000)%R -> (/ 10 ^ 150 <= r <= 10 ^ 150)%R.
Proof.
  intros Hr. assert (H0 : (0 < / 1000)%R) by lra.
  rewrite <- (Rabs_right r) by lra. apply ordinary_is_moderate.
  rewrite Rabs_right by lra. exact Hr.
Qed.

Lemma moderate_indices_safe (ns : list R) :
  Forall (fun r => (/ 10 ^ 150 <= r <= 10 ^ 150)%R) ns ->
  Forall squares_safely (map Fin ns).
Proof.
  intros Hns. apply Forall_map. eapply Forall_impl; [|exact Hns].
  intros r Hr. cbv beta in Hr.
  assert (Hinv : (0 < / 10 ^ 150)%R).
  { apply Rinv_0_lt_compat. pose proof (pow10_ge_1 150). lra. }
  apply squares_safely_moderate. rewrite Rabs_right by lra. exact Hr.
Qed.

(** X12: For refractive indices between [1e-150] and [1e150] every
    layer's critical cosine is a number between 0 and 1, and it is 0
    wherever the layer is not denser than the medium above it. *)
Theorem initialize_input_critical_cosines :
  forall (data : Data.t) (ns : list R),
    (Data.nl data + 1 <= length (Data.n data))%nat ->
    (Data.nl data <= length (Data.mua data))%nat ->
    (Data.nl data <= length (Data.mus data))%nat ->
    (Data.nl data <= length (Data.g data))%nat ->
    (Data.nl data <= length (Data.d data))%nat ->
    Data.na data <> 0%nat ->
    Data.n data = map Fin ns ->
    Forall (fun r => (/ 10 ^ 150 <= r <= 10 ^ 150)%R) ns ->
    exists input,
      initialize_input data = Return input /\
      forall i layer,
        nth_error (Input.layers input) i = Some layer ->
        exists c,
          Layer.cos_crit0 layer = Fin c /\ (0 <= c <= 1)%R /\
          ((nth (i + 1) ns 0 <= nth i ns 0)%R -> c = 0%R).
Proof.
  intros data ns Hlen Hmua Hmus Hg Hd Hna Hn Hmod.
  assert (Hok : enough_entries data).
  { repeat (split; [assumption|]). intros _. rewrite Hn.
    apply moderate_indices_safe. exact Hmod. }
  eexists. split.
  - apply initialize_input_ok; assumption.
  - cbn [Input.layers]. intros i layer Hi.
    rewrite nth_error_map in Hi.
    destruct (nth_error (seq 0 (Data.nl data)) i) as [j|] eqn:Hj;
      [|discriminate].
    cbn [option_map] in Hi. apply some_eq in Hi. subst layer.
    assert (Hlt : (i < Data.nl data)%nat).
    { assert (Hs : (i < length (seq 0 (Data.nl data)))%nat)
        by (apply nth_error_Some; rewrite Hj; discriminate).
      rewrite length_seq in Hs. exact Hs. }
    rewrite nth_error_seq in Hj.
    destruct (Nat.ltb_spec i (Data.nl data)); [|lia].
    cbn in Hj. apply some_eq in Hj. subst j.
    rewrite Hn, length_map in Hlen.
    unfold layer_at. cbn [Layer.cos_crit0]. rewrite Hn.
    rewrite !nth_map_Fin by lia.
    rewrite Forall_forall in Hmod.
    apply critical_cosine_range; apply Hmod, nth_In; lia.
Qed.

Lemma initialize_input_critical_cosines_witness :
  exists input,
    initialize_input DEFAULT_INPUT_DATA = Return input /\
    forall i layer,
      nth_error (Input.layers input) i = Some layer ->
      exists c,
        Layer.cos_crit0 layer = Fin c /\ (0 <= c <= 1)%R /\
        ((nth (i + 1) [1.0; 1.37; 1.43; 1.33; 1.37; 1.0] 0
          <= nth i [1.0; 1.37; 1.43; 1.33; 1.37; 1.0] 0)%R -> c = 0%R).
Proof.
  apply initialize_input_critical_cosines; try (cbn; lia); try reflexivity.
  repeat (apply Forall_cons; [apply ordinary_positive; lra|]);
    apply Forall_nil.
Defined.







(** ** [get_analysis_data]: when the interpolator can be built *)







(** ** The interpolant does not overshoot *)

Section NoOvershoot.

Local Open Scope R_scope.









End NoOvershoot.











(** ** [LayersManager]: the aggregated stacks *)

Lemma string_neq (a b : String.string) : a <> b -> String.eqb a b = false.
Proof. intros H. apply String.eqb_neq. exact H. Qed.

(** X16: An unknown scheme is refused with [ValueError] before any list is
    indexed, whatever the data. *)
Theorem make_layers_invalid_scheme :
  forall (data : Data.t) (scheme : String.string),
    (~ In scheme two_layer_schemes ->
     make_two_layers data scheme = Raise ValueError) /\
    (~ In scheme three_layer_schemes ->
     make_three_layers data scheme = Raise ValueError).
Proof.
  intros data scheme. split; intros Hout.
  - unfold make_two_layers.
    rewrite !string_neq; [reflexivity | | |];
      intros ->; apply Hout; cbn; auto.
  - unfold make_three_layers.
    rewrite !string_neq; [reflexivity | | |];
      intros ->; apply Hout; cbn; auto.
Qed.

Lemma make_layers_invalid_scheme_witness :
  make_two_layers DEFAULT_INPUT_DATA "4-0"%string = Raise ValueError /\
  make_three_layers DEFAULT_INPUT_DATA "2-2"%string = Raise ValueError.
Proof.
  destruct (make_layers_invalid_scheme DEFAULT_INPUT_DATA "4-0"%string) as [H2 _].
  destruct (make_layers_invalid_scheme DEFAULT_INPUT_DATA "2-2"%string) as [_ H3].
  split; [apply H2 | apply H3]; cbn; intros H; intuition discriminate.
Defined.

Lemma index_ge {A} (l : list A) (i : nat) :
  (length l <= i)%nat -> index l i = Raise IndexError.
Proof.
  intros Hi. unfold index.
  destruct (nth_error l i) eqn:Hn; [|reflexivity].
  assert (i < length l)%nat by (apply nth_error_Some; congruence). lia.
Qed.

(** X17: [make_one_layer] needs the six refractive indices and nothing else:
    with fewer it fails with [IndexError]; with six it returns a
    one-layer stack even when the other lists are short or empty. *)
Theorem make_one_layer_returns_iff :
  forall data : Data.t,
    ((6 <= length (Data.n data))%nat ->
     exists agg,
       make_one_layer data = Return agg /\
       Data.nl agg = 1%nat /\
       length (Data.n agg) = 3%nat /\
       length (Data.mua agg) = 1%nat /\
       length (Data.mus agg) = 1%nat /\
       length (Data.g agg) = 1%nat /\
       length (Data.d agg) = 1%nat) /\
    ((length (Data.n data) < 6)%nat ->
     make_one_layer data = Raise IndexError).
Proof.
  intros data. unfold make_one_layer. split; intros Hlen.
  - rewrite (@index_lt _ (Data.n data) 0 NaN) by lia. cbn [bind].
    rewrite (@index_lt _ (Data.n data) 5 NaN) by lia. cbn [bind].
    eexists. split; [reflexivity|]. cbn. repeat split.
  - destruct (Nat.eq_dec (length (Data.n data)) 0) as [H0 | H0].
    + rewrite index_ge by lia. reflexivity.
    + rewrite (@index_lt _ (Data.n data) 0 NaN) by lia. cbn [bind].
      rewrite index_ge by lia. reflexivity.
Qed.

Lemma make_one_layer_returns_iff_witness :
  (exists agg,
     make_one_layer DEFAULT_INPUT_DATA = Return agg /\
     Data.nl agg = 1%nat /\
     length (Data.n agg) = 3%nat /\
     length (Data.mua agg) = 1%nat /\
     length (Data.mus agg) = 1%nat /\
     length (Data.g agg) = 1%nat /\
     length (Data.d agg) = 1%nat) /\
  make_one_layer short_stack = Raise IndexError.
Proof.
  split.
  - apply (proj1 (make_one_layer_returns_iff DEFAULT_INPUT_DATA)). cbn. lia.
  - apply (proj2 (make_one_layer_returns_iff short_stack)). cbn. lia.
Defined.

(** X18: The effective index of the one-layer scheme is the average of the
    first three tissue layers only: the index of the fourth layer never
    enters the result. *)
Theorem make_one_layer_ignores_fourth_index :
  forall (data : Data.t) (n0 n1 n2 n3 n4 n4' n5 : float64)
         (rest : list float64),
    Data.n data = n0 :: n1 :: n2 :: n3 :: n4 :: n5 :: rest ->
    make_one_layer data
    = make_one_layer
        (Data.mk (Data.np data) (Data.dz data) (Data.dr data)
                 (Data.nz data) (Data.nr data) (Data.na data) (Data.nl data)
                 (n0 :: n1 :: n2 :: n3 :: n4' :: n5 :: rest)
                 (Data.mua data) (Data.mus data) (Data.g data)
                 (Data.d data) (Data.floats data)).
Proof.
  intros data n0 n1 n2 n3 n4 n4' n5 rest Hn.
  unfold make_one_layer. rewrite Hn. reflexivity.
Qed.

Lemma make_one_layer_ignores_fourth_index_witness :
  make_one_layer DEFAULT_INPUT_DATA
  = make_one_layer
      (Data.mk 50000 (Fin 0.2) (Fin 0.2) 10 20 30 4
         [Fin 1.0; Fin 1.37; Fin 1.43; Fin 1.33; Fin 9; Fin 1.0]
         [Fin 0.018; Fin 0.016; Fin 0.004; Fin 0.036]
         [Fin 19.0; Fin 16.0; Fin 2.4; Fin 22.0]
         [Fin 0.9; Fin 0.9; Fin 0.9; Fin 0.9]
         [Fin 0.3; Fin 0.5; Fin 0.2; Fin 0.4]
         PyFloat).
Proof.
  apply (@make_one_layer_ignores_fourth_index DEFAULT_INPUT_DATA
           (Fin 1.0) (Fin 1.37) (Fin 1.43) (Fin 1.33) (Fin 1.37) (Fin 9)
           (Fin 1.0) []).
  reflexivity.
Defined.

(** The aggregated values are numpy scalars: nothing is asked of their
    squares. *)
Ltac numpy_entries :=
  unfold enough_entries, safe_indices;
  cbn [Data.nl Data.n Data.mua Data.mus Data.g Data.d Data.floats length];
  repeat (split; [lia|]); discriminate.

Ltac accepted_stack Hn Hna :=
  constructor;
  [ reflexivity | reflexivity | reflexivity | reflexivity | reflexivity
  | reflexivity | reflexivity
  | eexists; split;
    [ apply initialize_input_ok; [numpy_entries | exact Hna]
    | cbn [Input.layers Input.n_above Input.n_below Data.n Data.nl];
      rewrite Hn; repeat split ] ].

(** X19: Every aggregation scheme turns complete tissue data into a stack
    that [initialize_input] accepts: the one-, two- and three-layer
    schemes yield 1, 2 and 3 layers on the unchanged grid, between the
    ambient media [n[0]] and [n[5]] of the original data.  (The
    aggregated values are numpy floats, whose squares and quotients
    raise nothing, so the stack is accepted whatever the magnitude of
    its indices.) *)
Theorem aggregated_stack_is_accepted :
  forall (data : Data.t) (ns : list R),
    complete data ns ->
    (exists agg, make_one_layer data = Return agg /\ accepted data 1 agg) /\
    (forall scheme, In scheme two_layer_schemes ->
       exists agg,
         make_two_layers data scheme = Return agg /\ accepted data 2 agg) /\
    (forall scheme, In scheme three_layer_schemes ->
       exists agg,
         make_three_layers data scheme = Return agg /\ accepted data 3 agg).
Proof.
  intros data ns [Hn Hpos Hlen Hmua Hmus Hg Hd Hna].
  destruct ns as [|a0 [|a1 [|a2 [|a3 [|a4 [|a5 rest]]]]]];
    try (cbn in Hlen; lia).
  repeat match goal with
         | H : Forall _ (_ :: _) |- _ => inversion H; subst; clear H
         end.
  destruct (Data.mua data) as [|ma0 [|ma1 [|ma2 [|ma3 mar]]]] eqn:Ema;
    try (cbn in Hmua; lia).
  destruct (Data.mus data) as [|ms0 [|ms1 [|ms2 [|ms3 msr]]]] eqn:Ems;
    try (cbn in Hmus; lia).
  destruct (Data.g data) as [|g0 [|g1 [|g2 [|g3 gr]]]] eqn:Eg;
    try (cbn in Hg; lia).
  destruct (Data.d data) as [|d0 [|d1 [|d2 [|d3 dr]]]] eqn:Ed;
    try (cbn in Hd; lia).
  split; [|split].
  - unfold make_one_layer. rewrite Hn.
    cbn [map index nth_error bind]. eexists. split; [reflexivity|].
    accepted_stack Hn Hna.
  - intros scheme Hin. unfold make_two_layers.
    rewrite Hn, Ema, Ems, Eg, Ed.
    destruct Hin as [<- | [<- | [<- | []]]];
      cbv [String.eqb Ascii.eqb Bool.eqb];
      cbn [map index nth_error bind]; (eexists; split; [reflexivity|]);
      accepted_stack Hn Hna.
  - intros scheme Hin. unfold make_three_layers.
    rewrite Hn, Ema, Ems, Eg, Ed.
    destruct Hin as [<- | [<- | [<- | []]]];
      cbv [String.eqb Ascii.eqb Bool.eqb];
      cbn [map index nth_error bind]; (eexists; split; [reflexivity|]);
      accepted_stack Hn Hna.
Qed.

Lemma DEFAULT_INPUT_DATA_complete :
  complete DEFAULT_INPUT_DATA [1.0; 1.37; 1.43; 1.33; 1.37; 1.0]%R.
Proof.
  constructor; cbn; try lia; try reflexivity.
  repeat constructor; lra.
Qed.

Lemma aggregated_stack_is_accepted_witness :
  (exists agg,
     make_one_layer DEFAULT_INPUT_DATA = Return agg /\
     accepted DEFAULT_INPUT_DATA 1 agg) /\
  (forall scheme, In scheme two_layer_schemes ->
     exists agg,
       make_two_layers DEFAULT_INPUT_DATA scheme = Return agg /\
       accepted DEFAULT_INPUT_DATA 2 agg) /\
  (forall scheme, In scheme three_layer_schemes ->
     exists agg,
       make_three_layers DEFAULT_INPUT_DATA scheme = Return agg /\
       accepted DEFAULT_INPUT_DATA 3 agg).
Proof.
  apply (aggregated_stack_is_accepted DEFAULT_INPUT_DATA_complete).
Defined.




(** ** [mc] and the analysed sample *)

Lemma nrows_rand u nr nc : nrows (rand u nr nc) = nr.
Proof. unfold nrows, rand. cbn [rows]. rewrite length_map. apply length_seq. Qed.

Lemma drawn_heap_well_formed input u_rd u_ab u_tt h :
  well_formed input (Raw.mk 0 1 2) (drawn_heap input u_rd u_ab u_tt h).
Proof.
  constructor; cbn [Raw.rd_ra Raw.ab_rz Raw.tt_ra]; try discriminate;
    unfold drawn_heap, update; cbn [Nat.eqb];
    apply nrows_rand || reflexivity.
Qed.

Lemma mc_runs input u_rd u_ab u_tt h :
  mc input u_rd u_ab u_tt h
  = process_output input (Raw.mk 0 1 2) (drawn_heap input u_rd u_ab u_tt h).
Proof. reflexivity. Qed.

Lemma mc_eval input u_rd u_ab u_tt h :
  square_overflows (Input.dr input) = false -> Input.dz input <> Fin 0 ->
  mc input u_rd u_ab u_tt h
  = (final_heap input (Raw.mk 0 1 2) (drawn_heap input u_rd u_ab u_tt h),
     Return (final_output input (Raw.mk 0 1 2)
                          (drawn_heap input u_rd u_ab u_tt h))).
Proof.
  intros Hdr Hdz. rewrite mc_runs.
  apply (process_output_eval (drawn_heap_well_formed input u_rd u_ab u_tt h));
    assumption.
Qed.

(** The square of [1e256] is out of range. *)
Lemma huge_grid_dr : square_overflows (Input.dr huge_grid) = true.
Proof.
  cbn [Input.dr huge_grid square_overflows]. apply overflows_true.
  rewrite <- pow_add.
  assert (H0 : (0 < 10 ^ (256 + 256))%R) by (apply pow_lt; lra).
  rewrite Rabs_right by lra.
  destruct overflow_threshold_bounds as [_ Hhi].
  apply Rle_trans with (2 ^ 1024)%R; [exact Hhi|].
  change 1024%nat with (4 * 256)%nat. change (256 + 256)%nat with (2 * 256)%nat.
  rewrite !pow_mult. apply pow_incr. simpl. lra.
Qed.

(** X21: The arrays that [mc] draws always fit the grid: whatever the
    grid sizes and the draws are, the run raises no [ValueError].  It
    fails in two cases only: with [OverflowError] when the square of
    [dr] is out of range, and else with [ZeroDivisionError] when [dz]
    is 0; in every other case it returns. *)
Theorem mc_fails_on_overflow_or_zero_dz :
  forall (input : Input.t) (u_rd u_ab u_tt : nat -> nat -> float64)
         (h : heap),
    (square_overflows (Input.dr input) = true ->
     exists h', mc input u_rd u_ab u_tt h = (h', Raise OverflowError)) /\
    (square_overflows (Input.dr input) = false -> Input.dz input = Fin 0 ->
     exists h', mc input u_rd u_ab u_tt h = (h', Raise ZeroDivisionError)) /\
    (square_overflows (Input.dr input) = false -> Input.dz input <> Fin 0 ->
     exists h' out, mc input u_rd u_ab u_tt h = (h', Return out)).
Proof.
  intros input u_rd u_ab u_tt h.
  pose proof (drawn_heap_well_formed input u_rd u_ab u_tt h) as Hwf.
  split; [|split].
  - intros Hdr. eexists. rewrite mc_runs.
    apply (process_output_dr_overflow Hwf Hdr).
  - intros Hdr Hdz. eexists. rewrite mc_runs.
    apply (process_output_dz_zero Hwf Hdr Hdz).
  - intros Hdr Hdz. eexists. eexists. apply mc_eval; assumption.
Qed.

Lemma mc_fails_on_overflow_or_zero_dz_witness :
  (exists h',
     mc huge_grid (fun _ _ => Fin 0.5) (fun _ _ => Fin 0.5)
        (fun _ _ => Fin 0.5) unit_heap
     = (h', Raise OverflowError)) /\
  (exists h',
     mc flat_grid (fun _ _ => Fin 0.5) (fun _ _ => Fin 0.5)
        (fun _ _ => Fin 0.5) unit_heap
     = (h', Raise ZeroDivisionError)) /\
  (exists h' out,
     mc unit_grid (fun _ _ => Fin 0.5) (fun _ _ => Fin 0.5)
        (fun _ _ => Fin 0.5) unit_heap
     = (h', Return out)).
Proof.
  split; [|split].
  - apply (proj1 (mc_fails_on_overflow_or_zero_dz huge_grid _ _ _ _)).
    exact huge_grid_dr.
  - apply (proj1 (proj2 (mc_fails_on_overflow_or_zero_dz flat_grid _ _ _ _))).
    + exact flat_grid_dr.
    + reflexivity.
  - apply (proj2 (proj2 (mc_fails_on_overflow_or_zero_dz unit_grid _ _ _ _))).
    + exact unit_grid_dr.
    + exact unit_grid_dz.
Defined.









(** ** [create_layer_diagram]: the blocks of the diagram *)

Lemma fsum_firstn_S (l : list float64) (i : nat) :
  (i < length l)%nat ->
  fsum (firstn (S i) l) = fadd (fsum (firstn i l)) (nth i l NaN).
Proof.
  unfold fsum. generalize (Fin 0). revert i.
  induction l as [|v l IH]; intros i acc Hi; [cbn in Hi; lia|].
  destruct i as [|i]; [reflexivity|].
  change (firstn (S (S i)) (v :: l)) with (v :: firstn (S i) l).
  change (firstn (S i) (v :: l)) with (v :: firstn i l).
  cbn [fold_left nth]. apply IH. cbn in Hi. lia.
Qed.

Lemma assign_style_none (s : String.string) (i : nat) (vars : locals) :
  keyword s = false -> assign_style s i vars = Return vars.
Proof.
  unfold keyword, assign_style. intros Hk.
  apply orb_false_iff in Hk. destruct Hk as (Hk & ->).
  apply orb_false_iff in Hk. destruct Hk as (Hk & ->).
  apply orb_false_iff in Hk. destruct Hk as (-> & ->).
  reflexivity.
Qed.

Lemma assign_style_ok (s : String.string) (i : nat) (vars : locals) :
  keyword s = true -> fits s (S i) ->
  exists l c,
    assign_style s i vars
    = Return (mk_locals (Some l) (Some c) (opacity vars)
                        (x vars) (y vars) (z vars)).
Proof.
  unfold keyword, fits, label_count, assign_style. intros Hk Hfit.
  destruct (contains "Baseline"%string s).
  - specialize (Hfit 4%nat eq_refl).
    destruct i as [|[|[|[|i]]]]; try lia; cbn [index nth_error bind];
      eexists; eexists; reflexivity.
  - destruct (contains "1-Layer"%string s); [eexists; eexists; reflexivity|].
    destruct (contains "2-Layer"%string s).
    + destruct (contains "2-2"%string s); [eexists; eexists; reflexivity|].
      destruct (contains "1-3"%string s); eexists; eexists; reflexivity.
    + destruct (contains "3-Layer"%string s); [|discriminate].
      specialize (Hfit 3%nat eq_refl).
      destruct (contains "1-1-2"%string s); [|destruct (contains "1-2-1"%string s)];
        destruct i as [|[|[|i]]]; try lia; cbn [index nth_error bind fst snd];
        eexists; eexists; reflexivity.
Qed.

Lemma assign_style_index_error (s : String.string) (i k : nat)
      (vars : locals) :
  label_count s = Some k -> (k <= i)%nat ->
  assign_style s i vars = Raise IndexError.
Proof.
  unfold label_count, assign_style. intros Hk Hi.
  destruct (contains "Baseline"%string s).
  - apply some_eq in Hk. subst k.
    rewrite index_ge by (cbn; lia). reflexivity.
  - destruct (contains "1-Layer"%string s); [discriminate|].
    destruct (contains "2-Layer"%string s); [discriminate|].
    destruct (contains "3-Layer"%string s); [|discriminate].
    apply some_eq in Hk. subst k.
    destruct (contains "1-1-2"%string s); [|destruct (contains "1-2-1"%string s)];
      cbn [bind fst snd]; rewrite index_ge by (cbn; lia); reflexivity.
Qed.

(** What one pass of the loop leaves behind when it completes. *)
Lemma add_block_done (d : list float64) (s : String.string) (i : nat)
      (cz : float64) (vars : locals) (data : list trace)
      (st' : float64 * locals * list trace) :
  (i < length d)%nat ->
  add_block d s i (cz, vars, data) = Done st' ->
  let bottom := fadd cz (nth i d NaN) in
  let zs := [cz; cz; cz; cz; bottom; bottom; bottom; bottom] in
  exists c l ex ey ez,
    st' = (bottom,
           mk_locals (Some l) (Some c) (Some (Fin 1.0))
                     (Some block_x) (Some block_y) (Some zs),
           data ++ [Mesh3d block_x block_y zs c (Fin 1.0) l l (Some true);
                    Scatter3d ex ey ez false l]).
Proof.
  intros Hi. unfold add_block.
  rewrite (@index_lt _ d i NaN Hi). cbn [of_result obind].
  destruct (assign_style s i _) as [vars'|e] eqn:Hstyle;
    cbn [of_result obind]; [|discriminate].
  cbn [x y z color label opacity local obind].
  assert (Hop : opacity vars' = Some (Fin 1.0)).
  { revert Hstyle. unfold assign_style.
    repeat match goal with
           | |- context [if ?b then _ else _] => destruct b
           | |- context [index ?l ?j] => destruct (index l j)
           | _ => cbn [bind fst snd opacity]
           end;
      intros H; try discriminate; apply return_eq in H; subst vars';
      reflexivity. }
  rewrite Hop.
  destruct (color vars') as [c|]; cbn [local obind]; [|discriminate].
  destruct (label vars') as [l|]; cbn [local obind]; [|discriminate].
  intros H. injection H as <-.
  exists c, l. eexists. eexists. eexists. reflexivity.
Qed.

Lemma block_z_step (d : list float64) (i : nat) :
  (i < length d)%nat ->
  let cz := fsum (firstn i d) in
  let bottom := fadd cz (nth i d NaN) in
  [cz; cz; cz; cz; bottom; bottom; bottom; bottom] = block_z d i.
Proof.
  intros Hi. unfold block_z. cbv zeta. rewrite (fsum_firstn_S _ Hi).
  reflexivity.
Qed.

(** The loop appends one block per layer, block [i] between the depths
    at which the layers above it and the layer itself end; the local
    variables keep the last block. *)
Lemma add_blocks_done (d : list float64) (s : String.string) (k : nat) :
  forall a vars data st',
    (a + k <= length d)%nat ->
    add_blocks d s (seq a k) (fsum (firstn a d), vars, data) = Done st' ->
    exists vars' blocks,
      st' = (fsum (firstn (a + k) d), vars', data ++ blocks) /\
      length blocks = (2 * k)%nat /\
      (forall i, (i < k)%nat ->
         exists c l ex ey ez,
           nth_error blocks (2 * i)
           = Some (Mesh3d block_x block_y (block_z d (a + i)) c (Fin 1.0)
                          l l (Some true)) /\
           nth_error blocks (2 * i + 1) = Some (Scatter3d ex ey ez false l) /\
           (S i = k ->
            vars' = mk_locals (Some l) (Some c) (Some (Fin 1.0))
                              (Some block_x) (Some block_y)
                              (Some (block_z d (a + i))))) /\
      (k = 0%nat -> vars' = vars).
Proof.
  induction k as [|k IH]; intros a vars data st' Hlen Hrun.
  - cbn [seq add_blocks] in Hrun. injection Hrun as <-.
    exists vars, []. rewrite Nat.add_0_r, app_nil_r.
    repeat split; try reflexivity. intros i Hi. lia.
  - cbn [seq add_blocks] in Hrun.
    destruct (add_block d s a (fsum (firstn a d), vars, data))
      as [st1|e] eqn:Hblock; cbn [obind] in Hrun; [|discriminate].
    apply add_block_done in Hblock; [|lia].
    destruct Hblock as (c & l & ex & ey & ez & ->).
    rewrite (@block_z_step d a) in Hrun by lia.
    rewrite <- (@fsum_firstn_S d a) in Hrun by lia.
    apply IH in Hrun; [|lia].
    destruct Hrun as (vars' & blocks & -> & Hblocks & Hnth & Hzero).
    exists vars'. eexists. split; [|split; [|split]].
    + rewrite <- app_assoc. replace (S a + k)%nat with (a + S k)%nat by lia.
      reflexivity.
    + cbn [app length]. rewrite Hblocks. lia.
    + intros [|i] Hi.
      * exists c, l, ex, ey, ez. rewrite Nat.add_0_r.
        split; [reflexivity|]. split; [reflexivity|].
        intros Hk. apply Hzero. lia.
      * destruct (Hnth i) as (c' & l' & ex' & ey' & ez' & Hm & Hw & Hlast);
          [lia|].
        exists c', l', ex', ey', ez'.
        replace (2 * S i + 1)%nat with (S (S (2 * i + 1))) by lia.
        replace (2 * S i)%nat with (S (S (2 * i))) by lia.
        replace (a + S i)%nat with (S a + i)%nat by lia.
        cbn [app nth_error].
        split; [exact Hm|]. split; [exact Hw|].
        intros Hk. apply Hlast. lia.
    + discriminate.
Qed.

Lemma fits_le (s : String.string) (n m : nat) :
  (n <= m)%nat -> fits s m -> fits s n.
Proof. intros Hnm Hfit k Hk. specialize (Hfit k Hk). lia. Qed.

Lemma label_count_keyword (s : String.string) (k : nat) :
  label_count s = Some k -> keyword s = true.
Proof.
  unfold label_count, keyword.
  destruct (contains "Baseline"%string s); [reflexivity|].
  destruct (contains "1-Layer"%string s); [discriminate|].
  destruct (contains "2-Layer"%string s); [discriminate|].
  destruct (contains "3-Layer"%string s); [reflexivity | discriminate].
Qed.

Lemma add_block_ok (d : list float64) (s : String.string) (i : nat)
      (st : float64 * locals * list trace) :
  (i < length d)%nat -> keyword s = true -> fits s (S i) ->
  exists st', add_block d s i st = Done st'.
Proof.
  intros Hi Hk Hfit. destruct st as [[cz vars] data]. unfold add_block.
  rewrite (@index_lt _ d i NaN Hi). cbn [of_result obind].
  destruct (@assign_style_ok s i
              (mk_locals (label vars) (color vars) (Some (Fin 1.0))
                         (x vars) (y vars) (z vars)) Hk Hfit)
    as (l & c & ->).
  cbn [of_result obind x y z color label opacity local].
  eexists. reflexivity.
Qed.

Lemma add_block_unbound (d : list float64) (s : String.string) (i : nat)
      (cz : float64) (vars : locals) (data : list trace) :
  (i < length d)%nat -> keyword s = false ->
  color vars = None ->
  add_block d s i (cz, vars, data) = Fails UnboundLocalError.
Proof.
  intros Hi Hk Hc. unfold add_block.
  rewrite (@index_lt _ d i NaN Hi). cbn [of_result obind].
  rewrite (@assign_style_none s i _ Hk).
  cbn [of_result obind x y z color label opacity local].
  rewrite Hc. reflexivity.
Qed.

Lemma add_block_index_error (d : list float64) (s : String.string)
      (i k : nat) (st : float64 * locals * list trace) :
  (i < length d)%nat -> label_count s = Some k -> (k <= i)%nat ->
  add_block d s i st = Fails (Builtin IndexError).
Proof.
  intros Hi Hk Hki. destruct st as [[cz vars] data]. unfold add_block.
  rewrite (@index_lt _ d i NaN Hi). cbn [of_result obind].
  rewrite (@assign_style_index_error s i k _ Hk Hki). reflexivity.
Qed.

Lemma add_blocks_ok (d : list float64) (s : String.string) (k : nat) :
  forall a st,
    (a + k <= length d)%nat -> keyword s = true -> fits s (a + k) ->
    exists st', add_blocks d s (seq a k) st = Done st'.
Proof.
  induction k as [|k IH]; intros a st Hlen Hk Hfit.
  - exists st. reflexivity.
  - cbn [seq add_blocks].
    destruct (@add_block_ok d s a st) as (st1 & ->);
      [lia | exact Hk | apply (fits_le (m := (a + S k)%nat)); [lia | exact Hfit] |].
    cbn [obind]. apply IH; [lia | exact Hk |].
    replace (S a + k)%nat with (a + S k)%nat by lia. exact Hfit.
Qed.

Lemma add_blocks_index_error (d : list float64) (s : String.string)
      (k m : nat) :
  forall a st,
    (a <= k)%nat -> (k < a + m)%nat -> (a + m <= length d)%nat ->
    label_count s = Some k ->
    add_blocks d s (seq a m) st = Fails (Builtin IndexError).
Proof.
  induction m as [|m IH]; intros a st Hak Hkm Hlen Hk; [lia|].
  cbn [seq add_blocks].
  destruct (Nat.eq_dec a k) as [-> | Hne].
  - rewrite (@add_block_index_error d s k k) by (lia || assumption).
    reflexivity.
  - destruct (@add_block_ok d s a st) as (st1 & ->).
    + lia.
    + apply (label_count_keyword _ Hk).
    + intros k' Hk'. rewrite Hk in Hk'. apply some_eq in Hk'. lia.
    + cbn [obind]. apply IH; (lia || assumption).
Qed.

(** The figure that [create_layer_diagram] returns. *)
Lemma create_layer_diagram_done (data : Data.t) (s : String.string)
      (traces : list trace) :
  create_layer_diagram data s = Done traces ->
  let d := Data.d data in
  let n := length d in
  (0 < n)%nat /\
  length traces = (2 * n + 1)%nat /\
  forall i, (i < n)%nat ->
    exists c l ex ey ez,
      nth_error traces (2 * i)
      = Some (Mesh3d block_x block_y (block_z d i) c (Fin 1.0) l l
                     (Some true)) /\
      nth_error traces (2 * i + 1) = Some (Scatter3d ex ey ez false l) /\
      (S i = n ->
       nth_error traces (2 * n)
       = Some (Mesh3d block_x block_y (block_z d i) c (Fin 1.0) l l None)).
Proof.
  intros Hrun d n. unfold create_layer_diagram in Hrun.
  fold d in Hrun. fold n in Hrun.
  destruct (add_blocks d s (seq 0 n) _) as [[[cz vars] blocks]|e] eqn:Hloop;
    cbn [obind] in Hrun; [|discriminate].
  change (Fin 0) with (fsum (firstn 0 d)) in Hloop.
  apply add_blocks_done in Hloop; [|cbn; lia].
  destruct Hloop as (vars' & blocks' & Heq & Hlen & Hnth & Hzero).
  injection Heq as _ -> ->. cbn [app] in Hrun |- *.
  destruct n as [|n'] eqn:Hn.
  { rewrite (Hzero eq_refl) in Hrun. cbn in Hrun. discriminate. }
  split; [lia|].
  destruct (Hnth n') as (c & l & ex & ey & ez & Hm & Hw & Hlast); [lia|].
  rewrite (Hlast eq_refl) in Hrun.
  cbn [x y z color label opacity local obind] in Hrun.
  injection Hrun as <-.
  split; [rewrite length_app, Hlen; cbn [length]; lia|].
  intros i Hi.
  destruct (Hnth i Hi) as (c' & l' & ex' & ey' & ez' & Hm' & Hw' & Hlast').
  exists c', l', ex', ey', ez'.
  split; [rewrite nth_error_app1 by lia; exact Hm'|].
  split; [rewrite nth_error_app1 by lia; exact Hw'|].
  intros Hi'. rewrite nth_error_app2 by lia.
  rewrite Hlen, Nat.sub_diag. cbn [nth_error].
  specialize (Hlast' Hi'). rewrite (Hlast eq_refl) in Hlast'.
  injection Hlast' as -> -> _. 
  assert (i = n') by lia. subst i. reflexivity.
Qed.

Lemma create_layer_diagram_returns (data : Data.t) (s : String.string) :
  (0 < length (Data.d data))%nat -> keyword s = true ->
  fits s (length (Data.d data)) ->
  exists traces, create_layer_diagram data s = Done traces.
Proof.
  intros Hn Hk Hfit. set (n := length (Data.d data)) in *.
  destruct (@add_blocks_ok (Data.d data) s n 0
              (Fin 0, mk_locals None None None None None None, []))
    as (st' & Hloop); [cbn; lia | exact Hk | exact Hfit |].
  destruct (create_layer_diagram data s) as [traces|e] eqn:Hrun.
  - exists traces. reflexivity.
  - exfalso. unfold create_layer_diagram in Hrun. fold n in Hrun.
    rewrite Hloop in Hrun. cbn [obind] in Hrun.
    destruct st' as [[cz vars] blocks].
    change (Fin 0) with (fsum (firstn 0 (Data.d data))) in Hloop.
    apply add_blocks_done in Hloop; [|cbn; lia].
    destruct Hloop as (vars' & blocks' & Heq & _ & Hnth & _).
    injection Heq as _ -> _.
    destruct n as [|n']; [lia|].
    destruct (Hnth n') as (c & l & _ & _ & _ & _ & _ & Hlast); [lia|].
    rewrite (Hlast eq_refl) in Hrun. cbn in Hrun. discriminate.
Qed.

(** X23: The diagram is drawn exactly when there is at least one layer and
    the scheme name selects labels for all of them.  Without layers, or
    with a name that holds none of the four keywords, a local variable
    is read before any assignment; with more layers than the selected
    branch has labels, a label list is indexed out of range. *)
Theorem create_layer_diagram_outcome :
  forall (input_data : Data.t) (selected_scheme : String.string),
    let n := length (Data.d input_data) in
    (n = 0%nat \/ keyword selected_scheme = false ->
     create_layer_diagram input_data selected_scheme
     = Fails UnboundLocalError) /\
    ((0 < n)%nat -> keyword selected_scheme = true ->
     fits selected_scheme n ->
     exists traces,
       create_layer_diagram input_data selected_scheme = Done traces /\
       length traces = (2 * n + 1)%nat) /\
    (forall k, label_count selected_scheme = Some k -> (k < n)%nat ->
     create_layer_diagram input_data selected_scheme
     = Fails (Builtin IndexError)).
Proof.
  intros data s n. split; [|split].
  - intros Hcase. unfold create_layer_diagram. fold n.
    destruct n as [|n'] eqn:Hn; [reflexivity|].
    destruct Hcase as [H0 | Hk]; [discriminate|].
    cbn [seq add_blocks].
    rewrite add_block_unbound; [reflexivity | lia | exact Hk | reflexivity].
  - intros Hn Hk Hfit.
    destruct (create_layer_diagram_returns data Hn Hk Hfit)
      as (traces & Hrun).
    exists traces. split; [exact Hrun|].
    apply (create_layer_diagram_done _ _ Hrun).
  - intros k Hk Hkn. unfold create_layer_diagram. fold n.
    rewrite (@add_blocks_index_error (Data.d data) s k n);
      [reflexivity | lia | lia | cbn; lia | exact Hk].
Qed.

Lemma create_layer_diagram_outcome_witness :
  create_layer_diagram DEFAULT_INPUT_DATA "Overview"%string
  = Fails UnboundLocalError /\
  (exists traces,
     create_layer_diagram DEFAULT_INPUT_DATA "Baseline (Original 4-Layer)"%string
     = Done traces /\
     length traces = 9%nat) /\
  create_layer_diagram DEFAULT_INPUT_DATA "3-Layer (1-2-1)"%string
  = Fails (Builtin IndexError).
Proof.
  split; [|split].
  - apply (proj1 (create_layer_diagram_outcome DEFAULT_INPUT_DATA
                    "Overview"%string)).
    right. reflexivity.
  - apply (proj1 (proj2 (create_layer_diagram_outcome DEFAULT_INPUT_DATA
                           "Baseline (Original 4-Layer)"%string))).
    + cbn. lia.
    + reflexivity.
    + intros k Hk. apply some_eq in Hk. subst k. cbn. lia.
  - apply (proj2 (proj2 (create_layer_diagram_outcome DEFAULT_INPUT_DATA
                           "3-Layer (1-2-1)"%string)) 3%nat).
    + reflexivity.
    + cbn. lia.
Defined.

(** X24: A returned figure holds, for every layer in order, a block and its
    wireframe under one label, the block reaching from the depth where
    the layers above it end to the depth where it ends itself; one more
    trace repeats the last block without a legend entry. *)
Theorem create_layer_diagram_blocks :
  forall (input_data : Data.t) (selected_scheme : String.string)
         (traces : list trace),
    create_layer_diagram input_data selected_scheme = Done traces ->
    let d := Data.d input_data in
    let n := length d in
    (0 < n)%nat /\
    length traces = (2 * n + 1)%nat /\
    forall i, (i < n)%nat ->
      exists c l ex ey ez,
        nth_error traces (2 * i)
        = Some (Mesh3d block_x block_y (block_z d i) c (Fin 1.0) l l
                       (Some true)) /\
        nth_error traces (2 * i + 1) = Some (Scatter3d ex ey ez false l) /\
        (S i = n ->
         nth_error traces (2 * n)
         = Some (Mesh3d block_x block_y (block_z d i) c (Fin 1.0) l l None)).
Proof.
  intros input_data selected_scheme traces Hrun.
  exact (create_layer_diagram_done _ _ Hrun).
Qed.

Lemma baseline_diagram_returns :
  exists traces,
    create_layer_diagram DEFAULT_INPUT_DATA
                         "Baseline (Original 4-Layer)"%string
    = Done traces.
Proof.
  apply create_layer_diagram_returns.
  - cbn. lia.
  - reflexivity.
  - intros k Hk. apply some_eq in Hk. subst k. cbn. lia.
Qed.

Lemma create_layer_diagram_blocks_witness :
  exists traces,
    create_layer_diagram DEFAULT_INPUT_DATA
                         "Baseline (Original 4-Layer)"%string
    = Done traces /\
    (0 < 4)%nat /\
    length traces = 9%nat /\
    forall i, (i < 4)%nat ->
      exists c l ex ey ez,
        nth_error traces (2 * i)
        = Some (Mesh3d block_x block_y
                       (block_z (Data.d DEFAULT_INPUT_DATA) i) c (Fin 1.0)
                       l l (Some true)) /\
        nth_error traces (2 * i + 1) = Some (Scatter3d ex ey ez false l) /\
        (S i = 4%nat ->
         nth_error traces 8
         = Some (Mesh3d block_x block_y
                        (block_z (Data.d DEFAULT_INPUT_DATA) i) c (Fin 1.0)
                        l l None)).
Proof.
  destruct baseline_diagram_returns as (traces & Hrun).
  exists traces. split; [exact Hrun|].
  apply (@create_layer_diagram_blocks _ _ _ Hrun).
Defined.

Lemma make_layer_z1 (data : Data.t) (i : nat) (layer : Layer.t) :
  make_layer data i = Return layer ->
  (i < length (Data.d data))%nat /\
  Layer.z1 layer = fsum (firstn (S i) (Data.d data)).
Proof.
  unfold make_layer.
  destruct (index (Data.d data) i) as [d_i|e] eqn:Hd; cbn [bind];
    [|discriminate].
  assert (Hi : (i < length (Data.d data))%nat).
  { apply nth_error_Some. unfold index in Hd.
    destruct (nth_error (Data.d data) i); [discriminate | discriminate]. }
  destruct (index (Data.n data) i); cbn [bind]; [|discriminate].
  destruct (index (Data.n data) (i + 1)); cbn [bind]; [|discriminate].
  destruct (cos_crit _ _ _); cbn [bind]; [|discriminate].
  destruct (index (Data.mua data) i); cbn [bind]; [|discriminate].
  destruct (index (Data.mus data) i); cbn [bind]; [|discriminate].
  destruct (index (Data.g data) i); cbn [bind]; [|discriminate].
  intros H. apply return_eq in H. subst layer. cbn [Layer.z1].
  replace (i + 1)%nat with (S i) by lia. split; [exact Hi | reflexivity].
Qed.

Lemma build_layers_z1 (data : Data.t) (k : nat) :
  forall a acc layers,
    build_layers data (seq a k) acc = Return layers ->
    exists rest,
      layers = acc ++ rest /\
      forall j layer,
        nth_error rest j = Some layer ->
        (a + j < length (Data.d data))%nat /\
        Layer.z1 layer = fsum (firstn (S (a + j)) (Data.d data)).
Proof.
  induction k as [|k IH]; intros a acc layers Hrun.
  - cbn [seq build_layers] in Hrun. apply return_eq in Hrun. subst layers.
    exists []. split; [rewrite app_nil_r; reflexivity|].
    intros [|j] layer Hj; discriminate.
  - cbn [seq build_layers] in Hrun.
    destruct (make_layer data a) as [layer0|e] eqn:Hlayer; cbn [bind] in Hrun;
      [|discriminate].
    apply make_layer_z1 in Hlayer.
    apply IH in Hrun. destruct Hrun as (rest & -> & Hrest).
    exists (layer0 :: rest). split; [rewrite <- app_assoc; reflexivity|].
    intros [|j] layer Hj.
    + apply some_eq in Hj. subst layer. rewrite Nat.add_0_r. exact Hlayer.
    + replace (a + S j)%nat with (S a + j)%nat by lia.
      apply Hrest. exact Hj.
Qed.

Lemma initialize_input_z1 (data : Data.t) (input : Input.t) :
  initialize_input data = Return input ->
  forall i layer,
    nth_error (Input.layers input) i = Some layer ->
    (i < length (Data.d data))%nat /\
    Layer.z1 layer = fsum (firstn (S i) (Data.d data)).
Proof.
  unfold initialize_input.
  destruct (build_layers data (seq 0 (Data.nl data)) []) as [layers|e]
    eqn:Hbuild; cbn [bind]; [|discriminate].
  destruct (pydiv _ _); cbn [bind]; [|discriminate].
  destruct (index _ _); cbn [bind]; [|discriminate].
  destruct (index_last _); cbn [bind]; [|discriminate].
  intros H. apply return_eq in H. subst input. cbn [Input.layers].
  apply build_layers_z1 in Hbuild. destruct Hbuild as (rest & -> & Hrest).
  exact Hrest.
Qed.

(** X25: The diagram shows the stack that is simulated: for every layer that
    [initialize_input] builds, the block drawn for it ends at exactly
    that layer's lower boundary [z1]. *)
Theorem diagram_blocks_end_with_the_layers :
  forall (input_data : Data.t) (selected_scheme : String.string)
         (traces : list trace) (input : Input.t),
    create_layer_diagram input_data selected_scheme = Done traces ->
    initialize_input input_data = Return input ->
    forall i layer,
      nth_error (Input.layers input) i = Some layer ->
      exists top c l,
        nth_error traces (2 * i)
        = Some (Mesh3d block_x block_y
                       [top; top; top; top;
                        Layer.z1 layer; Layer.z1 layer;
                        Layer.z1 layer; Layer.z1 layer]
                       c (Fin 1.0) l l (Some true)).
Proof.
  intros data s traces input Hfig Hinput i layer Hlayer.
  destruct (initialize_input_z1 _ Hinput _ Hlayer) as (Hi & ->).
  destruct (create_layer_diagram_done _ _ Hfig) as (_ & _ & Hblocks).
  destruct (Hblocks i Hi) as (c & l & _ & _ & _ & Hm & _).
  exists (fsum (firstn i (Data.d data))), c, l. exact Hm.
Qed.

Lemma diagram_blocks_end_with_the_layers_witness :
  exists traces input,
    create_layer_diagram DEFAULT_INPUT_DATA
                         "Baseline (Original 4-Layer)"%string
    = Done traces /\
    initialize_input DEFAULT_INPUT_DATA = Return input /\
    forall i layer,
      nth_error (Input.layers input) i = Some layer ->
      exists top c l,
        nth_error traces (2 * i)
        = Some (Mesh3d block_x block_y
                       [top; top; top; top;
                        Layer.z1 layer; Layer.z1 layer;
                        Layer.z1 layer; Layer.z1 layer]
                       c (Fin 1.0) l l (Some true)).
Proof.
  destruct baseline_diagram_returns as (traces & Hrun).
  exists traces. eexists. split; [exact Hrun|].
  assert (Hinput := @initialize_input_ok DEFAULT_INPUT_DATA
                      DEFAULT_INPUT_DATA_enough ltac:(cbn; lia)).
  split; [exact Hinput|].
  apply (@diagram_blocks_end_with_the_layers _ _ _ _ Hrun Hinput).
Defined.
